(** * Incremental graph construction for the stock knowledge graph

    A shallow embedding of the graph-construction engine
    ([stock_knowledge_graph.py], [run_graphdb.py], [graph_builders.py],
    [data_collectors.py]) and the properties of it that the specification
    states.

    Python values are modelled by [pyval], dictionaries and data-frame rows by
    [gmap string pyval], exceptions by the [result] monad, the graph store by
    an explicit [graph] of nodes and edges on which the Cypher text that the
    source builds is run clause by clause. *)

From Stdlib Require Import ZArith String Ascii List Lia Bool.
From stdpp Require Import base option list gmap strings fin_maps pretty.

Local Open Scope string_scope.
Local Open Scope Z_scope.

(** ** Python values and exceptions *)

(** The values that flow through the records of the pipeline: [None], the
    float [nan] that pandas puts in a missing cell, integers, strings and the
    lists of stock codes that the competitor feed provides. *)
Inductive pyval :=
  | PNone
  | PNaN
  | PInt (z : Z)
  | PStr (s : string)
  | PList (l : list string).

#[global] Instance pyval_eq_dec : EqDecision pyval.
Proof. solve_decision. Defined.

(** Truth value of a Python object ([if not x]). [nan] is a non-zero float. *)
Definition truthy (v : pyval) : bool :=
  match v with
  | PNone => false
  | PNaN => true
  | PInt z => negb (z =? 0)
  | PStr s => negb (String.eqb s "")
  | PList l => match l with [] => false | _ => true end
  end.

Inductive exn :=
  | KeyError (key : string)
  | IndexError
  | ValueError
  | TypeError
  | AttributeError
  | OverflowError
  | MalformedRecordError
  | ClientError (msg : string).

#[global] Instance exn_eq_dec : EqDecision exn.
Proof. solve_decision. Defined.

(** A computation that returns or raises. *)
Inductive result (A : Type) :=
  | Ok (a : A)
  | Raise (e : exn).
Arguments Ok {A} a.
Arguments Raise {A} e.

Definition rbind {A B} (m : result A) (k : A -> result B) : result B :=
  match m with
  | Ok a => k a
  | Raise e => Raise e
  end.

Notation "x <-- m ;; k" := (rbind m (fun x => k))
  (at level 100, m at next level, right associativity).

Definition is_ok {A} (r : result A) : bool :=
  match r with Ok _ => true | Raise _ => false end.

(** [d[k]] on a dictionary. *)
Definition getitem (d : gmap string pyval) (k : string) : result pyval :=
  match d !! k with
  | Some v => Ok v
  | None => Raise (KeyError k)
  end.

(** [d.get(k, default)]. *)
Definition dict_get (d : gmap string pyval) (k : string) (default : pyval) : pyval :=
  match d !! k with
  | Some v => v
  | None => default
  end.

(** ** Characters, [int()] and zero-padded decimal output *)

Definition is_digit (c : ascii) : bool :=
  let n := nat_of_ascii c in ((48 <=? n)%nat && (n <=? 57)%nat)%bool.

Definition digit_val (c : ascii) : Z := Z.of_nat (nat_of_ascii c) - 48.

(** ASCII white space as [str.strip] and [int()] see it. *)
Definition is_space (c : ascii) : bool :=
  let n := nat_of_ascii c in
  (((9 <=? n)%nat && (n <=? 13)%nat) || ((28 <=? n)%nat && (n <=? 32)%nat))%bool.

Fixpoint lstrip (s : string) : string :=
  match s with
  | String c s' => if is_space c then lstrip s' else s
  | EmptyString => EmptyString
  end.

Fixpoint string_rev (s : string) : string :=
  match s with
  | EmptyString => EmptyString
  | String c s' => String.append (string_rev s') (String c EmptyString)
  end.

Definition strip (s : string) : string :=
  string_rev (lstrip (string_rev (lstrip s))).

(** Digits of a Python integer literal: single underscores may separate
    digits. [after_digit] tells whether the previous character was a digit. *)
Fixpoint int_digits (s : string) (acc : Z) (after_digit : bool) : option Z :=
  match s with
  | EmptyString => if after_digit then Some acc else None
  | String c s' =>
      if is_digit c then int_digits s' (10 * acc + digit_val c) true
      else if (Ascii.eqb c "_" && after_digit)%bool then int_digits s' acc false
      else None
  end.

(** [int(s)] for a string; [None] is [ValueError]. *)
Definition py_int (s : string) : option Z :=
  match strip s with
  | String c r =>
      if Ascii.eqb c "+" then int_digits r 0 false
      else if Ascii.eqb c "-" then Z.opp <$> int_digits r 0 false
      else int_digits (String c r) 0 false
  | EmptyString => None
  end.

Definition digit_char (z : Z) : ascii := ascii_of_nat (48 + Z.to_nat z).

(** [f"{z:02d}"] and [f"{z:04d}"] for a non-negative number that fits. *)
Definition fmt2 (z : Z) : string :=
  String (digit_char (z / 10 mod 10)) (String (digit_char (z mod 10)) EmptyString).

Definition fmt4 (z : Z) : string :=
  String (digit_char (z / 1000 mod 10))
    (String (digit_char (z / 100 mod 10))
       (String (digit_char (z / 10 mod 10))
          (String (digit_char (z mod 10)) EmptyString))).

(** ** Calendar dates ([datetime]) *)

Record date := Date { year : Z; month : Z; day : Z }.

#[global] Instance date_eq_dec : EqDecision date.
Proof. solve_decision. Defined.

Definition is_leap (y : Z) : bool :=
  ((y mod 4 =? 0) && (negb (y mod 100 =? 0) || (y mod 400 =? 0)))%bool.

Definition days_in_month (y m : Z) : Z :=
  match m with
  | 1 | 3 | 5 | 7 | 8 | 10 | 12 => 31
  | 4 | 6 | 9 | 11 => 30
  | 2 => if is_leap y then 29 else 28
  | _ => 0
  end.

Definition MAXYEAR : Z := 9999.

(** The range check of the [datetime] constructor. *)
Definition valid_ymd (y m d : Z) : bool :=
  ((1 <=? y) && (y <=? MAXYEAR) && (1 <=? m) && (m <=? 12)
   && (1 <=? d) && (d <=? days_in_month y m))%bool.

Definition valid_date (dt : date) : bool := valid_ymd (year dt) (month dt) (day dt).

Definition days_before_year (y : Z) : Z :=
  (y - 1) * 365 + (y - 1) / 4 - (y - 1) / 100 + (y - 1) / 400.

Definition days_before_month (y m : Z) : Z :=
  match m with
  | 1 => 0 | 2 => 31 | 3 => 59 | 4 => 90 | 5 => 120 | 6 => 151
  | 7 => 181 | 8 => 212 | 9 => 243 | 10 => 273 | 11 => 304 | 12 => 334
  | _ => 0
  end + (if (2 <? m) && is_leap y then 1 else 0)%bool.

(** [date.toordinal()]: days since 0001-01-01, that day being 1. *)
Definition toordinal (dt : date) : Z :=
  days_before_year (year dt) + days_before_month (year dt) (month dt) + day dt.

(** [a <= b] on dates: lexicographic on year, month, day. *)
Definition date_le (a b : date) : bool :=
  ((year a <? year b)
   || ((year a =? year b)
       && ((month a <? month b)
           || ((month a =? month b) && (day a <=? day b)))))%bool.

(** [dt + timedelta(days=1)]; past 9999-12-31 it raises [OverflowError]. *)
Definition add_one_day (dt : date) : result date :=
  if day dt <? days_in_month (year dt) (month dt)
  then Ok (Date (year dt) (month dt) (day dt + 1))
  else if month dt <? 12
  then Ok (Date (year dt) (month dt + 1) 1)
  else if year dt <? MAXYEAR
  then Ok (Date (year dt + 1) 1 1)
  else Raise OverflowError.

(** *** [strptime]

    [_strptime] turns the format into a regular expression and takes the
    first match in the order of its alternatives; the whole string must be
    consumed. A matcher returns its successes in that order. *)

Inductive directive :=
  | DYear         (* %Y : \d\d\d\d *)
  | DMonth        (* %m : 1[0-2]|0[1-9]|[1-9] *)
  | DDay          (* %d : 3[0-1]|[1-2]\d|0[1-9]|[1-9]| [1-9] *)
  | DLit (c : ascii).

Definition in_range (lo hi : nat) (c : ascii) : bool :=
  let n := nat_of_ascii c in ((lo <=? n)%nat && (n <=? hi)%nat)%bool.

Definition two (a b : ascii) : Z := 10 * digit_val a + digit_val b.

Definition match_year (s : string) : list (Z * string) :=
  match s with
  | String a (String b (String c (String d r))) =>
      if (is_digit a && is_digit b && is_digit c && is_digit d)%bool
      then [(1000 * digit_val a + 100 * digit_val b + 10 * digit_val c + digit_val d, r)]
      else []
  | _ => []
  end.

Definition match_month (s : string) : list (Z * string) :=
  match s with
  | String a r =>
      match r with
      | String b r' =>
          (if (Ascii.eqb a "1" && in_range 48 50 b)%bool then [(two a b, r')] else [])
          ++ (if (Ascii.eqb a "0" && in_range 49 57 b)%bool then [(two a b, r')] else [])
      | EmptyString => []
      end
      ++ (if in_range 49 57 a then [(digit_val a, r)] else [])
  | EmptyString => []
  end.

Definition match_day (s : string) : list (Z * string) :=
  match s with
  | String a r =>
      match r with
      | String b r' =>
          (if (Ascii.eqb a "3" && in_range 48 49 b)%bool then [(two a b, r')] else [])
          ++ (if (in_range 49 50 a && is_digit b)%bool then [(two a b, r')] else [])
          ++ (if (Ascii.eqb a "0" && in_range 49 57 b)%bool then [(two a b, r')] else [])
      | EmptyString => []
      end
      ++ (if in_range 49 57 a then [(digit_val a, r)] else [])
      ++ match r with
         | String b r' =>
             if (Ascii.eqb a " " && in_range 49 57 b)%bool then [(digit_val b, r')] else []
         | EmptyString => []
         end
  | EmptyString => []
  end.

(** Matches of a format against [s], from the fields read so far. *)
Fixpoint match_format (fmt : list directive) (s : string) (acc : date)
  : list (date * string) :=
  match fmt with
  | [] => [(acc, s)]
  | DYear :: fmt' =>
      '(y, r) ← match_year s;
      match_format fmt' r (Date y (month acc) (day acc))
  | DMonth :: fmt' =>
      '(m, r) ← match_month s;
      match_format fmt' r (Date (year acc) m (day acc))
  | DDay :: fmt' =>
      '(d, r) ← match_day s;
      match_format fmt' r (Date (year acc) (month acc) d)
  | DLit c :: fmt' =>
      match s with
      | String c' r => if Ascii.eqb c c' then match_format fmt' r acc else []
      | EmptyString => []
      end
  end.

(** [datetime.strptime(s, fmt)]: every failure is a [ValueError]. *)
Definition strptime (s : string) (fmt : list directive) : result date :=
  match match_format fmt s (Date 1900 1 1) with
  | (dt, EmptyString) :: _ => if valid_date dt then Ok dt else Raise ValueError
  | _ => Raise ValueError
  end.

(** ['%Y%m%d'] and ['%Y-%m-%d']. *)
Definition fmt_compact : list directive := [DYear; DMonth; DDay].
Definition fmt_iso : list directive := [DYear; DLit "-"; DMonth; DLit "-"; DDay].

(** [%Y] as [strftime] writes it: the decimal number of the year, with no
    padding, so that a year below 1000 has fewer than four digits. *)
Definition year_text (y : Z) : string :=
  if y <? 10 then String (digit_char y) EmptyString
  else if y <? 100 then fmt2 y
  else if y <? 1000 then String (digit_char (y / 100)) (fmt2 (y mod 100))
  else fmt4 y.

(** [dt.strftime('%Y%m%d')]. *)
Definition strftime_compact (dt : date) : string :=
  String.append (year_text (year dt)) (String.append (fmt2 (month dt)) (fmt2 (day dt))).

(** A date written [YYYY-MM-DD], every field padded with zeros. *)
Definition strftime_iso (dt : date) : string :=
  String.append (fmt4 (year dt))
    (String "-" (String.append (fmt2 (month dt)) (String "-" (fmt2 (day dt))))).

(** ** [stock_knowledge_graph._get_date_components] *)

(** Year, month, day and quarter of a date string; [None] stands for the
    tuple of four [None] that the source returns when parsing fails. *)
Definition _get_date_components (date_str : string) : option (Z * Z * Z * Z) :=
  let parsed : result (Z * Z * Z) :=
    if (String.length date_str =? 8)%nat then
      match py_int (substring 0 4 date_str),
            py_int (substring 4 2 date_str),
            py_int (substring 6 2 date_str) with
      | Some y, Some m, Some d => Ok (y, m, d)
      | _, _, _ => Raise ValueError
      end
    else
      date_obj <-- strptime date_str fmt_iso ;;
      Ok (year date_obj, month date_obj, day date_obj)
  in
  match parsed with
  | Ok (y, m, d) =>
      let quarter := (m - 1) / 3 + 1 in
      Some (y, m, d, quarter)
  | Raise _ => None
  end.

(** ** [data_collectors.get_date_list] *)

(** The [while current_date <= end_date] loop, at most [fuel] rounds; [None]
    when the rounds do not suffice. *)
Fixpoint date_loop (fuel : nat) (current_date end_date : date) (date_li : list string)
  : option (result (list string)) :=
  if date_le current_date end_date then
    match fuel with
    | O => None
    | S fuel' =>
        let date_li := (date_li ++ [strftime_compact current_date])%list in
        match add_one_day current_date with
        | Ok next => date_loop fuel' next end_date date_li
        | Raise e => Some (Raise e)
        end
    end
  else Some (Ok date_li).

Definition get_date_list (fuel : nat) (date_st date_fn : string)
  : option (result (list string)) :=
  match strptime date_st fmt_compact with
  | Raise e => Some (Raise e)
  | Ok start_date =>
      match strptime date_fn fmt_compact with
      | Raise e => Some (Raise e)
      | Ok end_date => date_loop fuel start_date end_date []
      end
  end.


(** ** Text of Python values *)

Fixpoint str_join (sep : string) (l : list string) : string :=
  match l with
  | [] => ""
  | [s] => s
  | s :: l' => String.append s (String.append sep (str_join sep l'))
  end.

(** [str(v)], the text that an f-string writes for [v]. *)
Definition py_str (v : pyval) : string :=
  match v with
  | PNone => "None"
  | PNaN => "nan"
  | PInt z => pretty z
  | PStr s => s
  | PList l =>
      String.append "["
        (String.append (str_join ", " ((fun s => String.append "'" (String.append s "'")) <$> l)) "]")
  end.

(** [==] on Python values; [nan] differs from everything, itself included. *)
Definition py_eq (a b : pyval) : bool :=
  match a, b with
  | PNaN, _ | _, PNaN => false
  | _, _ => bool_decide (a = b)
  end.

(** [s.replace("'", "\\'")]. *)
Fixpoint replace_quote (s : string) : string :=
  match s with
  | EmptyString => EmptyString
  | String c s' =>
      if Ascii.eqb c "'" then String "\" (String "'" (replace_quote s'))
      else String c (replace_quote s')
  end.

(** The local [escape_string] of the query builders. *)
Definition escape_string (s : pyval) : string :=
  match s with
  | PNone => ""
  | _ => replace_quote (py_str s)
  end.

(** [s.split(',')]. *)
Fixpoint split_comma (s : string) : list string :=
  match s with
  | EmptyString => [EmptyString]
  | String c s' =>
      let r := split_comma s' in
      if Ascii.eqb c "," then EmptyString :: r
      else match r with
           | h :: t => String c h :: t
           | [] => [String c EmptyString]
           end
  end.

(** ** Data frames *)

Abbreviation dict := (gmap string pyval).

(** A pandas frame: its column names and its rows, each row a dictionary on
    the columns (what [row.to_dict()] gives). In a frame of pandas every row
    has a cell for every column, an absent value being [nan]. *)
Record DataFrame := Frame { columns : list string; rows : list dict }.

(** A frame as pandas holds it: every row has a cell for each column of the
    frame, and for nothing else. *)
Definition frame_wf (df : DataFrame) : Prop :=
  Forall (fun r : dict => forall k, is_Some (r !! k) <-> k ∈ columns df) (rows df).

(** [df.empty]. *)
Definition frame_empty (df : DataFrame) : bool :=
  match rows df with [] => true | _ => false end.

(** The rows of [df[df[col] == v]] for a frame that has the column [col]. *)
Definition select_eq (rs : list dict) (col : string) (v : pyval) : list dict :=
  List.filter (fun r => match r !! col with Some x => py_eq x v | None => false end) rs.

(** The frame has the column [col]: it is among the names of the frame or a
    row has a cell for it. *)
Definition has_column (df : DataFrame) (col : string) : bool :=
  (bool_decide (col ∈ columns df)
   || existsb (fun r => bool_decide (is_Some (r !! col))) (rows df))%bool.

(** [df[df[col] == v]]: [df[col]] raises [KeyError] when the frame has no
    such column. *)
Definition frame_select (df : DataFrame) (col : string) (v : pyval) : result (list dict) :=
  if has_column df col then Ok (select_eq (rows df) col v) else Raise (KeyError col).

(** [df[col] = df[col].fillna('')]. *)
Definition fillna_row (col : string) (r : dict) : dict :=
  match r !! col with
  | Some PNone | Some PNaN => <[col := PStr ""]> r
  | _ => r
  end.

Definition fillna_empty (col : string) (rs : list dict) : list dict :=
  fillna_row col <$> rs.

(** ** The graph store *)

(** A literal of the query text: quoted, or written bare. A property keeps
    the literal it was written with. *)
Inductive lit :=
  | Quoted (s : string)
  | Bare (s : string).

#[global] Instance lit_eq_dec : EqDecision lit.
Proof. solve_decision. Defined.

Definition lit_text (l : lit) : string :=
  match l with Quoted s | Bare s => s end.

Abbreviation props := (list (string * lit)).

Record node := Node { nid : nat; nlabel : string; nprops : gmap string lit }.
Record edge := Edge { esrc : nat; etype : string; edst : nat }.
Record graph := Graph { nodes : list node; edges : list edge }.

#[global] Instance node_eq_dec : EqDecision node.
Proof. solve_decision. Defined.
#[global] Instance edge_eq_dec : EqDecision edge.
Proof. solve_decision. Defined.
#[global] Instance graph_eq_dec : EqDecision graph.
Proof. solve_decision. Defined.

Definition has_props (ps : props) (n : node) : bool :=
  forallb (fun kv => bool_decide (nprops n !! kv.1 = Some kv.2)) ps.

(** A node fits the pattern [(:label {ps})]. *)
Definition matches (label : string) (ps : props) (n : node) : bool :=
  (String.eqb (nlabel n) label && has_props ps n)%bool.

Definition match_nodes (label : string) (ps : props) (g : graph) : list nat :=
  nid <$> List.filter (matches label ps) (nodes g).

Definition fresh (g : graph) : nat := S (foldr Nat.max O (nid <$> nodes g)).

Definition has_label (g : graph) (x : nat) (label : string) : bool :=
  existsb (fun n => (Nat.eqb (nid n) x && String.eqb (nlabel n) label)%bool) (nodes g).

(** [MERGE (x)-[:ty]->(y)]: the edge is created unless there is one. *)
Definition merge_rel (g : graph) (x : nat) (ty : string) (y : nat) : graph :=
  if bool_decide (Edge x ty y ∈ edges g) then g
  else Graph (nodes g) (edges g ++ [Edge x ty y])%list.

(** Ends of the [ty] edges that leave [x] for a node labelled [label]. *)
Definition out_nodes (g : graph) (x : nat) (ty label : string) : list nat :=
  edst <$> List.filter
    (fun e => (Nat.eqb (esrc e) x && String.eqb (etype e) ty
               && has_label g (edst e) label)%bool) (edges g).

Definition touches (x : nat) (e : edge) : bool :=
  (Nat.eqb (esrc e) x || Nat.eqb (edst e) x)%bool.

(** [DETACH DELETE]: the node goes together with its edges. *)
Definition detach_delete (g : graph) (x : nat) : graph :=
  Graph (List.filter (fun n => negb (Nat.eqb (nid n) x)) (nodes g))
        (List.filter (fun e => negb (touches x e)) (edges g)).

(** ** Cypher, clause by clause *)

(** The clauses that the query texts of the source are made of. Variables are
    bound to node identifiers; an unbound variable is [null]. *)
Inductive clause :=
  | Merge (v label : string) (ps : props)            (* MERGE (v:label {ps}) *)
  | Match (v label : string) (ps : props)            (* MATCH (v:label {ps}) *)
  | MergeRel (src ty dst : string)                   (* MERGE (src)-[:ty]->(dst) *)
  | With (vs : list string)                          (* WITH vs *)
  | OptionalMatchOut (src ty v label : string)       (* OPTIONAL MATCH (src)-[:ty]->(v:label) *)
  | DetachDelete (vs : list string)                  (* DETACH DELETE vs *)
  | Delete (v : string).                             (* DELETE v *)

Abbreviation query := (list clause).
Abbreviation row := (gmap string nat).

(** One clause on one row: the graph after it and the rows it yields. *)
Definition exec_row (c : clause) (g : graph) (r : row) : result (graph * list row) :=
  match c with
  | Merge v label ps =>
      match match_nodes label ps g with
      | [] =>
          let n := fresh g in
          Ok (Graph (nodes g ++ [Node n label (list_to_map ps)])%list (edges g), [<[v := n]> r])
      | ms => Ok (g, (fun n => <[v := n]> r) <$> ms)
      end
  | Match v label ps => Ok (g, (fun n => <[v := n]> r) <$> match_nodes label ps g)
  | MergeRel src ty dst =>
      match r !! src, r !! dst with
      | Some x, Some y => Ok (merge_rel g x ty y, [r])
      | _, _ => Raise (ClientError "Failed to create relationship, node is missing")
      end
  | With vs => Ok (g, [filter (fun kv => kv.1 ∈ vs) r])
  | OptionalMatchOut src ty v label =>
      match r !! src with
      | Some x =>
          match out_nodes g x ty label with
          | [] => Ok (g, [delete v r])
          | ys => Ok (g, (fun y => <[v := y]> r) <$> ys)
          end
      | None => Ok (g, [delete v r])
      end
  | DetachDelete vs => Ok (foldl detach_delete g (omap (fun v => r !! v) vs), [r])
  | Delete v =>
      match r !! v with
      | Some x =>
          if existsb (touches x) (edges g)
          then Raise (ClientError "Cannot delete node, because it still has relationships")
          else Ok (detach_delete g x, [r])
      | None => Ok (g, [r])
      end
  end.

(** A clause on all rows in turn, each seeing the writes of the rows before. *)
Fixpoint for_rows (f : graph -> row -> result (graph * list row))
    (g : graph) (rs : list row) : result (graph * list row) :=
  match rs with
  | [] => Ok (g, [])
  | r :: rs' =>
      match f g r with
      | Raise e => Raise e
      | Ok (g1, out1) =>
          match for_rows f g1 rs' with
          | Raise e => Raise e
          | Ok (g2, out2) => Ok (g2, (out1 ++ out2)%list)
          end
      end
  end.

Fixpoint exec_clauses (q : query) (g : graph) (rs : list row) : result (graph * list row) :=
  match q with
  | [] => Ok (g, rs)
  | c :: q' =>
      match for_rows (exec_row c) g rs with
      | Raise e => Raise e
      | Ok (g', rs') => exec_clauses q' g' rs'
      end
  end.

(** [tx.run(cypher_query)] in a transaction of its own: on an error nothing
    of the query is kept. *)
Definition run_query (g : graph) (q : query) : result graph :=
  match exec_clauses q g [∅] with
  | Ok (g', _) => Ok g'
  | Raise e => Raise e
  end.

(** ** The query builders of [stock_knowledge_graph.py] *)

(** A quoted interpolation ['{v}'] and a bare one [{v}]. *)
Definition quoted (v : pyval) : lit := Quoted (py_str v).
Definition bare (v : pyval) : lit := Bare (py_str v).

(** [_create_cypher_query_competitor(src, dst)]. *)
Definition _create_cypher_query_competitor (src dst : dict) : result query :=
  src_code <-- getitem src "stock_code" ;;
  dst_code <-- getitem dst "stock_code" ;;
  Ok [ Match "Company" "Company" [("stock_code", quoted src_code)];
       Match "Competitor" "Company" [("stock_code", quoted dst_code)];
       MergeRel "Company" "COMPETES_WITH" "Competitor" ].

(** A list of names or codes becomes one string, [', '.join(li)]. *)
Definition join_if_list (v : pyval) : pyval :=
  match v with
  | PList l => PStr (str_join ", " l)
  | _ => v
  end.

(** [_create_cypher_query_company(company_dict)]; the keys are read in the
    order of the text. *)
Definition _create_cypher_query_company (company_dict : dict) : result query :=
  let compete_stock_nm_li := join_if_list (dict_get company_dict "compete_stock_nm_li" (PStr "")) in
  let compete_stock_code_li := join_if_list (dict_get company_dict "compete_stock_code_li" (PStr "")) in
  stock_code <-- getitem company_dict "stock_code" ;;
  stock_nm <-- getitem company_dict "stock_nm" ;;
  stock_abbrv <-- getitem company_dict "stock_abbrv" ;;
  stock_nm_eng <-- getitem company_dict "stock_nm_eng" ;;
  listing_dt <-- getitem company_dict "listing_dt" ;;
  outstanding_shares <-- getitem company_dict "outstanding_shares" ;;
  kospi200_item_yn <-- getitem company_dict "kospi200_item_yn" ;;
  stock_sector_nm <-- getitem company_dict "stock_sector_nm" ;;
  Ok [ Merge "Company" "Company"
         [ ("stock_code", quoted stock_code);
           ("stock_nm", Quoted (escape_string stock_nm));
           ("stock_abbrv", Quoted (escape_string stock_abbrv));
           ("stock_nm_eng", Quoted (escape_string stock_nm_eng));
           ("listing_dt", quoted listing_dt);
           ("outstanding_shares", bare outstanding_shares);
           ("kospi200_item_yn", quoted kospi200_item_yn);
           ("compete_stock_nm_li", Quoted (escape_string compete_stock_nm_li));
           ("compete_stock_code_li", Quoted (escape_string compete_stock_code_li)) ];
       Merge "Sector" "Sector" [("stock_sector_nm", Quoted (escape_string stock_sector_nm))];
       MergeRel "Company" "BELONGS_TO" "Sector" ].

Definition fs_fields : list string :=
  [ "revenue"; "operating_income"; "net_income"; "total_assets";
    "total_liabilities"; "total_equity"; "capital_stock" ].

(** [_create_cypher_query_daily_data(date, company_dict, stock_price_dict,
    fs_dict)]; the empty query stands for the empty text returned when the
    date does not parse. *)
Definition _create_cypher_query_daily_data
    (date : string) (company_dict stock_price_dict : dict) (fs_dict : option dict)
  : result query :=
  match _get_date_components date with
  | None => Ok []
  | Some (year, month, day, quarter) =>
      stck_hgpr <-- getitem stock_price_dict "stck_hgpr" ;;
      stck_lwpr <-- getitem stock_price_dict "stck_lwpr" ;;
      stck_oprc <-- getitem stock_price_dict "stck_oprc" ;;
      stck_clpr <-- getitem stock_price_dict "stck_clpr" ;;
      stock_code <-- getitem company_dict "stock_code" ;;
      let head :=
        [ Merge "Date" "Date"
            [ ("date", Quoted date); ("year", bare (PInt year));
              ("month", bare (PInt month)); ("day", bare (PInt day)) ];
          Merge "Quarter" "Quarter"
            [ ("year", bare (PInt year)); ("quarter", bare (PInt quarter)) ];
          Merge "Year" "Year" [ ("year", bare (PInt year)) ];
          Merge "StockPrice" "StockPrice"
            [ ("stck_hgpr", bare stck_hgpr); ("stck_lwpr", bare stck_lwpr);
              ("stck_oprc", bare stck_oprc); ("stck_clpr", bare stck_clpr) ];
          Merge "Indicator" "Indicator"
            [ ("pbr", bare (dict_get stock_price_dict "pbr" (PInt 0)));
              ("per", bare (dict_get stock_price_dict "per" (PInt 0)));
              ("eps", bare (dict_get stock_price_dict "eps" (PInt 0))) ];
          With ["Date"; "Quarter"; "Year"; "StockPrice"; "Indicator"];
          Match "Company" "Company" [ ("stock_code", quoted stock_code) ] ] in
      let fs_node :=
        match fs_dict with
        | Some fs =>
            [ Merge "FinancialStatements" "FinancialStatements"
                ((fun k => (k, bare (dict_get fs k (PInt 0)))) <$> fs_fields);
              With ["Date"; "Quarter"; "Year"; "StockPrice"; "Indicator";
                    "FinancialStatements"; "Company"] ]
        | None =>
            [ With ["Date"; "Quarter"; "Year"; "StockPrice"; "Indicator"; "Company"] ]
        end in
      let rels :=
        [ MergeRel "StockPrice" "RECORDED_ON" "Date";
          MergeRel "Indicator" "MEASURED_ON" "Date";
          MergeRel "Date" "IN_QUARTER" "Quarter";
          MergeRel "Quarter" "IN_YEAR" "Year";
          MergeRel "Date" "IN_YEAR" "Year";
          MergeRel "Company" "HAS_STOCK_PRICE" "StockPrice";
          MergeRel "Company" "HAS_INDICATOR" "Indicator" ] in
      let fs_rels :=
        match fs_dict with
        | Some _ =>
            [ MergeRel "FinancialStatements" "FOR_QUARTER" "Quarter";
              MergeRel "FinancialStatements" "FOR_YEAR" "Year";
              MergeRel "Company" "HAS_FINANCIAL_STATEMENTS" "FinancialStatements" ]
        | None => []
        end in
      Ok (head ++ fs_node ++ rels ++ fs_rels)%list
  end.

(** [StockKnowledgeGraph.create_schema]: the constraints are declared (no
    change to nodes or edges) and the query is run in its own transaction. *)
Definition create_schema (g : graph) (cypher_query : query) : result graph :=
  run_query g cypher_query.

(** ** [graph_builders.get_competitor_info] *)

Definition nonempty (s : string) : bool := negb (String.eqb s "").

(** The destination rows, one for each listed code that is not the source's
    and has a row; a failing lookup is skipped. *)
Definition competitor_rows (stock_code : pyval) (rs : list dict) (codes : list string)
  : list dict :=
  flat_map
    (fun compete_stock_code =>
       if py_eq stock_code (PStr compete_stock_code) then []
       else match select_eq rs "stock_code" (PStr compete_stock_code) with
            | dst :: _ => [dst]
            | [] => []
            end)
    codes.

Definition get_competitor_info (stock_code : pyval) (graph_df : DataFrame)
  : dict * list dict :=
  match select_eq (rows graph_df) "stock_code" stock_code with
  | [] => (∅, [])
  | src_company_dict :: _ =>
      match src_company_dict !! "compete_stock_code_li" with
      | None => (∅, [])
      | Some compete_stock_code_li =>
          if negb (truthy compete_stock_code_li) then (src_company_dict, [])
          else
            match compete_stock_code_li with
            | PStr s =>
                (src_company_dict,
                 competitor_rows stock_code (rows graph_df)
                   (List.filter nonempty (strip <$> split_comma s)))
            | PList l =>
                (src_company_dict, competitor_rows stock_code (rows graph_df) l)
            | _ => (src_company_dict, [])
            end
      end
  end.

(** ** [run_graphdb.py]: the one-time competitor step *)

(** The text of a property in a result record; a missing one is [None]. *)
Definition prop_text (n : node) (k : string) : string :=
  match nprops n !! k with
  | Some l => lit_text l
  | None => "None"
  end.

Definition nodes_with (g : graph) (x : nat) (label : string) : list node :=
  List.filter (fun n => (Nat.eqb (nid n) x && String.eqb (nlabel n) label)%bool) (nodes g).

Definition relationship_key (src_code dst_code : string) : string :=
  String.append src_code (String "-" dst_code).

(** [check_existing_competitor_relationships(graph)]: the set of keys
    ["src-dst"] of the [COMPETES_WITH] edges between companies. *)
Definition check_existing_competitor_relationships (g : graph) : gset string :=
  list_to_set
    (flat_map
       (fun e =>
          if String.eqb (etype e) "COMPETES_WITH" then
            flat_map
              (fun c1 =>
                 (fun c2 => relationship_key (prop_text c1 "stock_code") (prop_text c2 "stock_code"))
                   <$> nodes_with g (edst e) "Company")
              (nodes_with g (esrc e) "Company")
          else [])
       (edges g)).

(** The inner loop over the destinations of one company. An exception ends
    it; what was written before stays. *)
Fixpoint add_competitor_edges (existing_relationships : gset string)
    (stock_code : pyval) (src_company_dict : dict) (dsts : list dict) (g : graph) : graph :=
  match dsts with
  | [] => g
  | dst_company_dict :: dsts' =>
      match getitem dst_company_dict "stock_code" with
      | Raise _ => g
      | Ok dst_code =>
          let relationship_key := relationship_key (py_str stock_code) (py_str dst_code) in
          if bool_decide (relationship_key ∈ existing_relationships)
          then add_competitor_edges existing_relationships stock_code src_company_dict dsts' g
          else
            match (q <-- _create_cypher_query_competitor src_company_dict dst_company_dict ;;
                   create_schema g q) with
            | Ok g' =>
                add_competitor_edges existing_relationships stock_code src_company_dict dsts' g'
            | Raise _ => g
            end
      end
  end.

(** The body of the loop over the rows of [total_df]. *)
Definition competitor_step (existing_relationships : gset string) (total_df : DataFrame)
    (g : graph) (company : dict) : graph :=
  let compete_codes := dict_get company "compete_stock_code_li" (PStr "") in
  if negb (truthy compete_codes) then g
  else
    match getitem company "stock_code" with
    | Raise _ => g
    | Ok stock_code =>
        let '(src_company_dict, dst_company_dict_li) := get_competitor_info stock_code total_df in
        add_competitor_edges existing_relationships stock_code src_company_dict
          dst_company_dict_li g
    end.

(** [add_competitor_relationships(graph, total_df, competitor_df)]. *)
Definition add_competitor_relationships (g : graph) (total_df : DataFrame)
    (competitor_df : option DataFrame) : graph :=
  let existing_relationships := check_existing_competitor_relationships g in
  match competitor_df with
  | None => g
  | Some cdf =>
      if frame_empty cdf then g
      else if negb (bool_decide ("compete_stock_code_li" ∈ columns total_df)) then g
      else
        let total_df :=
          Frame (columns total_df) (fillna_empty "compete_stock_code_li" (rows total_df)) in
        foldl (competitor_step existing_relationships total_df) g (rows total_df)
  end.

(** ** [run_graphdb.py]: the write step of one date *)

(** The [graph] argument: a store of any kind with its [create_schema]. *)
Record store (G : Type) := Store { store_create_schema : G -> query -> result G }.
Arguments Store {G} _.
Arguments store_create_schema {G} _ _ _.

Definition neo4j : store graph := Store create_schema.

Definition first_row (rs : list dict) : option dict :=
  match rs with r :: _ => Some r | [] => None end.

(** The body of the loop of [add_daily_data_to_graph]: store and counters
    after one company. [company['stock_code']], [price_df['stock_code']] and
    [fs_df['stock_code']] are read outside the [try], the last one only for a
    company that has a price record; the handler reads
    [company['stock_abbrv']] for its log line. *)
Definition daily_step {G} (graph : store G) (price_df : DataFrame)
    (fs_df : option DataFrame) (date : string)
    (st : G * (nat * nat)) (company : dict) : result (G * (nat * nat)) :=
  let '(g, (success_count, error_count)) := st in
  stock_code <-- getitem company "stock_code" ;;
  price_data <-- frame_select price_df "stock_code" stock_code ;;
  match price_data with
  | [] => Ok (g, (success_count, S error_count))
  | price :: _ =>
      fs_data <-- match fs_df with
                  | Some df =>
                      fs_rows <-- frame_select df "stock_code" stock_code ;;
                      Ok (Some fs_rows)
                  | None => Ok None
                  end ;;
      match (cypher_query <-- _create_cypher_query_daily_data date company price
                                (fs_data ≫= first_row) ;;
             store_create_schema graph g cypher_query) with
      | Ok g' => Ok (g', (S success_count, error_count))
      | Raise _ =>
          _ <-- getitem company "stock_abbrv" ;;
          Ok (g, (success_count, S error_count))
      end
  end.

Fixpoint daily_loop {G} (graph : store G) (price_df : DataFrame)
    (fs_df : option DataFrame) (date : string)
    (st : G * (nat * nat)) (companies : list dict) : G * result (nat * nat) :=
  match companies with
  | [] => (st.1, Ok st.2)
  | company :: companies' =>
      match daily_step graph price_df fs_df date st company with
      | Ok st' => daily_loop graph price_df fs_df date st' companies'
      | Raise e => (st.1, Raise e)
      end
  end.

(** [add_daily_data_to_graph(graph, company_df, price_df, fs_df, date,
    existing_companies)]: the store afterwards and the pair
    [(success_count, error_count)] that is returned. *)
Definition add_daily_data_to_graph {G} (graph : store G) (g : G)
    (company_df price_df : DataFrame) (fs_df : option DataFrame) (date : string)
  : G * result (nat * nat) :=
  daily_loop graph price_df fs_df date (g, (O, O)) (rows company_df).

(** ** [run_graphdb.py]: one date, and the recovery *)

(** The two globals that the recovery reads. *)
Record run_state := RunState {
  current_date : option string;
  processed_dates : list string
}.

(** [process_single_date(date, stock_processor, graph, existing_companies)].
    [collect_prices] and [collect_statements] stand for the two collecting
    steps of the date's [StockDataProcessor]; each returns its frame ([None]
    when it gave up early) or raises. The result is the store, what the call
    returns or raises, and the globals afterwards. *)
Definition process_single_date {G} (graph : store G)
    (collect_prices collect_statements : string -> result (option DataFrame))
    (company_df : DataFrame) (date : string) (g : G) (st : run_state)
  : G * result (nat * nat) * run_state :=
  (* current_date = date *)
  let st := RunState (Some date) (processed_dates st) in
  (* the steps inside [try]; the counters are those seen by [finally] *)
  let '(g', outcome, (success_count, error_count)) :=
    match collect_prices date with
    | Raise e => (g, Raise e, (O, O))
    | Ok price_df =>
        match collect_statements date with
        | Raise e => (g, Raise e, (O, O))
        | Ok fs_df =>
            match price_df with
            | Some prices =>
                if frame_empty prices then (g, Ok (O, O), (O, O))
                else
                  match add_daily_data_to_graph graph g company_df prices fs_df date with
                  | (g', Ok counts) => (g', Ok counts, counts)
                  | (g', Raise e) => (g', Raise e, (O, O))
                  end
            | None => (g, Ok (O, O), (O, O))
            end
        end
    end in
  (* finally: *)
  let st :=
    if ((0 <? success_count)%nat || (error_count =? 0)%nat)%bool
    then RunState None (processed_dates st ++ [date])
    else st in
  (g', outcome, st).

(** The text of the clean-up query of a date. *)
Definition cleanup_query (date : string) : query :=
  [ Match "d" "Date" [("date", Quoted date)];
    OptionalMatchOut "d" "RECORDED_ON" "sp" "StockPrice";
    OptionalMatchOut "sp" "HAS_STOCK_PRICE" "i" "Indicator";
    OptionalMatchOut "i" "HAS_INDICATOR" "fs" "FinancialStatements";
    DetachDelete ["sp"; "i"; "fs"];
    Delete "d" ].

(** [cleanup_single_date_data(graph, date)]; an error is printed, not raised. *)
Definition cleanup_single_date_data (g : graph) (date : string) : graph :=
  match run_query g (cleanup_query date) with
  | Ok g' => g'
  | Raise _ => g
  end.

(** [cleanup_processed_data(graph, dates)]; the [try] is around the loop, so
    the first error ends it. *)
Fixpoint cleanup_processed_data (g : graph) (dates : list string) : graph :=
  match dates with
  | [] => g
  | date :: dates' =>
      match run_query g (cleanup_query date) with
      | Ok g' => cleanup_processed_data g' dates'
      | Raise _ => g
      end
  end.

(** What [cleanup_and_exit] does to the graph before the process exits. *)
Definition cleanup_and_exit (g : graph) (st : run_state) : graph :=
  let g :=
    match processed_dates st with
    | [] => g
    | dates => cleanup_processed_data g dates
    end in
  match current_date st with
  | Some date => if nonempty date then cleanup_single_date_data g date else g
  | None => g
  end.

(** ** [OpenDartCollector.get_financial_statements] *)

Definition _get_quarter_list (date : string) : result (list (Z * string * string)) :=
  match py_int (substring 0 4 date), py_int (substring 4 2 date) with
  | Some year, Some month =>
      Ok (if bool_decide (month ∈ [1; 2; 3]) then
            [(year - 1, "11011", "4")]
          else if bool_decide (month ∈ [4; 5; 6]) then
            [(year, "11013", "1"); (year - 1, "11011", "4")]
          else if bool_decide (month ∈ [7; 8; 9]) then
            [(year, "11012", "2"); (year, "11013", "1"); (year - 1, "11011", "4")]
          else
            [(year, "11014", "3"); (year, "11012", "2"); (year, "11013", "1");
             (year - 1, "11011", "4")])
  | _, _ => Raise ValueError
  end.

Fixpoint remove_commas (s : string) : string :=
  match s with
  | EmptyString => EmptyString
  | String c s' => if Ascii.eqb c "," then remove_commas s' else String c (remove_commas s')
  end.

Definition consolidated : string := "연결재무제표".
Definition separate : string := "재무제표".

(** The amount of one account: the consolidated statement first, then the
    separate one; anything that fails gives 0. *)
Definition account_amount (dart_df : list dict) (col_nm : string) : Z :=
  let pick fs_nm :=
    List.filter
      (fun r => (match r !! "account_nm" with Some a => py_eq a (PStr col_nm) | None => false end
                 && match r !! "fs_nm" with Some f => py_eq f (PStr fs_nm) | None => false end)%bool)
      dart_df in
  let value := match pick consolidated with [] => pick separate | v => v end in
  match value with
  | [] => 0
  | r :: _ =>
      match r !! "thstrm_amount" with
      | Some (PStr s) => default 0 (py_int (remove_commas s))
      | _ => 0
      end
  end.

Definition col_nm_li : list string :=
  ["매출액"; "영업이익"; "당기순이익"; "자산총계"; "부채총계"; "자본총계"; "자본금"].

Definition fs_record (stock_code : pyval) (bsns_year : Z) (quarter_nm : string)
    (fs_info : list Z) : dict :=
  <["stock_code" := stock_code]>
    (<["year" := PInt bsns_year]>
       (<["quarter" := PStr quarter_nm]>
          (list_to_map (zip fs_fields (PInt <$> fs_info))))).

(** The loop over the candidate quarters: the record of the first one for
    which [finstate] has data. *)
Fixpoint first_statement (finstate : pyval -> string -> string -> result (option (list dict)))
    (stock_code : pyval) (quarters : list (Z * string * string)) : option dict :=
  match quarters with
  | [] => None
  | (bsns_year, reprt_code, quarter_nm) :: quarters' =>
      match finstate stock_code (pretty bsns_year) reprt_code with
      | Ok (Some (r :: dart_df)) =>
          Some (fs_record stock_code bsns_year quarter_nm
                  (account_amount (r :: dart_df) <$> col_nm_li))
      | _ => first_statement finstate stock_code quarters'
      end
  end.

(** [get_financial_statements(stock_code, date)]; when no candidate has data
    the record is all zero and carries the year and quarter of the last
    candidate tried. *)
Definition get_financial_statements
    (finstate : pyval -> string -> string -> result (option (list dict)))
    (stock_code : pyval) (date : string) : result dict :=
  quarters <-- _get_quarter_list date ;;
  match first_statement finstate stock_code quarters with
  | Some fs => Ok fs
  | None =>
      match last quarters with
      | Some (bsns_year, _, quarter_nm) =>
          Ok (fs_record stock_code bsns_year quarter_nm ((fun _ => 0) <$> fs_fields))
      | None => Raise (ClientError "UnboundLocalError")
      end
  end.

(** ** Administration of the database *)

(** The store with its schema: the rows of [SHOW CONSTRAINTS] and of
    [SHOW INDEXES]. *)
Record database := Database {
  db_graph : graph;
  db_constraints : list dict;
  db_indexes : list dict
}.

Definition named (name : string) (r : dict) : bool :=
  match r !! "name" with
  | Some v => String.eqb (py_str v) name
  | None => false
  end.

(** [DROP CONSTRAINT name] and [DROP INDEX name]; an error when there is
    none of that name. *)
Definition drop_named (name : string) (rs : list dict) : result (list dict) :=
  if existsb (named name) rs then Ok (List.filter (fun r => negb (named name r)) rs)
  else Raise (ClientError "no such constraint or index").

(** [MATCH (n) DETACH DELETE n]. *)
Definition _clear_all_data (g : graph) : graph := Graph [] [].

Definition clear_all_data (db : database) : database :=
  Database (_clear_all_data (db_graph db)) (db_constraints db) (db_indexes db).

(** [_clear_constraints]: every listed constraint with a name is dropped; a
    failed drop is logged and the loop goes on. *)
Definition _clear_constraints (constraints : list dict) : list dict :=
  foldl
    (fun cs constraint =>
       let constraint_name := dict_get constraint "name" PNone in
       if truthy constraint_name then
         match drop_named (py_str constraint_name) cs with
         | Ok cs' => cs'
         | Raise _ => cs
         end
       else cs)
    constraints constraints.

Definition clear_constraints (db : database) : database :=
  Database (db_graph db) (_clear_constraints (db_constraints db)) (db_indexes db).

(** [_clear_indexes]: as above, but an index whose name starts with
    [system] is left; [startswith] on a name that is no string raises. *)
Fixpoint clear_index_loop (todo : list dict) (indexes : list dict) : result (list dict) :=
  match todo with
  | [] => Ok indexes
  | index :: todo' =>
      let index_name := dict_get index "name" PNone in
      if truthy index_name then
        match index_name with
        | PStr s =>
            if negb (String.prefix "system" s) then
              match drop_named s indexes with
              | Ok indexes' => clear_index_loop todo' indexes'
              | Raise _ => clear_index_loop todo' indexes
              end
            else clear_index_loop todo' indexes
        | _ => Raise AttributeError
        end
      else clear_index_loop todo' indexes
  end.

Definition _clear_indexes (indexes : list dict) : result (list dict) :=
  clear_index_loop indexes indexes.

Definition clear_indexes (db : database) : result database :=
  indexes <-- _clear_indexes (db_indexes db) ;;
  Ok (Database (db_graph db) (db_constraints db) indexes).

(** [reset_database]: data, then constraints, then indexes. *)
Definition reset_database (db : database) : result database :=
  clear_indexes (clear_constraints (clear_all_data db)).

(** ** [run_graphdb.add_companies_to_graph] *)

(** Each company is written on its own; a failure is logged with the short
    name of the company and the loop goes on. *)
Fixpoint add_companies_to_graph (g : graph) (companies : list dict) : result graph :=
  match companies with
  | [] => Ok g
  | company :: companies' =>
      match (cypher_query <-- _create_cypher_query_company company ;;
             create_schema g cypher_query) with
      | Ok g' => add_companies_to_graph g' companies'
      | Raise _ =>
          _ <-- getitem company "stock_abbrv" ;;
          add_companies_to_graph g companies'
      end
  end.

(** ** A small universe

    Two companies, the first listing itself and the second as competitors;
    prices for three dates, no financial statement. *)

Definition example_company (code name : string) (competitors : list string) : dict :=
  list_to_map
    [ ("stock_code", PStr code); ("stock_nm", PStr name); ("stock_abbrv", PStr name);
      ("stock_nm_eng", PStr name); ("listing_dt", PStr "2000-01-04");
      ("market_nm", PStr "KOSPI"); ("outstanding_shares", PInt 1000);
      ("kospi200_item_yn", PStr "Y"); ("stock_sector_nm", PStr "IT");
      ("compete_stock_code_li", PList competitors); ("compete_stock_nm_li", PList []) ].

Definition example_columns : list string :=
  [ "stock_code"; "stock_nm"; "stock_abbrv"; "stock_nm_eng"; "listing_dt"; "market_nm";
    "outstanding_shares"; "kospi200_item_yn"; "stock_sector_nm";
    "compete_stock_code_li"; "compete_stock_nm_li" ].

Definition example_universe : DataFrame :=
  Frame example_columns
    [ example_company "000001" "Alpha" ["000001"; "000002"];
      example_company "000002" "Beta" [] ].

Definition example_price (code date : string) (close : Z) : dict :=
  list_to_map
    [ ("stock_code", PStr code); ("date", PStr date);
      ("stck_hgpr", PInt (close + 2)); ("stck_lwpr", PInt (close - 2));
      ("stck_oprc", PInt (close - 1)); ("stck_clpr", PInt close);
      ("eps", PInt 5); ("pbr", PInt 1); ("per", PInt 9) ].

Definition example_prices (date : string) (close : Z) : DataFrame :=
  Frame ["stock_code"; "date"; "stck_hgpr"; "stck_lwpr"; "stck_oprc"; "stck_clpr";
         "eps"; "pbr"; "per"]
    [ example_price "000001" date close; example_price "000002" date (close + 100) ].

(** The graph after the companies are written to the empty store, and after
    the whole one-time step. *)
Definition example_companies : graph :=
  match add_companies_to_graph (Graph [] []) (rows example_universe) with
  | Ok g => g
  | Raise _ => Graph [] []
  end.

Definition example_graph : graph :=
  add_competitor_relationships example_companies example_universe (Some example_universe).

(** The statements of the first company for a date, when the filings have
    nothing for any quarter. *)
Definition example_statements (date : string) : option DataFrame :=
  match get_financial_statements (fun _ _ _ => Ok None) (PStr "000001") date with
  | Ok fs => Some (Frame ("stock_code" :: "year" :: "quarter" :: fs_fields) [fs])
  | Raise _ => None
  end.

(** The graph after the write step of a date. *)
Definition example_write (g : graph) (date : string) (close : Z) : graph :=
  (add_daily_data_to_graph neo4j g example_universe (example_prices date close)
     (example_statements date) date).1.

(** Three dates written one after the other. *)
Definition example_written : graph :=
  example_write (example_write (example_write example_graph "20240102" 100) "20240103" 110)
    "20240104" 120.

(** ** Stock codes with a hyphen

    Four companies with the codes [a], [b-c], [a-b] and [c]. At first [a-b]
    alone lists a competitor, [c]; later [a] lists [b-c] as well. *)

Definition hyphen_universe (listed : list string) : DataFrame :=
  Frame example_columns
    [ example_company "a" "Alpha" listed; example_company "b-c" "Beta" [];
      example_company "a-b" "Gamma" ["c"]; example_company "c" "Delta" [] ].

(** The graph after the one-time step on the first frame. *)
Definition hyphen_graph : graph :=
  match add_companies_to_graph (Graph [] []) (rows (hyphen_universe [])) with
  | Ok g => add_competitor_relationships g (hyphen_universe []) (Some (hyphen_universe []))
  | Raise _ => Graph [] []
  end.

(** ** Vocabulary of the statements *)

(** Following the words of the specification for the write step of a date: a
    company counts as a success when it has a price record for the date and
    its write goes through, and as a failure otherwise. [company_write] is the
    store after a successful write. *)
Definition company_write {G} (graph : store G) (price_df : DataFrame)
    (fs_df : option DataFrame) (date : string) (g : G) (company : dict) : option G :=
  match company !! "stock_code" with
  | None => None
  | Some stock_code =>
      match select_eq (rows price_df) "stock_code" stock_code with
      | [] => None
      | price :: _ =>
          match _create_cypher_query_daily_data date company price
                  (((fun df => select_eq (rows df) "stock_code" stock_code) <$> fs_df)
                     ≫= first_row) with
          | Raise _ => None
          | Ok q =>
              match store_create_schema graph g q with
              | Ok g' => Some g'
              | Raise _ => None
              end
          end
      end
  end.

(** The outcome of every company of the universe, in order: [true] for a
    success, [false] for a failure, each write seeing the store that the
    successful writes before it left. *)
Fixpoint company_outcomes {G} (graph : store G) (price_df : DataFrame)
    (fs_df : option DataFrame) (date : string) (g : G) (companies : list dict)
  : list bool :=
  match companies with
  | [] => []
  | company :: companies' =>
      match company_write graph price_df fs_df date g company with
      | Some g' => true :: company_outcomes graph price_df fs_df date g' companies'
      | None => false :: company_outcomes graph price_df fs_df date g companies'
      end
  end.

Definition count_true (l : list bool) : nat := length (List.filter id l).
Definition count_false (l : list bool) : nat := length (List.filter negb l).

(** The rows that a typed company record gives: the stock code and the short
    name are there. *)
Definition company_row (company : dict) : Prop :=
  is_Some (company !! "stock_code") /\ is_Some (company !! "stock_abbrv").

(** How many times an edge occurs in the graph. *)
Definition count_edge (e : edge) (g : graph) : nat :=
  length (List.filter (fun e' => bool_decide (e' = e)) (edges g)).

Fixpoint hyphen_free (s : string) : bool :=
  match s with
  | EmptyString => true
  | String c s' => (negb (Ascii.eqb c "-") && hyphen_free s')%bool
  end.

(** What the uniqueness constraint and the company builder give: node
    identifiers are distinct, and a company carries its stock code as a
    quoted literal. *)
Definition graph_wf (g : graph) : Prop :=
  NoDup (nid <$> nodes g)
  /\ forall n, n ∈ nodes g -> nlabel n = "Company" ->
       exists code, nprops n !! "stock_code" = Some (Quoted code).

(** The codes that a cell of [compete_stock_code_li] lists. *)
Definition listed_codes (v : pyval) : list string :=
  match v with
  | PStr s => List.filter nonempty (strip <$> split_comma s)
  | PList l => l
  | _ => []
  end.

(** A row of [SHOW CONSTRAINTS] or [SHOW INDEXES] as the store gives it: it
    has a name, a string that is not empty. *)
Definition has_name (r : dict) : Prop :=
  exists s, r !! "name" = Some (PStr s) /\ s <> "".

(** The name marks a system index. *)
Definition is_system (r : dict) : bool :=
  match r !! "name" with
  | Some (PStr s) => String.prefix "system" s
  | _ => false
  end.

(** The text that the competitor builder gives for two codes. *)
Definition competitor_query (a b : string) : query :=
  [ Match "Company" "Company" [("stock_code", Quoted a)];
    Match "Competitor" "Company" [("stock_code", Quoted b)];
    MergeRel "Company" "COMPETES_WITH" "Competitor" ].

(** The companies of a stock code. *)
Definition company_ids (g : graph) (code : string) : list nat :=
  match_nodes "Company" [("stock_code", Quoted code)] g.

(** The edges that [MERGE (src)-[:ty]->(dst)] adds over a list of rows. *)
Definition merge_rows (src ty dst : string) (g : graph) (rs : list row) : graph :=
  foldl (fun g r =>
           match r !! src, r !! dst with
           | Some x, Some y => merge_rel g x ty y
           | _, _ => g
           end) g rs.

(** The last day of [datetime]. *)
Definition max_date : date := Date 9999 12 31.

(** The graph [g'] has every node and every edge of [g]. *)
Definition extends (g g' : graph) : Prop :=
  (forall n, n ∈ nodes g -> n ∈ nodes g') /\ (forall e, e ∈ edges g -> e ∈ edges g').

(** In the row [r] the variable [v] stands for a node of [g] that fits the
    pattern [(:label {ps})]. *)
Definition bound_to (g : graph) (r : row) (v label : string) (ps : props) : Prop :=
  exists n, n ∈ nodes g /\ r !! v = Some (nid n) /\ matches label ps n = true.

(** What a clause has made true of a row once it has run. *)
Definition holds (g : graph) (r : row) (c : clause) : Prop :=
  match c with
  | Merge v label ps | Match v label ps => bound_to g r v label ps
  | MergeRel src ty dst =>
      exists x y, r !! src = Some x /\ r !! dst = Some y /\ Edge x ty y ∈ edges g
  | _ => True
  end.

Definition binder (c : clause) : list string :=
  match c with
  | Merge v _ _ | Match v _ _ => [v]
  | _ => []
  end.

Definition uses (c : clause) : list string :=
  match c with
  | Merge v _ _ | Match v _ _ => [v]
  | MergeRel src _ dst => [src; dst]
  | _ => []
  end.

(** A clause is well scoped after the variables [bound]: a pattern binds a
    new variable (and a merged pattern names each property once), a merged
    relationship joins bound variables, [WITH] keeps every bound variable.
    The clauses that delete are not of this kind. *)
Definition ok_clause (bound : list string) (c : clause) : bool :=
  match c with
  | Merge v _ ps => (negb (bool_decide (v ∈ bound)) && bool_decide (NoDup ps.*1))%bool
  | Match v _ _ => negb (bool_decide (v ∈ bound))
  | MergeRel src _ dst => (bool_decide (src ∈ bound) && bool_decide (dst ∈ bound))%bool
  | With vs => forallb (fun w => bool_decide (w ∈ vs)) bound
  | _ => false
  end.

Fixpoint ok_query (bound : list string) (q : query) : bool :=
  match q with
  | [] => true
  | c :: q' => (ok_clause bound c && ok_query (binder c ++ bound) q')%bool
  end.

(** A [MATCH] finds a node. *)
Definition candidates (g : graph) (c : clause) : Prop :=
  match c with
  | Match _ label ps => match_nodes label ps g <> []
  | _ => True
  end.

(** The rows that a run has reached: every variable in scope is bound and
    every clause already run holds. *)
Definition reached (bound : list string) (done : list clause) (g : graph) (rs : list row)
  : Prop :=
  forall r, r ∈ rs ->
    (forall w, w ∈ bound -> is_Some (r !! w)) /\ Forall (holds g r) done.

(** The filings answer a request with nothing to read: an error, no frame,
    or a frame without rows. *)
Definition no_data (answer : result (option (list dict))) : Prop :=
  match answer with
  | Ok (Some (_ :: _)) => False
  | _ => True
  end.

(** No candidate quarter of [date] has a statement of [stock_code]. *)
Definition no_statements
    (finstate : pyval -> string -> string -> result (option (list dict)))
    (stock_code : pyval) (date : string) : Prop :=
  forall quarters bsns_year reprt_code quarter_nm,
    _get_quarter_list date = Ok quarters ->
    (bsns_year, reprt_code, quarter_nm) ∈ quarters ->
    no_data (finstate stock_code (pretty bsns_year) reprt_code).

(** The date [y]-[m]-[d] as the eight digits that the pipeline passes on. *)
Definition compact (y m d : Z) : string :=
  String.append (fmt4 y) (String.append (fmt2 m) (fmt2 d)).

(** The clauses that the write queries are made of; a merged pattern names
    each property once. *)
Definition writes (c : clause) : bool :=
  match c with
  | Merge _ _ ps => bool_decide (NoDup ps.*1)
  | Match _ _ _ | MergeRel _ _ _ | With _ => true
  | _ => false
  end.

(** The labels of the nodes that a query may create. *)
Definition merged_labels (q : query) : list string :=
  flat_map (fun c => match c with Merge _ label _ => [label] | _ => [] end) q.

(** A write query in which no pattern has the label of a node merged later
    in the same query. *)
Fixpoint separate_labels (q : query) : bool :=
  match q with
  | [] => true
  | c :: q' =>
      (writes c
       && match c with
          | Merge _ label _ | Match _ label _ => negb (bool_decide (label ∈ merged_labels q'))
          | _ => true
          end
       && separate_labels q')%bool
  end.

(** [g'] is [g] with new nodes of the given labels at the end and with more
    edges. *)
Definition grown (labels : list string) (g g' : graph) : Prop :=
  (exists news, nodes g' = (nodes g ++ news)%list /\ Forall (fun n => nlabel n ∈ labels) news)
  /\ forall e, e ∈ edges g -> e ∈ edges g'.

(** [_create_cypher_query_stock(date, company_dict, stock_price_dict)], the
    builder of [graph_builders.create_graph_db]. *)
Definition _create_cypher_query_stock
    (date : string) (company_dict stock_price_dict : dict) : result query :=
  match _get_date_components date with
  | None => Ok []
  | Some (year, month, day, quarter) =>
      stck_hgpr <-- getitem stock_price_dict "stck_hgpr" ;;
      stck_lwpr <-- getitem stock_price_dict "stck_lwpr" ;;
      stck_oprc <-- getitem stock_price_dict "stck_oprc" ;;
      stck_clpr <-- getitem stock_price_dict "stck_clpr" ;;
      stock_code <-- getitem company_dict "stock_code" ;;
      Ok [ Merge "Date" "Date"
             [ ("date", Quoted date); ("year", bare (PInt year));
               ("month", bare (PInt month)); ("day", bare (PInt day)) ];
           Merge "Quarter" "Quarter"
             [ ("year", bare (PInt year)); ("quarter", bare (PInt quarter)) ];
           Merge "Year" "Year" [ ("year", bare (PInt year)) ];
           Merge "StockPrice" "StockPrice"
             [ ("stck_hgpr", bare stck_hgpr); ("stck_lwpr", bare stck_lwpr);
               ("stck_oprc", bare stck_oprc); ("stck_clpr", bare stck_clpr) ];
           Merge "Indicator" "Indicator"
             [ ("pbr", bare (dict_get stock_price_dict "pbr" (PInt 0)));
               ("per", bare (dict_get stock_price_dict "per" (PInt 0)));
               ("eps", bare (dict_get stock_price_dict "eps" (PInt 0))) ];
           With ["Date"; "Quarter"; "Year"; "StockPrice"; "Indicator"];
           Match "Company" "Company" [ ("stock_code", quoted stock_code) ];
           MergeRel "StockPrice" "RECORDED_ON" "Date";
           MergeRel "Indicator" "MEASURED_ON" "Date";
           MergeRel "Date" "IN_QUARTER" "Quarter";
           MergeRel "Quarter" "IN_YEAR" "Year";
           MergeRel "Date" "IN_YEAR" "Year";
           MergeRel "Company" "HAS_STOCK_PRICE" "StockPrice";
           MergeRel "Company" "HAS_INDICATOR" "Indicator" ]
  end.

(** A query that one of the four builders returns. *)
Definition built (q : query) : Prop :=
  (exists company_dict, _create_cypher_query_company company_dict = Ok q)
  \/ (exists src dst, _create_cypher_query_competitor src dst = Ok q)
  \/ (exists date company_dict stock_price_dict,
        _create_cypher_query_stock date company_dict stock_price_dict = Ok q)
  \/ (exists date company_dict stock_price_dict fs_dict,
        _create_cypher_query_daily_data date company_dict stock_price_dict fs_dict = Ok q).

(** [g'] has the nodes of [g] as its first nodes, in the same order, and
    every edge of [g]. *)
Definition keeps (g g' : graph) : Prop :=
  (exists news, nodes g' = (nodes g ++ news)%list) /\ forall e, e ∈ edges g -> e ∈ edges g'.

(** The labels of the nodes that belong to one date. *)
Definition date_labels : list string :=
  ["Date"; "StockPrice"; "Indicator"; "FinancialStatements"].

(** [g'] is [g] without some of its nodes and some of its edges. *)
Definition pruned (g g' : graph) : Prop :=
  nodes g' `sublist_of` nodes g /\ forall e, e ∈ edges g' -> e ∈ edges g.

(** * Properties *)

(** ** Digits *)

Lemma digit_char_cases k :
  0 <= k <= 9 ->
  k = 0 \/ k = 1 \/ k = 2 \/ k = 3 \/ k = 4 \/ k = 5 \/ k = 6 \/ k = 7 \/ k = 8 \/ k = 9.
Proof. lia. Qed.

Ltac digit_split k H :=
  destruct (digit_char_cases k H) as [->|[->|[->|[->|[->|[->|[->|[->|[->| ->]]]]]]]]].

Lemma is_digit_digit_char k : 0 <= k <= 9 -> is_digit (digit_char k) = true.
Proof. intros H. digit_split k H; reflexivity. Qed.

Lemma digit_val_digit_char k : 0 <= k <= 9 -> digit_val (digit_char k) = k.
Proof. intros H. digit_split k H; reflexivity. Qed.

Lemma is_digit_not_space c : is_digit c = true -> is_space c = false.
Proof.
  destruct c as [[] [] [] [] [] [] [] []]; vm_compute; congruence.
Qed.

Lemma is_digit_not_sign c :
  is_digit c = true -> Ascii.eqb c "+" = false /\ Ascii.eqb c "-" = false.
Proof.
  destruct c as [[] [] [] [] [] [] [] []]; vm_compute; intuition congruence.
Qed.

Lemma py_int_4 a b c d :
  is_digit a = true -> is_digit b = true -> is_digit c = true -> is_digit d = true ->
  py_int (String a (String b (String c (String d EmptyString))))
  = Some (1000 * digit_val a + 100 * digit_val b + 10 * digit_val c + digit_val d).
Proof.
  intros Ha Hb Hc Hd. unfold py_int, strip. simpl.
  rewrite (is_digit_not_space a Ha). simpl.
  rewrite (is_digit_not_space d Hd). simpl.
  destruct (is_digit_not_sign a Ha) as [-> ->].
  simpl. rewrite Ha, Hb, Hc, Hd. apply (f_equal Some). lia.
Qed.

Lemma py_int_2 a b :
  is_digit a = true -> is_digit b = true ->
  py_int (String a (String b EmptyString)) = Some (10 * digit_val a + digit_val b).
Proof.
  intros Ha Hb. unfold py_int, strip. simpl.
  rewrite (is_digit_not_space a Ha). simpl.
  rewrite (is_digit_not_space b Hb). simpl.
  destruct (is_digit_not_sign a Ha) as [-> ->].
  simpl. rewrite Ha, Hb. apply (f_equal Some). lia.
Qed.

Lemma digits4 y :
  0 <= y <= 9999 ->
  0 <= y / 1000 mod 10 <= 9 /\ 0 <= y / 100 mod 10 <= 9 /\
  0 <= y / 10 mod 10 <= 9 /\ 0 <= y mod 10 <= 9 /\
  1000 * (y / 1000 mod 10) + 100 * (y / 100 mod 10) + 10 * (y / 10 mod 10) + y mod 10 = y.
Proof. intros H. Z.div_mod_to_equations. lia. Qed.

Lemma digits2 m :
  0 <= m <= 99 ->
  0 <= m / 10 mod 10 <= 9 /\ 0 <= m mod 10 <= 9 /\ 10 * (m / 10 mod 10) + m mod 10 = m.
Proof. intros H. Z.div_mod_to_equations. lia. Qed.

Lemma py_int_fmt4 y : 0 <= y <= 9999 -> py_int (fmt4 y) = Some y.
Proof.
  intros H. destruct (digits4 y H) as (Ha & Hb & Hc & Hd & Hy).
  unfold fmt4. rewrite py_int_4 by (apply is_digit_digit_char; assumption).
  rewrite !digit_val_digit_char by assumption. f_equal. exact Hy.
Qed.

Lemma py_int_fmt2 m : 0 <= m <= 99 -> py_int (fmt2 m) = Some m.
Proof.
  intros H. destruct (digits2 m H) as (Ha & Hb & Hm).
  unfold fmt2. rewrite py_int_2 by (apply is_digit_digit_char; assumption).
  rewrite !digit_val_digit_char by assumption. f_equal. exact Hm.
Qed.

(** ** [strptime] on the output of [strftime] *)

Lemma append_cons c s r : String.append (String c s) r = String c (String.append s r).
Proof. reflexivity. Qed.

Lemma append_nil r : String.append EmptyString r = r.
Proof. reflexivity. Qed.

Lemma match_year_chars a b c d r :
  is_digit a = true -> is_digit b = true -> is_digit c = true -> is_digit d = true ->
  match_year (String a (String b (String c (String d r))))
  = [(1000 * digit_val a + 100 * digit_val b + 10 * digit_val c + digit_val d, r)].
Proof. intros Ha Hb Hc Hd. unfold match_year. rewrite Ha, Hb, Hc, Hd. reflexivity. Qed.

Lemma match_year_fmt4 y r :
  0 <= y <= 9999 -> match_year (String.append (fmt4 y) r) = [(y, r)].
Proof.
  intros H. destruct (digits4 y H) as (Ha & Hb & Hc & Hd & Hy).
  unfold fmt4. rewrite !append_cons, append_nil.
  rewrite match_year_chars by (apply is_digit_digit_char; assumption).
  rewrite !digit_val_digit_char by assumption. rewrite Hy. reflexivity.
Qed.

Lemma month_cases m :
  1 <= m <= 12 ->
  m = 1 \/ m = 2 \/ m = 3 \/ m = 4 \/ m = 5 \/ m = 6 \/
  m = 7 \/ m = 8 \/ m = 9 \/ m = 10 \/ m = 11 \/ m = 12.
Proof. lia. Qed.

Lemma match_month_fmt2 m r :
  1 <= m <= 12 -> exists tl, match_month (String.append (fmt2 m) r) = (m, r) :: tl.
Proof.
  intros H.
  destruct (month_cases m H) as [->|[->|[->|[->|[->|[->|[->|[->|[->|[->|[->| ->]]]]]]]]]]];
    eexists; reflexivity.
Qed.

Lemma match_day_fmt2 d r :
  1 <= d <= 31 -> exists tl, match_day (String.append (fmt2 d) r) = (d, r) :: tl.
Proof.
  intros H.
  assert (Hd : exists q k, d = 10 * q + k /\ 0 <= q <= 3 /\ 0 <= k <= 9)
    by (exists (d / 10), (d mod 10); Z.div_mod_to_equations; lia).
  destruct Hd as (q & k & -> & Hq & Hk).
  assert (Hq' : q = 0 \/ q = 1 \/ q = 2 \/ q = 3) by lia.
  digit_split k Hk; destruct Hq' as [->|[->|[->| ->]]];
    try lia; eexists; reflexivity.
Qed.

Lemma valid_date_bounds dt :
  valid_date dt = true ->
  1 <= year dt <= 9999 /\ 1 <= month dt <= 12 /\
  1 <= day dt <= days_in_month (year dt) (month dt) /\ day dt <= 31.
Proof.
  unfold valid_date, valid_ymd, MAXYEAR. intros H.
  repeat (apply andb_prop in H; destruct H as [H ?]).
  assert (Hm : 1 <= month dt <= 12) by lia.
  assert (days_in_month (year dt) (month dt) <= 31).
  { unfold days_in_month.
    destruct (month_cases _ Hm) as [->|[->|[->|[->|[->|[->|[->|[->|[->|[->|[->| ->]]]]]]]]]]];
      try lia; destruct (is_leap (year dt)); lia. }
  lia.
Qed.

Lemma fmt2_append_nil d : fmt2 d = String.append (fmt2 d) EmptyString.
Proof. reflexivity. Qed.

Lemma strptime_strftime_iso dt :
  valid_date dt = true -> strptime (strftime_iso dt) fmt_iso = Ok dt.
Proof.
  intros Hv. destruct (valid_date_bounds dt Hv) as (Hy & Hm & Hd & Hd').
  unfold strptime, strftime_iso, fmt_iso. cbn [match_format].
  rewrite match_year_fmt4 by lia. cbn [mbind list_bind app].
  destruct (match_month_fmt2 (month dt) (String "-" (fmt2 (day dt)))) as [tl1 ->]; [lia|].
  cbn [mbind list_bind app Ascii.eqb Bool.eqb year month day].
  rewrite (fmt2_append_nil (day dt)).
  destruct (match_day_fmt2 (day dt) EmptyString) as [tl2 ->]; [lia|].
  cbn [mbind list_bind app year month day].
  destruct dt as [y m d]. cbn [year month day] in *. rewrite Hv. reflexivity.
Qed.

Lemma year_text_padded y : 1000 <= y -> year_text y = fmt4 y.
Proof.
  intros H. unfold year_text.
  destruct (Z.ltb_spec y 10); [lia|]. destruct (Z.ltb_spec y 100); [lia|].
  destruct (Z.ltb_spec y 1000); [lia|]. reflexivity.
Qed.

Lemma strftime_compact_padded dt :
  1000 <= year dt ->
  strftime_compact dt
  = String.append (fmt4 (year dt)) (String.append (fmt2 (month dt)) (fmt2 (day dt))).
Proof. intros H. unfold strftime_compact. rewrite (year_text_padded _ H). reflexivity. Qed.

Lemma length_strftime_compact dt :
  1000 <= year dt -> String.length (strftime_compact dt) = 8%nat.
Proof. intros H. rewrite (strftime_compact_padded dt H). reflexivity. Qed.

Lemma strptime_strftime_compact dt :
  valid_date dt = true -> 1000 <= year dt ->
  strptime (strftime_compact dt) fmt_compact = Ok dt.
Proof.
  intros Hv Hy4. destruct (valid_date_bounds dt Hv) as (Hy & Hm & Hd & Hd').
  rewrite (strftime_compact_padded dt Hy4).
  unfold strptime, fmt_compact. cbn [match_format].
  rewrite match_year_fmt4 by lia. cbn [mbind list_bind app].
  destruct (match_month_fmt2 (month dt) (fmt2 (day dt))) as [tl1 ->]; [lia|].
  cbn [mbind list_bind app year month day].
  rewrite (fmt2_append_nil (day dt)).
  destruct (match_day_fmt2 (day dt) EmptyString) as [tl2 ->]; [lia|].
  cbn [mbind list_bind app year month day].
  destruct dt as [y m d]. cbn [year month day] in *. rewrite Hv. reflexivity.
Qed.

(** ** Date components (C7) *)

Lemma quarter_of_month m :
  1 <= m <= 12 ->
  (m - 1) / 3 + 1 = if m <=? 3 then 1 else if m <=? 6 then 2 else if m <=? 9 then 3 else 4.
Proof.
  intros H.
  destruct (month_cases m H) as [->|[->|[->|[->|[->|[->|[->|[->|[->|[->|[->| ->]]]]]]]]]]];
    reflexivity.
Qed.

Lemma get_date_components_compact y m d :
  0 <= y <= 9999 -> 0 <= m <= 99 -> 0 <= d <= 99 ->
  _get_date_components (String.append (fmt4 y) (String.append (fmt2 m) (fmt2 d)))
  = Some (y, m, d, (m - 1) / 3 + 1).
Proof.
  intros Hy Hm Hd. unfold _get_date_components.
  pose proof (py_int_fmt4 y Hy) as Py.
  pose proof (py_int_fmt2 m Hm) as Pm.
  pose proof (py_int_fmt2 d Hd) as Pd.
  unfold fmt4, fmt2 in *. rewrite !append_cons, !append_nil.
  cbn [String.length Nat.eqb substring].
  rewrite Py, Pm, Pd. reflexivity.
Qed.

Lemma length_strftime_iso dt : String.length (strftime_iso dt) = 10%nat.
Proof. reflexivity. Qed.

Lemma get_date_components_iso dt :
  valid_date dt = true ->
  _get_date_components (strftime_iso dt)
  = Some (year dt, month dt, day dt, (month dt - 1) / 3 + 1).
Proof.
  intros Hv. unfold _get_date_components.
  rewrite length_strftime_iso. cbn [Nat.eqb].
  rewrite (strptime_strftime_iso dt Hv). reflexivity.
Qed.

(** C7. For a date string of eight digits, and for a calendar date written
    as [YYYY-MM-DD], [_get_date_components] returns the year, month and day
    that the string shows together with the quarter [(month - 1) / 3 + 1]
    (floor division); months 1 to 3 give quarter 1, 4 to 6 give 2, 7 to 9
    give 3 and 10 to 12 give 4. *)
Theorem get_date_components_spec (y m d : Z) :
  0 <= y <= 9999 -> 0 <= m <= 99 -> 0 <= d <= 99 ->
  _get_date_components (String.append (fmt4 y) (String.append (fmt2 m) (fmt2 d)))
  = Some (y, m, d, (m - 1) / 3 + 1)
  /\ (valid_ymd y m d = true ->
      _get_date_components
        (String.append (fmt4 y)
           (String "-" (String.append (fmt2 m) (String "-" (fmt2 d)))))
      = Some (y, m, d, (m - 1) / 3 + 1))
  /\ (1 <= m <= 12 ->
      (m - 1) / 3 + 1
      = if m <=? 3 then 1 else if m <=? 6 then 2 else if m <=? 9 then 3 else 4).
Proof.
  intros Hy Hm Hd. split; [|split].
  - apply get_date_components_compact; assumption.
  - intros Hv. apply (get_date_components_iso (Date y m d) Hv).
  - apply quarter_of_month.
Qed.

Lemma get_date_components_spec_witness :
  _get_date_components "20240515" = Some (2024, 5, 15, 2)
  /\ _get_date_components "2024-05-15" = Some (2024, 5, 15, 2)
  /\ (5 - 1) / 3 + 1 = 2.
Proof.
  destruct (get_date_components_spec 2024 5 15) as (H1 & H2 & H3); try lia.
  split; [exact H1|]. split; [apply H2; reflexivity|]. apply H3. lia.
Defined.

(** ** The calendar *)

Lemma is_leap_spec y :
  is_leap y = true <-> (y mod 4 = 0 /\ (y mod 100 <> 0 \/ y mod 400 = 0)).
Proof.
  unfold is_leap.
  destruct (Z.eqb_spec (y mod 4) 0), (Z.eqb_spec (y mod 100) 0),
    (Z.eqb_spec (y mod 400) 0); cbn; intuition (try congruence; try lia).
Qed.

Lemma days_before_year_succ y :
  days_before_year (y + 1) = days_before_year y + 365 + (if is_leap y then 1 else 0).
Proof.
  unfold days_before_year.
  destruct (is_leap y) eqn:E.
  - apply is_leap_spec in E. Z.div_mod_to_equations. lia.
  - assert (N : ~ (y mod 4 = 0 /\ (y mod 100 <> 0 \/ y mod 400 = 0)))
      by (rewrite <- is_leap_spec; congruence).
    Z.div_mod_to_equations. lia.
Qed.

Ltac add_consts :=
  repeat match goal with
    | |- context [Z.pos ?a + Z.pos ?b] =>
        let v := eval vm_compute in (Z.pos a + Z.pos b) in
        change (Z.pos a + Z.pos b) with v
    end.

Lemma add_one_day_ok dt :
  valid_date dt = true -> dt <> max_date ->
  exists next, add_one_day dt = Ok next /\ valid_date next = true
               /\ toordinal next = toordinal dt + 1.
Proof.
  intros Hv Hne. destruct (valid_date_bounds dt Hv) as (Hy & Hm & Hd & Hd').
  destruct dt as [y m d]. cbn [year month day] in *.
  unfold add_one_day, valid_date, valid_ymd, toordinal, MAXYEAR. cbn [year month day].
  destruct (Z.ltb_spec d (days_in_month y m)).
  - eexists. split; [reflexivity|]. cbn [year month day]. split; [|ring].
    repeat (apply andb_true_intro; split); lia.
  - assert (d = days_in_month y m) by lia. subst d.
    destruct (Z.ltb_spec m 12).
    + eexists. split; [reflexivity|]. cbn [year month day]. split.
      * repeat (apply andb_true_intro; split); try lia.
        apply Z.leb_le. unfold days_in_month.
        destruct (month_cases m Hm) as [->|[->|[->|[->|[->|[->|[->|[->|[->|[->|[->| ->]]]]]]]]]]];
          try lia; add_consts; cbn; destruct (is_leap y); lia.
      * unfold days_before_month, days_in_month.
        destruct (month_cases m Hm) as [->|[->|[->|[->|[->|[->|[->|[->|[->|[->|[->| ->]]]]]]]]]]];
          try lia; add_consts; cbn; destruct (is_leap y); cbn; lia.
    + assert (m = 12) by lia. subst m.
      destruct (Z.ltb_spec y 9999).
      * eexists. split; [reflexivity|]. cbn [year month day]. split.
        -- repeat (apply andb_true_intro; split); try lia. reflexivity.
        -- rewrite days_before_year_succ. unfold days_before_month, days_in_month.
           cbn. destruct (is_leap y); cbn; lia.
      * exfalso. apply Hne. unfold max_date. f_equal; lia.
Qed.

Lemma toordinal_mono_year a b :
  valid_date a = true -> valid_date b = true -> year a < year b ->
  toordinal a < toordinal b.
Proof.
  intros Ha Hb Hlt.
  destruct (valid_date_bounds a Ha) as (Hya & Hma & Hda & Hda').
  destruct (valid_date_bounds b Hb) as (Hyb & Hmb & Hdb & Hdb').
  unfold toordinal.
  assert (Hs : days_before_year (year a + 1) <= days_before_year (year b)).
  { unfold days_before_year. Z.div_mod_to_equations. lia. }
  rewrite days_before_year_succ in Hs.
  assert (Ha' : days_before_month (year a) (month a) + day a
                <= 365 + (if is_leap (year a) then 1 else 0)).
  { revert Hda. unfold days_before_month, days_in_month.
    destruct (month_cases _ Hma) as [->|[->|[->|[->|[->|[->|[->|[->|[->|[->|[->| ->]]]]]]]]]]];
      cbn; destruct (is_leap (year a)); cbn; lia. }
  assert (Hb' : 0 <= days_before_month (year b) (month b)).
  { unfold days_before_month.
    destruct (month_cases _ Hmb) as [->|[->|[->|[->|[->|[->|[->|[->|[->|[->|[->| ->]]]]]]]]]]];
      cbn; destruct (is_leap (year b)); cbn; lia. }
  lia.
Qed.

Lemma toordinal_mono_month y m1 d1 m2 d2 :
  valid_date (Date y m1 d1) = true -> valid_date (Date y m2 d2) = true -> m1 < m2 ->
  toordinal (Date y m1 d1) < toordinal (Date y m2 d2).
Proof.
  intros Ha Hb Hlt.
  destruct (valid_date_bounds _ Ha) as (Hya & Hma & Hda & Hda').
  destruct (valid_date_bounds _ Hb) as (Hyb & Hmb & Hdb & Hdb').
  cbn [year month day] in *. unfold toordinal. cbn [year month day].
  revert Hda Hdb. unfold days_before_month, days_in_month.
  destruct (month_cases _ Hma) as [->|[->|[->|[->|[->|[->|[->|[->|[->|[->|[->| ->]]]]]]]]]]];
    destruct (month_cases _ Hmb) as [->|[->|[->|[->|[->|[->|[->|[->|[->|[->|[->| ->]]]]]]]]]]];
    try lia; cbn; destruct (is_leap y); cbn; lia.
Qed.

Lemma date_le_toordinal a b :
  valid_date a = true -> valid_date b = true ->
  date_le a b = true <-> toordinal a <= toordinal b.
Proof.
  intros Ha Hb. unfold date_le.
  destruct (Z.ltb_spec (year a) (year b)) as [Hy|Hy]; cbn [orb].
  { pose proof (toordinal_mono_year a b Ha Hb Hy). intuition lia. }
  destruct (Z.eqb_spec (year a) (year b)) as [Ey|Ey]; cbn [andb].
  2:{ assert (Hy' : year b < year a) by lia.
      pose proof (toordinal_mono_year b a Hb Ha Hy'). intuition (try discriminate; lia). }
  destruct a as [ya ma da], b as [yb mb db]. cbn [year month day] in *. subst yb.
  destruct (Z.ltb_spec ma mb) as [Hm|Hm]; cbn [orb].
  { pose proof (toordinal_mono_month ya ma da mb db Ha Hb Hm). intuition lia. }
  destruct (Z.eqb_spec ma mb) as [Em|Em]; cbn [andb].
  2:{ assert (Hm' : mb < ma) by lia.
      pose proof (toordinal_mono_month ya mb db ma da Hb Ha Hm').
      intuition (try discriminate; lia). }
  subst mb. unfold toordinal. cbn [year month day].
  rewrite Z.leb_le. lia.
Qed.

Lemma date_le_antisym a b :
  date_le a b = true -> date_le b a = true -> a = b.
Proof.
  destruct a as [ya ma da], b as [yb mb db]. unfold date_le. cbn [year month day].
  intros H1 H2.
  destruct (Z.ltb_spec ya yb), (Z.ltb_spec yb ya), (Z.eqb_spec ya yb), (Z.eqb_spec yb ya),
    (Z.ltb_spec ma mb), (Z.ltb_spec mb ma), (Z.eqb_spec ma mb), (Z.eqb_spec mb ma),
    (Z.leb_spec da db), (Z.leb_spec db da);
    cbn in H1, H2; try discriminate; try lia; f_equal; lia.
Qed.

Lemma toordinal_inj a b :
  valid_date a = true -> valid_date b = true -> toordinal a = toordinal b -> a = b.
Proof.
  intros Ha Hb E. apply date_le_antisym; apply date_le_toordinal; auto; lia.
Qed.

Lemma date_le_max dt : valid_date dt = true -> date_le max_date dt = true -> dt = max_date.
Proof.
  intros Hv Hle. destruct (valid_date_bounds dt Hv) as (Hy & Hm & Hd & Hd').
  apply date_le_antisym; [|exact Hle].
  destruct dt as [y m d]. unfold date_le, max_date. cbn [year month day] in *.
  destruct (Z.ltb_spec y 9999), (Z.eqb_spec y 9999), (Z.ltb_spec m 12), (Z.eqb_spec m 12),
    (Z.leb_spec d 31); cbn; try reflexivity; lia.
Qed.

Lemma date_loop_spec fin :
  valid_date fin = true ->
  forall fuel cur acc,
    valid_date cur = true ->
    (date_le cur fin = true -> fin <> max_date) ->
    (Z.to_nat (toordinal fin - toordinal cur + 1) <= fuel)%nat ->
    exists ds,
      date_loop fuel cur fin acc = Some (Ok (acc ++ (strftime_compact <$> ds))%list)
      /\ Forall (fun d => valid_date d = true) ds
      /\ toordinal <$> ds = seqZ (toordinal cur) (toordinal fin - toordinal cur + 1).
Proof.
  intros Hfin fuel. induction fuel as [|fuel IH]; intros cur acc Hcur Hmax Hfuel.
  - assert (Hgt : ~ toordinal cur <= toordinal fin) by lia.
    rewrite <- (date_le_toordinal cur fin Hcur Hfin) in Hgt.
    apply not_true_is_false in Hgt.
    exists []. cbn [date_loop]. rewrite Hgt. cbn [fmap list_fmap]. rewrite app_nil_r.
    split; [reflexivity|]. split; [constructor|].
    rewrite seqZ_nil; [reflexivity|]. apply not_true_iff_false in Hgt.
    rewrite (date_le_toordinal cur fin Hcur Hfin) in Hgt. lia.
  - cbn [date_loop]. destruct (date_le cur fin) eqn:Hle.
    + pose proof (Hmax eq_refl) as Hne.
      assert (Hcm : cur <> max_date).
      { intros ->. apply Hne. apply date_le_max; assumption. }
      destruct (add_one_day_ok cur Hcur Hcm) as (next & -> & Hnext & Hord).
      apply (date_le_toordinal cur fin Hcur Hfin) in Hle.
      destruct (IH next (acc ++ [strftime_compact cur])%list Hnext (fun _ => Hne))
        as (ds & Hrun & Hall & Hseq); [lia|].
      exists (cur :: ds). rewrite Hrun. cbn [fmap list_fmap].
      rewrite <- app_assoc. split; [reflexivity|]. split; [constructor; assumption|].
      rewrite seqZ_cons by lia. f_equal.
      change (list_fmap date Z toordinal ds) with (toordinal <$> ds).
      rewrite Hseq, Hord. f_equal; lia.
    + exists []. cbn [fmap list_fmap]. rewrite app_nil_r.
      split; [reflexivity|]. split; [constructor|].
      rewrite seqZ_nil; [reflexivity|]. apply not_true_iff_false in Hle.
      rewrite (date_le_toordinal cur fin Hcur Hfin) in Hle. lia.
Qed.

Lemma date_le_year a b : date_le a b = true -> year a <= year b.
Proof.
  unfold date_le. intros H. apply orb_true_iff in H. destruct H as [H|H].
  - apply Z.ltb_lt in H. lia.
  - apply andb_prop in H. destruct H as [H _]. apply Z.eqb_eq in H. lia.
Qed.

(** C10, as the code has it. Between two calendar dates of the years 1000 to
    9999 in [YYYYMMDD] form, the finish date being before 9999-12-31 when the
    start date is not after it, [get_date_list] returns the days from the
    start date through the finish date: their ordinals are consecutive from
    that of the start date to that of the finish date, the list holds exactly
    the calendar dates between the two, each is written with eight
    characters as [YYYYMMDD], and the list is empty when the start date is
    after the finish date. *)
Theorem get_date_list_spec (start finish : date) (fuel : nat) :
  valid_date start = true -> valid_date finish = true ->
  1000 <= year start -> 1000 <= year finish ->
  (date_le start finish = true -> finish <> max_date) ->
  (Z.to_nat (toordinal finish - toordinal start + 1) <= fuel)%nat ->
  exists ds,
    get_date_list fuel (strftime_compact start) (strftime_compact finish)
    = Some (Ok (strftime_compact <$> ds))
    /\ toordinal <$> ds
       = seqZ (toordinal start) (toordinal finish - toordinal start + 1)
    /\ (forall d, d ∈ ds <->
          valid_date d = true /\ date_le start d = true /\ date_le d finish = true)
    /\ Forall (fun d => String.length (strftime_compact d) = 8%nat) ds
    /\ (date_le start finish = false -> ds = []).
Proof.
  intros Hs Hf Hys Hyf Hmax Hfuel. unfold get_date_list.
  rewrite (strptime_strftime_compact start Hs Hys), (strptime_strftime_compact finish Hf Hyf).
  destruct (date_loop_spec finish Hf fuel start [] Hs Hmax Hfuel) as (ds & Hrun & Hall & Hseq).
  exists ds. split; [exact Hrun|]. split; [exact Hseq|].
  assert (Hbetween : forall d, d ∈ ds ->
            valid_date d = true /\ date_le start d = true /\ date_le d finish = true).
  { intros d Hin. rewrite Forall_forall in Hall. pose proof (Hall d Hin) as Hd.
    split; [exact Hd|].
    assert (Ho : toordinal d ∈ toordinal <$> ds) by (apply list_elem_of_fmap_2; exact Hin).
    rewrite Hseq in Ho. apply elem_of_seqZ in Ho.
    split; apply date_le_toordinal; auto; lia. }
  split; [|split].
  2:{ apply Forall_forall. intros d Hin. destruct (Hbetween d Hin) as (_ & Hle & _).
      apply length_strftime_compact. pose proof (date_le_year _ _ Hle). lia. }
  - intros d. rewrite Forall_forall in Hall. split.
    + apply Hbetween.
    + intros (Hd & H1 & H2).
      apply (date_le_toordinal start d Hs Hd) in H1.
      apply (date_le_toordinal d finish Hd Hf) in H2.
      assert (Ho : toordinal d ∈ toordinal <$> ds).
      { rewrite Hseq. apply elem_of_seqZ. lia. }
      apply list_elem_of_fmap in Ho. destruct Ho as (d' & E & Hin).
      rewrite (toordinal_inj d d' Hd (Hall d' Hin) E). exact Hin.
  - intros Hgt. apply not_true_iff_false in Hgt.
    rewrite (date_le_toordinal start finish Hs Hf) in Hgt.
    rewrite seqZ_nil in Hseq by lia. destruct ds; [reflexivity|discriminate].
Qed.

Lemma get_date_list_spec_witness :
  exists ds,
    get_date_list 5 "20240227" "20240302" = Some (Ok (strftime_compact <$> ds))
    /\ toordinal <$> ds = seqZ 738943 5
    /\ (forall d, d ∈ ds <->
          valid_date d = true /\ date_le (Date 2024 2 27) d = true
          /\ date_le d (Date 2024 3 2) = true)
    /\ Forall (fun d => String.length (strftime_compact d) = 8%nat) ds
    /\ (date_le (Date 2024 2 27) (Date 2024 3 2) = false -> ds = []).
Proof.
  apply (get_date_list_spec (Date 2024 2 27) (Date 2024 3 2) 5).
  - reflexivity.
  - reflexivity.
  - cbn [year]. lia.
  - cbn [year]. lia.
  - intros _. discriminate.
  - vm_compute. lia.
Defined.

(** C10 fails when the finish date is 9999-12-31: after the last day is
    appended the loop adds one more day, and the date overflows. It also
    fails for a year below 1000: the day 0001-01-01 comes back with five
    characters, not as [YYYYMMDD]. *)
Lemma get_date_list_overflow :
  get_date_list 1 "99991231" "99991231" = Some (Raise OverflowError)
  /\ ~ (exists fuel l, get_date_list fuel "99991231" "99991231" = Some (Ok l))
  /\ get_date_list 2 "00010101" "00010101" = Some (Ok ["10101"]).
Proof.
  split; [reflexivity|]. split; [|vm_compute; reflexivity].
  intros (fuel & l & H). destruct fuel; vm_compute in H; discriminate.
Qed.

(** ** The current-date marker and the processed-dates log (C2) *)

Lemma process_single_date_sets_marker_on_raise {G} (graph : store G)
    collect_prices collect_statements company_df date (g : G) st e :
  collect_prices date = Raise e ->
  process_single_date graph collect_prices collect_statements company_df date g st
  = (g, Raise e, RunState None (processed_dates st ++ [date])).
Proof. intros H. unfold process_single_date. rewrite H. reflexivity. Qed.

(** C2, on the code. The date 20240103 is entered with the log holding two
    dates; collecting its prices raises before anything is written. The
    exception leaves the function, yet the counters are still [0, 0], the test
    [success_count > 0 or error_count == 0] of the [finally] block holds, and
    the date is appended to the log and the marker is cleared. *)
Theorem process_single_date_exception_clears_marker :
  process_single_date neo4j
    (fun _ => Raise ValueError) (fun _ => Ok None)
    (Frame ["stock_code"; "stock_abbrv"] [])
    "20240103" (Graph [] []) (RunState None ["20240101"; "20240102"])
  = (Graph [] [], Raise ValueError,
     RunState None ["20240101"; "20240102"; "20240103"]).
Proof. reflexivity. Qed.

(** ** A record without its stock code (C5) *)

Lemma getitem_missing (d : dict) k : d !! k = None -> getitem d k = Raise (KeyError k).
Proof. intros H. unfold getitem. rewrite H. reflexivity. Qed.




(** ** The counters of the write step (C6) *)

Lemma has_column_found df col v r rs :
  select_eq (rows df) col v = r :: rs -> has_column df col = true.
Proof.
  intros H. unfold has_column. apply orb_true_iff. right. apply existsb_exists.
  assert (Hin : In r (select_eq (rows df) col v)) by (rewrite H; left; reflexivity).
  unfold select_eq in Hin. apply filter_In in Hin. destruct Hin as [Hin Hc].
  exists r. split; [exact Hin|]. apply bool_decide_eq_true.
  destruct (r !! col); [eauto|discriminate].
Qed.

(** On a frame as pandas holds it the columns are the names of the frame. *)
Lemma has_column_wf df col :
  frame_wf df -> has_column df col = bool_decide (col ∈ columns df).
Proof.
  intros Hwf. unfold has_column.
  destruct (bool_decide (col ∈ columns df)) eqn:Hc; [reflexivity|]. cbn [orb].
  apply bool_decide_eq_false in Hc.
  destruct (existsb (fun r => bool_decide (is_Some (r !! col))) (rows df)) eqn:He;
    [|reflexivity].
  apply existsb_exists in He. destruct He as (r & Hin & Hr).
  apply bool_decide_eq_true in Hr. unfold frame_wf in Hwf. rewrite Forall_forall in Hwf.
  exfalso. apply Hc. apply (Hwf r); [apply list_elem_of_In; exact Hin|exact Hr].
Qed.

Lemma frame_select_found df col v r rs :
  select_eq (rows df) col v = r :: rs -> frame_select df col v = Ok (r :: rs).
Proof.
  intros H. unfold frame_select. rewrite (has_column_found df col v r rs H), H. reflexivity.
Qed.

Lemma has_column_false df col r :
  has_column df col = false -> In r (rows df) -> r !! col = None.
Proof.
  unfold has_column. intros H Hin. apply orb_false_iff in H. destruct H as [_ H].
  destruct (r !! col) as [x|] eqn:E; [|reflexivity].
  assert (Ht : existsb (fun r => bool_decide (is_Some (r !! col))) (rows df) = true).
  { apply existsb_exists. exists r. split; [exact Hin|].
    apply bool_decide_eq_true. rewrite E. eauto. }
  rewrite H in Ht. discriminate.
Qed.

(** The round of the loop over frames that have the column [stock_code]. *)
Lemma daily_step_columns {G} (graph : store G) price_df fs_df date g s e company :
  has_column price_df "stock_code" = true ->
  (forall df, fs_df = Some df -> has_column df "stock_code" = true) ->
  daily_step graph price_df fs_df date (g, (s, e)) company
  = (stock_code <-- getitem company "stock_code" ;;
     match select_eq (rows price_df) "stock_code" stock_code with
     | [] => Ok (g, (s, S e))
     | price :: _ =>
         match (cypher_query <-- _create_cypher_query_daily_data date company price
                                   (((fun df => select_eq (rows df) "stock_code" stock_code)
                                       <$> fs_df) ≫= first_row) ;;
                store_create_schema graph g cypher_query) with
         | Ok g' => Ok (g', (S s, e))
         | Raise _ =>
             _ <-- getitem company "stock_abbrv" ;;
             Ok (g, (s, S e))
         end
     end).
Proof.
  intros Hp Hf. unfold daily_step.
  destruct (getitem company "stock_code") as [code|]; [|reflexivity]. cbn [rbind].
  unfold frame_select at 1. rewrite Hp. cbn [rbind].
  destruct (select_eq (rows price_df) "stock_code" code) as [|price prices]; [reflexivity|].
  destruct fs_df as [df|]; [|reflexivity].
  unfold frame_select. rewrite (Hf df eq_refl). reflexivity.
Qed.

(** A round that returns is a round over such frames. *)
Lemma daily_step_inv {G} (graph : store G) price_df fs_df date g s e company st' :
  daily_step graph price_df fs_df date (g, (s, e)) company = Ok st' ->
  (stock_code <-- getitem company "stock_code" ;;
   match select_eq (rows price_df) "stock_code" stock_code with
   | [] => Ok (g, (s, S e))
   | price :: _ =>
       match (cypher_query <-- _create_cypher_query_daily_data date company price
                                 (((fun df => select_eq (rows df) "stock_code" stock_code)
                                     <$> fs_df) ≫= first_row) ;;
              store_create_schema graph g cypher_query) with
       | Ok g' => Ok (g', (S s, e))
       | Raise _ =>
           _ <-- getitem company "stock_abbrv" ;;
           Ok (g, (s, S e))
       end
   end) = Ok st'.
Proof.
  unfold daily_step.
  destruct (getitem company "stock_code") as [code|]; [|discriminate]. cbn [rbind].
  unfold frame_select at 1. destruct (has_column price_df "stock_code"); [|discriminate].
  cbn [rbind].
  destruct (select_eq (rows price_df) "stock_code" code) as [|price prices]; [auto|].
  destruct fs_df as [df|]; [|auto].
  unfold frame_select. destruct (has_column df "stock_code"); [auto|discriminate].
Qed.

Section DailyCounters.
Context {G : Type} (graph : store G) (price_df : DataFrame)
  (fs_df : option DataFrame) (date : string).
Hypothesis price_column : has_column price_df "stock_code" = true.
Hypothesis statement_column :
  forall df, fs_df = Some df -> has_column df "stock_code" = true.

(** One round of the loop is one outcome: a success moves the store and the
    success counter, a failure moves the error counter only. *)
Lemma daily_step_outcome g s e company :
  company_row company ->
  daily_step graph price_df fs_df date (g, (s, e)) company
  = match company_write graph price_df fs_df date g company with
    | Some g' => Ok (g', (S s, e))
    | None => Ok (g, (s, S e))
    end.
Proof.
  intros [[code Hc] [abbrv Ha]].
  rewrite (daily_step_columns graph price_df fs_df date g s e company
             price_column statement_column).
  unfold company_write, getitem. rewrite Hc. cbn [rbind].
  destruct (select_eq (rows price_df) "stock_code" code) as [|price tl]; [reflexivity|].
  destruct (_create_cypher_query_daily_data date company price _) as [q|ex]; cbn [rbind].
  - destruct (store_create_schema graph g q); [reflexivity|].
    rewrite Ha. reflexivity.
  - rewrite Ha. reflexivity.
Qed.

Lemma daily_loop_counts companies :
  Forall company_row companies ->
  forall g s e,
    exists g',
      daily_loop graph price_df fs_df date (g, (s, e)) companies
      = (g', Ok ((s + count_true (company_outcomes graph price_df fs_df date g companies))%nat,
                 (e + count_false (company_outcomes graph price_df fs_df date g companies))%nat)).
Proof.
  induction 1 as [|company companies Hrow _ IH]; intros g s e.
  - exists g. cbn. rewrite !Nat.add_0_r. reflexivity.
  - cbn [daily_loop company_outcomes]. rewrite (daily_step_outcome g s e company Hrow).
    destruct (company_write graph price_df fs_df date g company) as [g1|].
    + destruct (IH g1 (S s) e) as [g' ->]. exists g'.
      unfold count_true, count_false. cbn. repeat f_equal; lia.
    + destruct (IH g s (S e)) as [g' ->]. exists g'.
      unfold count_true, count_false. cbn. repeat f_equal; lia.
Qed.

Lemma company_outcomes_length g companies :
  length (company_outcomes graph price_df fs_df date g companies) = length companies.
Proof.
  revert g. induction companies as [|c cs IH]; intros g; [reflexivity|].
  cbn [company_outcomes]. destruct (company_write _ _ _ _ _ _); cbn; rewrite IH; reflexivity.
Qed.

Lemma count_true_false (l : list bool) : (count_true l + count_false l = length l)%nat.
Proof.
  unfold count_true, count_false.
  induction l as [|[] l IH]; cbn; lia.
Qed.
End DailyCounters.




(** ** Clearing and resetting the database (C8) *)

Lemma filter_filter_and {A} (p q : A -> bool) l :
  List.filter p (List.filter q l) = List.filter (fun x => (q x && p x)%bool) l.
Proof.
  induction l as [|x l IH]; [reflexivity|]. cbn.
  destruct (q x) eqn:Q; cbn; rewrite ?IH; [destruct (p x)|]; reflexivity.
Qed.

Lemma filter_all_true {A} (p : A -> bool) l :
  (forall x, In x l -> p x = true) -> List.filter p l = l.
Proof.
  induction l as [|x l IH]; intros H; [reflexivity|]. cbn.
  rewrite (H x (or_introl eq_refl)). f_equal. apply IH. intros y Hy. apply H. right. exact Hy.
Qed.

Lemma filter_all_false {A} (p : A -> bool) l :
  (forall x, In x l -> p x = false) -> List.filter p l = [].
Proof.
  induction l as [|x l IH]; intros H; [reflexivity|]. cbn.
  rewrite (H x (or_introl eq_refl)). apply IH. intros y Hy. apply H. right. exact Hy.
Qed.

Lemma drop_named_filter s rs :
  match drop_named s rs with Ok rs' => rs' | Raise _ => rs end
  = List.filter (fun r => negb (named s r)) rs.
Proof.
  unfold drop_named. destruct (existsb (named s) rs) eqn:E; [reflexivity|].
  symmetry. apply filter_all_true. intros r Hr.
  destruct (named s r) eqn:N; [|reflexivity].
  assert (existsb (named s) rs = true) by (apply existsb_exists; eauto). congruence.
Qed.

Lemma has_name_facts r :
  has_name r ->
  exists s, r !! "name" = Some (PStr s) /\ dict_get r "name" PNone = PStr s
            /\ truthy (PStr s) = true /\ named s r = true.
Proof.
  intros (s & Hs & Hne). exists s. split; [exact Hs|]. split; [|split].
  - unfold dict_get. rewrite Hs. reflexivity.
  - cbn. destruct (String.eqb_spec s ""); [contradiction|reflexivity].
  - unfold named. rewrite Hs. cbn. apply String.eqb_refl.
Qed.

(** The constraints left by the loop: those that no listed constraint's name
    names. *)
Lemma clear_constraints_loop todo :
  Forall has_name todo ->
  forall cs,
    foldl (fun cs constraint =>
             let constraint_name := dict_get constraint "name" PNone in
             if truthy constraint_name then
               match drop_named (py_str constraint_name) cs with
               | Ok cs' => cs'
               | Raise _ => cs
               end
             else cs) cs todo
    = List.filter
        (fun r => negb (existsb (fun t => named (py_str (dict_get t "name" PNone)) r) todo)) cs.
Proof.
  induction 1 as [|t todo Ht _ IH]; intros cs.
  - cbn. symmetry. apply filter_all_true. reflexivity.
  - cbn [foldl]. destruct (has_name_facts t Ht) as (s & Hs & Hg & Htr & Hn).
    cbv zeta. rewrite Hg, Htr. cbn [py_str]. rewrite drop_named_filter, IH, filter_filter_and.
    apply filter_ext. intros r. cbn [existsb]. rewrite Hg. cbn [py_str].
    rewrite negb_orb. reflexivity.
Qed.

Lemma clear_constraints_all cs : Forall has_name cs -> _clear_constraints cs = [].
Proof.
  intros H. unfold _clear_constraints. rewrite (clear_constraints_loop cs H).
  apply filter_all_false. intros r Hr. apply negb_false_iff, existsb_exists.
  exists r. split; [exact Hr|].
  rewrite Forall_forall in H. apply list_elem_of_In in Hr.
  destruct (has_name_facts r (H r Hr)) as (s & Hs & Hg & Htr & Hn).
  rewrite Hg. exact Hn.
Qed.

(** The indexes left by the loop: those that no listed index outside the
    system ones names. *)
Lemma clear_index_loop_spec todo :
  Forall has_name todo ->
  forall indexes,
    clear_index_loop todo indexes
    = Ok (List.filter
            (fun r => negb (existsb
                       (fun t => (negb (is_system t)
                                  && named (py_str (dict_get t "name" PNone)) r)%bool) todo))
            indexes).
Proof.
  induction 1 as [|t todo Ht _ IH]; intros indexes.
  - cbn. f_equal. symmetry. apply filter_all_true. reflexivity.
  - cbn [clear_index_loop]. destruct (has_name_facts t Ht) as (s & Hs & Hg & Htr & Hn).
    assert (Hsys : is_system t = String.prefix "system" s)
      by (unfold is_system; rewrite Hs; reflexivity).
    cbv zeta. rewrite Hg, Htr. cbn [existsb]. rewrite Hsys, Hg. cbn [py_str].
    destruct (String.prefix "system" s) eqn:P; cbn [negb andb orb].
    + apply IH.
    + pose proof (drop_named_filter s indexes) as Hd.
      destruct (drop_named s indexes) as [indexes'|ex]; rewrite IH; f_equal.
      * rewrite Hd, filter_filter_and. apply filter_ext. intros r. rewrite negb_orb. reflexivity.
      * rewrite Hd at 1. rewrite filter_filter_and. apply filter_ext. intros r.
        rewrite negb_orb. reflexivity.
Qed.

Lemma prefix_same_name s r t :
  r !! "name" = Some (PStr s) -> named (py_str (dict_get t "name" PNone)) r = true ->
  has_name t -> is_system t = is_system r.
Proof.
  intros Hr Hn Ht. destruct (has_name_facts t Ht) as (s' & Hs' & Hg & _ & _).
  rewrite Hg in Hn. cbn [py_str] in Hn. unfold named in Hn. rewrite Hr in Hn. cbn in Hn.
  apply String.eqb_eq in Hn. subst s'. unfold is_system. rewrite Hr, Hs'. reflexivity.
Qed.

Lemma clear_indexes_all indexes :
  Forall has_name indexes -> _clear_indexes indexes = Ok (List.filter is_system indexes).
Proof.
  intros H. unfold _clear_indexes. rewrite (clear_index_loop_spec indexes H). f_equal.
  apply filter_ext_in. intros r Hr.
  pose proof H as H'. rewrite Forall_forall in H'.
  assert (Hr' : r ∈ indexes) by (apply list_elem_of_In; exact Hr).
  destruct (has_name_facts r (H' r Hr')) as (s & Hs & Hg & Htr & Hn).
  destruct (is_system r) eqn:S.
  - apply negb_true_iff. apply not_true_iff_false. intros E.
    apply existsb_exists in E. destruct E as (t & Ht & Hc).
    apply andb_prop in Hc. destruct Hc as [Hns Hnamed].
    apply list_elem_of_In in Ht.
    rewrite (prefix_same_name s r t Hs Hnamed (H' t Ht)), S in Hns. discriminate.
  - apply negb_false_iff. apply existsb_exists. exists r. split; [exact Hr|].
    rewrite S, Hg. cbn [negb andb py_str]. exact Hn.
Qed.

(** C8. [clear_all_data] removes every node and every relationship and keeps
    the constraints and the indexes as they are; [reset_database] removes every
    node and relationship, drops every constraint, and drops every index but
    those whose name starts with [system]. *)
Theorem clear_and_reset_database (db : database) :
  (nodes (db_graph (clear_all_data db)) = []
   /\ edges (db_graph (clear_all_data db)) = []
   /\ db_constraints (clear_all_data db) = db_constraints db
   /\ db_indexes (clear_all_data db) = db_indexes db)
  /\ (Forall has_name (db_constraints db) -> Forall has_name (db_indexes db) ->
      exists db',
        reset_database db = Ok db'
        /\ nodes (db_graph db') = [] /\ edges (db_graph db') = []
        /\ db_constraints db' = []
        /\ db_indexes db' = List.filter is_system (db_indexes db)).
Proof.
  split; [repeat split|].
  intros Hc Hi. unfold reset_database, clear_indexes, clear_constraints, clear_all_data.
  cbn [db_graph db_constraints db_indexes].
  rewrite (clear_indexes_all _ Hi), (clear_constraints_all _ Hc). cbn [rbind].
  eexists. split; [reflexivity|]. repeat split.
Qed.

Lemma clear_and_reset_database_witness :
  let db :=
    Database
      (Graph [Node 1 "Company" {[ "stock_code" := Quoted "000001" ]};
              Node 2 "Sector" {[ "stock_sector_nm" := Quoted "IT" ]}]
             [Edge 1 "BELONGS_TO" 2])
      [ {[ "name" := PStr "constraint_company" ]} ]
      [ {[ "name" := PStr "constraint_company" ]}; {[ "name" := PStr "system_lookup" ]};
        {[ "name" := PStr "index_343aff4e" ]} ] in
  exists db',
    reset_database db = Ok db'
    /\ nodes (db_graph db') = [] /\ edges (db_graph db') = []
    /\ db_constraints db' = []
    /\ db_indexes db' = [ {[ "name" := PStr "system_lookup" ]} ].
Proof.
  intros db. destruct (clear_and_reset_database db) as [_ H].
  apply H.
  - repeat constructor. exists "constraint_company". split; [reflexivity|discriminate].
  - repeat constructor;
      [exists "constraint_company"|exists "system_lookup"|exists "index_343aff4e"];
      (split; [reflexivity|discriminate]).
Defined.

(** ** Running the competitor query *)

Lemma for_rows_pure (f : graph -> row -> result (graph * list row)) (h : row -> list row) g rs :
  (forall r, f g r = Ok (g, h r)) -> for_rows f g rs = Ok (g, flat_map h rs).
Proof.
  intros H. induction rs as [|r rs IH]; [reflexivity|].
  cbn [for_rows flat_map]. rewrite H, IH. reflexivity.
Qed.

Lemma for_rows_merge_rel src ty dst rs :
  Forall (fun r : row => is_Some (r !! src) /\ is_Some (r !! dst)) rs ->
  forall g, for_rows (exec_row (MergeRel src ty dst)) g rs
            = Ok (merge_rows src ty dst g rs, rs).
Proof.
  induction 1 as [|r rs [[x Hx] [y Hy]] _ IH]; intros g; [reflexivity|].
  cbn [for_rows exec_row]. rewrite Hx, Hy, IH.
  unfold merge_rows. cbn [foldl]. rewrite Hx, Hy. reflexivity.
Qed.

Lemma count_edge_app e es1 es2 n :
  count_edge e (Graph n (es1 ++ es2)) = (count_edge e (Graph n es1) + count_edge e (Graph n es2))%nat.
Proof. unfold count_edge. cbn [edges]. rewrite List.filter_app, length_app. reflexivity. Qed.

Lemma count_edge_pos e g : (1 <= count_edge e g)%nat <-> e ∈ edges g.
Proof.
  unfold count_edge. induction (edges g) as [|e' es IH]; cbn.
  - split; [lia|]. intros H. inversion H.
  - destruct (bool_decide_reflect (e' = e)) as [->|Hne]; cbn.
    + split; [intros _; left|lia].
    + rewrite IH. split; [intros H; right; exact H|].
      intros H. inversion H; subst; [contradiction|assumption].
Qed.

Lemma count_edge_zero e g : count_edge e g = O <-> e ∉ edges g.
Proof. rewrite <- count_edge_pos. lia. Qed.

Lemma merge_rel_nodes g x ty y : nodes (merge_rel g x ty y) = nodes g.
Proof. unfold merge_rel. destruct (bool_decide _); reflexivity. Qed.

Lemma merge_rel_in g x ty y : Edge x ty y ∈ edges (merge_rel g x ty y).
Proof.
  unfold merge_rel. destruct (bool_decide_reflect (Edge x ty y ∈ edges g)); [assumption|].
  cbn. apply elem_of_app. right. left.
Qed.

Lemma merge_rel_edges g x ty y e :
  e ∈ edges (merge_rel g x ty y) -> e ∈ edges g \/ e = Edge x ty y.
Proof.
  unfold merge_rel. destruct (bool_decide _); [left; assumption|].
  cbn. intros H. apply elem_of_app in H. destruct H as [H|H]; [left; exact H|].
  right. apply list_elem_of_singleton in H. exact H.
Qed.

Lemma merge_rel_count g x ty y e :
  (count_edge e g <= count_edge e (merge_rel g x ty y) <= Nat.max 1 (count_edge e g))%nat.
Proof.
  unfold merge_rel. destruct (bool_decide_reflect (Edge x ty y ∈ edges g)) as [Hin|Hnin]; [lia|].
  destruct g as [ns es]. cbn [nodes edges]. rewrite count_edge_app.
  unfold count_edge at 2 4. cbn.
  destruct (bool_decide_reflect (Edge x ty y = e)) as [<-|Hne]; cbn; [|lia].
  apply count_edge_zero in Hnin. cbn in Hnin. lia.
Qed.

Lemma merge_rows_cons src ty dst g r rs :
  merge_rows src ty dst g (r :: rs)
  = merge_rows src ty dst
      (match r !! src, r !! dst with
       | Some x, Some y => merge_rel g x ty y
       | _, _ => g
       end) rs.
Proof. reflexivity. Qed.

Lemma merge_rows_spec src ty dst rs :
  forall g,
    nodes (merge_rows src ty dst g rs) = nodes g
    /\ (forall e, (count_edge e g <= count_edge e (merge_rows src ty dst g rs)
                   <= Nat.max 1 (count_edge e g))%nat)
    /\ (forall e, e ∈ edges (merge_rows src ty dst g rs) ->
          e ∈ edges g \/ exists r x y, r ∈ rs /\ r !! src = Some x /\ r !! dst = Some y
                                       /\ e = Edge x ty y)
    /\ (forall r x y, r ∈ rs -> r !! src = Some x -> r !! dst = Some y ->
          Edge x ty y ∈ edges (merge_rows src ty dst g rs)).
Proof.
  induction rs as [|r rs IH]; intros g.
  - cbn. repeat split; try lia.
    + intros e H. left. exact H.
    + intros r x y H. inversion H.
  - rewrite merge_rows_cons.
    set (g1 := match r !! src, r !! dst with
               | Some x, Some y => merge_rel g x ty y | _, _ => g end).
    destruct (IH g1) as (Hn & Hc & He & Hi).
    assert (Hn1 : nodes g1 = nodes g).
    { subst g1. destruct (r !! src), (r !! dst); try reflexivity. apply merge_rel_nodes. }
    assert (Hc1 : forall e, (count_edge e g <= count_edge e g1 <= Nat.max 1 (count_edge e g))%nat).
    { intros e. subst g1. destruct (r !! src), (r !! dst); try lia. apply merge_rel_count. }
    repeat split.
    + congruence.
    + specialize (Hc e). specialize (Hc1 e). lia.
    + specialize (Hc e). specialize (Hc1 e). lia.
    + intros e H. destruct (He e H) as [H1|(r' & x & y & Hr' & Hx & Hy & ->)].
      * subst g1. destruct (r !! src) as [x|] eqn:Ex, (r !! dst) as [y|] eqn:Ey;
          try (left; exact H1).
        destruct (merge_rel_edges _ _ _ _ _ H1) as [H2| ->]; [left; exact H2|].
        right. exists r, x, y. repeat split; try assumption. left.
      * right. exists r', x, y. repeat split; try assumption. right. exact Hr'.
    + intros r' x y Hr' Hx Hy. inversion Hr'; subst.
      * apply count_edge_pos. specialize (Hc (Edge x ty y)).
        assert ((1 <= count_edge (Edge x ty y) g1)%nat); [|lia].
        apply count_edge_pos. subst g1. rewrite Hx, Hy. apply merge_rel_in.
      * eapply Hi; eassumption.
Qed.

Lemma create_competitor_query src dst a b :
  src !! "stock_code" = Some a -> dst !! "stock_code" = Some b ->
  _create_cypher_query_competitor src dst = Ok (competitor_query (py_str a) (py_str b)).
Proof.
  intros Ha Hb. unfold _create_cypher_query_competitor, getitem. rewrite Ha, Hb. reflexivity.
Qed.

Lemma competitor_rows_bound (xs ys : list nat) (r : row) :
  In r (flat_map (fun r => (fun n => <["Competitor" := n]> r) <$> ys)
          (flat_map (fun r => (fun n => <["Company" := n]> r) <$> xs) [∅])) <->
  exists x y, x ∈ xs /\ y ∈ ys /\ r = <["Competitor" := y]> (<["Company" := x]> ∅).
Proof.
  rewrite in_flat_map. split.
  - intros (r1 & H1 & H2). apply in_flat_map in H1. destruct H1 as (r0 & H0 & H1).
    destruct H0 as [<-|[]].
    apply list_elem_of_In, list_elem_of_fmap in H1. destruct H1 as (x & -> & Hx).
    apply list_elem_of_In, list_elem_of_fmap in H2. destruct H2 as (y & -> & Hy).
    exists x, y. auto.
  - intros (x & y & Hx & Hy & ->). exists (<["Company" := x]> ∅). split.
    + apply in_flat_map. exists ∅. split; [left; reflexivity|].
      apply list_elem_of_In, list_elem_of_fmap. exists x. auto.
    + apply list_elem_of_In, list_elem_of_fmap. exists y. auto.
Qed.

Lemma run_competitor_query g a b :
  exists g',
    run_query g (competitor_query a b) = Ok g'
    /\ nodes g' = nodes g
    /\ (forall e, (count_edge e g <= count_edge e g' <= Nat.max 1 (count_edge e g))%nat)
    /\ (forall e, e ∈ edges g' ->
          e ∈ edges g \/ exists x y, x ∈ company_ids g a /\ y ∈ company_ids g b
                                     /\ e = Edge x "COMPETES_WITH" y)
    /\ (forall x y, x ∈ company_ids g a -> y ∈ company_ids g b ->
          Edge x "COMPETES_WITH" y ∈ edges g').
Proof.
  unfold run_query, competitor_query. cbn [exec_clauses].
  rewrite (for_rows_pure _ (fun r => (fun n => <["Company" := n]> r) <$> company_ids g a))
    by reflexivity.
  rewrite (for_rows_pure _ (fun r => (fun n => <["Competitor" := n]> r) <$> company_ids g b))
    by reflexivity.
  set (rs := flat_map _ _).
  assert (Hrs : forall r, In r rs <-> exists x y, x ∈ company_ids g a /\ y ∈ company_ids g b
                            /\ r = <["Competitor" := y]> (<["Company" := x]> ∅))
    by (intros r; apply competitor_rows_bound).
  rewrite for_rows_merge_rel.
  2:{ apply Forall_forall. intros r Hr. apply list_elem_of_In, Hrs in Hr.
      destruct Hr as (x & y & _ & _ & ->). split; eexists.
      - rewrite lookup_insert_ne by discriminate. apply lookup_insert_eq.
      - apply lookup_insert_eq. }
  destruct (merge_rows_spec "Company" "COMPETES_WITH" "Competitor" rs g) as (Hn & Hc & He & Hi).
  eexists. split; [reflexivity|]. split; [exact Hn|]. split; [exact Hc|]. split.
  - intros e H. destruct (He e H) as [H1|(r & x & y & Hr & Hx & Hy & ->)]; [left; exact H1|].
    right. apply list_elem_of_In, Hrs in Hr. destruct Hr as (x' & y' & Hx' & Hy' & ->).
    rewrite lookup_insert_ne in Hx by discriminate. rewrite lookup_insert_eq in Hx, Hy.
    injection Hx as <-. injection Hy as <-. exists x', y'. auto.
  - intros x y Hx Hy. apply (Hi (<["Competitor" := y]> (<["Company" := x]> ∅))).
    + apply list_elem_of_In, Hrs. exists x, y. auto.
    + rewrite lookup_insert_ne by discriminate. apply lookup_insert_eq.
    + apply lookup_insert_eq.
Qed.


(** ** The destinations of [get_competitor_info] *)

Lemma py_eq_true a b : py_eq a b = true -> a = b.
Proof.
  unfold py_eq. destruct a, b; try discriminate; intros H; apply bool_decide_eq_true in H;
    exact H.
Qed.

Lemma py_eq_str a b : py_eq (PStr a) (PStr b) = bool_decide (a = b).
Proof.
  unfold py_eq. destruct (bool_decide_reflect (a = b)) as [->|Hne].
  - apply bool_decide_eq_true. reflexivity.
  - apply bool_decide_eq_false. congruence.
Qed.

Lemma select_eq_in rs col v r :
  In r (select_eq rs col v) <-> In r rs /\ exists x, r !! col = Some x /\ py_eq x v = true.
Proof.
  unfold select_eq. rewrite filter_In. split; intros [H1 H2]; split; try assumption.
  - destruct (r !! col) as [x|]; [|discriminate]. exists x. auto.
  - destruct H2 as (x & -> & H2). exact H2.
Qed.

Lemma select_eq_head rs col v r tl :
  select_eq rs col v = r :: tl -> In r rs /\ r !! col = Some v.
Proof.
  intros H. assert (Hin : In r (select_eq rs col v)) by (rewrite H; left; reflexivity).
  apply select_eq_in in Hin. destruct Hin as (Hin & x & Hx & He).
  apply py_eq_true in He. subst x. auto.
Qed.

Lemma competitor_rows_in code rs codes dst :
  In dst (competitor_rows code rs codes) <->
  exists c tl, In c codes /\ py_eq code (PStr c) = false
               /\ select_eq rs "stock_code" (PStr c) = dst :: tl.
Proof.
  unfold competitor_rows. rewrite in_flat_map. split.
  - intros (c & Hc & Hd). destruct (py_eq code (PStr c)) eqn:E; [destruct Hd|].
    destruct (select_eq rs "stock_code" (PStr c)) as [|d tl] eqn:S; [destruct Hd|].
    destruct Hd as [<-|[]]. exists c, tl. auto.
  - intros (c & tl & Hc & E & S). exists c. split; [exact Hc|]. rewrite E, S. left. reflexivity.
Qed.

Lemma get_competitor_info_spec code df :
  let '(src, dsts) := get_competitor_info code df in
  (dsts = [] \/
   exists tl v, select_eq (rows df) "stock_code" code = src :: tl
                /\ src !! "compete_stock_code_li" = Some v /\ truthy v = true
                /\ dsts = competitor_rows code (rows df) (listed_codes v)).
Proof.
  unfold get_competitor_info.
  destruct (select_eq (rows df) "stock_code" code) as [|src tl] eqn:S; [left; reflexivity|].
  destruct (src !! "compete_stock_code_li") as [v|] eqn:V; [|left; reflexivity].
  destruct (truthy v) eqn:T; cbn [negb]; [|left; reflexivity].
  destruct v; try (left; reflexivity); right; exists tl; eexists; repeat split; eauto.
Qed.

Lemma get_competitor_info_dsts code df dst :
  In dst (get_competitor_info code df).2 ->
  exists c, dst !! "stock_code" = Some (PStr c) /\ py_eq code (PStr c) = false /\ In dst (rows df).
Proof.
  pose proof (get_competitor_info_spec code df) as H.
  destruct (get_competitor_info code df) as [src dsts]. cbn [snd].
  destruct H as [->|(tl & v & _ & _ & _ & ->)]; [intros []|].
  intros Hin. apply competitor_rows_in in Hin. destruct Hin as (c & tl' & _ & E & S).
  apply select_eq_head in S. destruct S as [Hin Hc]. exists c. auto.
Qed.

(** ** Invariants of the competitor step *)

Section CompetitorInvariant.
Variable P : graph -> Prop.
Variable existing : gset string.
Variable df : DataFrame.

(** Every query that the step can run keeps [P]. *)
Hypothesis Hquery :
  forall g code c g',
    P g ->
    (exists r, In r (rows df) /\ r !! "stock_code" = Some code) ->
    py_eq code (PStr c) = false ->
    run_query g (competitor_query (py_str code) c) = Ok g' -> P g'.

Lemma add_competitor_edges_inv code src dsts :
  In src (rows df) -> src !! "stock_code" = Some code ->
  (forall dst, In dst dsts ->
     exists c, dst !! "stock_code" = Some (PStr c) /\ py_eq code (PStr c) = false) ->
  forall g, P g -> P (add_competitor_edges existing code src dsts g).
Proof.
  intros Hin Hsrc. induction dsts as [|dst dsts IH]; intros Hd g Hg; [exact Hg|].
  cbn [add_competitor_edges].
  destruct (Hd dst (or_introl eq_refl)) as (c & Hc & Hne).
  unfold getitem at 1. rewrite Hc.
  assert (IH' : forall g, P g -> P (add_competitor_edges existing code src dsts g)).
  { apply IH. intros d Hdin. apply Hd. right. exact Hdin. }
  destruct (bool_decide _); [apply IH'; exact Hg|].
  rewrite (create_competitor_query src dst code (PStr c) Hsrc Hc). cbn [rbind py_str].
  unfold create_schema.
  destruct (run_query g (competitor_query (py_str code) c)) as [g'|ex] eqn:R; [|exact Hg].
  apply IH'. apply (Hquery g code c g' Hg); eauto.
Qed.

Lemma competitor_step_inv company g : P g -> P (competitor_step existing df g company).
Proof.
  intros Hg. unfold competitor_step.
  destruct (negb (truthy _)); [exact Hg|].
  unfold getitem. destruct (company !! "stock_code") as [code|]; [|exact Hg].
  pose proof (get_competitor_info_spec code df) as Hs.
  pose proof (get_competitor_info_dsts code df) as Hd.
  destruct (get_competitor_info code df) as [src dsts]. cbn [snd] in Hd.
  destruct Hs as [->|(tl & v & Hsel & _ & _ & _)]; [exact Hg|].
  apply select_eq_head in Hsel. destruct Hsel as [Hin Hc].
  apply add_competitor_edges_inv; try assumption.
  intros dst Hdst. destruct (Hd dst Hdst) as (c & H1 & H2 & _). eauto.
Qed.

Lemma competitor_fold_inv companies g :
  P g -> P (foldl (competitor_step existing df) g companies).
Proof.
  revert g. induction companies as [|c cs IH]; intros g Hg; [exact Hg|].
  cbn [foldl]. apply IH, competitor_step_inv, Hg.
Qed.
End CompetitorInvariant.

(** ** No self-loop (C9) *)

Lemma nodup_nid_inj g n1 n2 :
  NoDup (nid <$> nodes g) -> n1 ∈ nodes g -> n2 ∈ nodes g -> nid n1 = nid n2 -> n1 = n2.
Proof.
  induction (nodes g) as [|n ns IH]; intros Hnd H1 H2 E; [inversion H1|].
  cbn in Hnd. apply NoDup_cons in Hnd. destruct Hnd as [Hnin Hnd].
  inversion H1; subst; inversion H2; subst; try reflexivity.
  - exfalso. apply Hnin. rewrite E. apply list_elem_of_fmap_2. assumption.
  - exfalso. apply Hnin. rewrite <- E. apply list_elem_of_fmap_2. assumption.
  - apply IH; assumption.
Qed.

Lemma company_ids_node g code x :
  x ∈ company_ids g code ->
  exists n, n ∈ nodes g /\ nid n = x /\ nlabel n = "Company"
            /\ nprops n !! "stock_code" = Some (Quoted code).
Proof.
  unfold company_ids, match_nodes. intros H. apply list_elem_of_fmap in H.
  destruct H as (n & -> & Hn). apply list_elem_of_In, filter_In in Hn.
  destruct Hn as [Hn Hm]. exists n. split; [apply list_elem_of_In; exact Hn|].
  split; [reflexivity|]. unfold matches, has_props in Hm. cbn in Hm.
  apply andb_prop in Hm. destruct Hm as [Hl Hp]. apply andb_prop in Hp. destruct Hp as [Hp _].
  split; [apply String.eqb_eq; exact Hl|]. apply bool_decide_eq_true in Hp. exact Hp.
Qed.

Lemma node_company_ids g n code :
  n ∈ nodes g -> nlabel n = "Company" -> nprops n !! "stock_code" = Some (Quoted code) ->
  nid n ∈ company_ids g code.
Proof.
  intros Hn Hl Hp. unfold company_ids, match_nodes. apply list_elem_of_fmap_2.
  apply list_elem_of_In, filter_In. split; [apply list_elem_of_In; exact Hn|].
  unfold matches, has_props. cbn. rewrite Hl, Hp. cbn.
  rewrite bool_decide_eq_true_2 by reflexivity. reflexivity.
Qed.

Lemma company_ids_same_nodes g g' code :
  nodes g' = nodes g -> company_ids g' code = company_ids g code.
Proof. intros H. unfold company_ids, match_nodes. rewrite H. reflexivity. Qed.

Lemma company_ids_disjoint g a c x :
  NoDup (nid <$> nodes g) -> a <> c -> x ∈ company_ids g a -> x ∈ company_ids g c -> False.
Proof.
  intros Hnd Hne Ha Hc.
  destruct (company_ids_node g a x Ha) as (n1 & Hn1 & E1 & _ & P1).
  destruct (company_ids_node g c x Hc) as (n2 & Hn2 & E2 & _ & P2).
  assert (n1 = n2) by (apply (nodup_nid_inj g); congruence). subst n2. congruence.
Qed.

Lemma fillna_lookup_other col rs r' k :
  k <> col -> In r' (fillna_empty col rs) -> exists r, In r rs /\ r' !! k = r !! k.
Proof.
  intros Hk Hin. unfold fillna_empty in Hin.
  apply list_elem_of_In, list_elem_of_fmap in Hin. destruct Hin as (r & -> & Hr).
  exists r. split; [apply list_elem_of_In; exact Hr|]. unfold fillna_row.
  destruct (r !! col) as [[]|]; try reflexivity; apply lookup_insert_ne; congruence.
Qed.

Lemma add_competitor_relationships_no_self_loop g total_df competitor_df :
  NoDup (nid <$> nodes g) ->
  (forall r v, In r (rows total_df) -> r !! "stock_code" = Some v -> exists s, v = PStr s) ->
  nodes (add_competitor_relationships g total_df competitor_df) = nodes g
  /\ forall e, e ∈ edges (add_competitor_relationships g total_df competitor_df) ->
       e ∈ edges g \/ (etype e = "COMPETES_WITH" /\ esrc e <> edst e).
Proof.
  intros Hnd Hstr. unfold add_competitor_relationships.
  destruct competitor_df as [cdf|]; [|split; [reflexivity|intros e H; left; exact H]].
  destruct (frame_empty cdf); [split; [reflexivity|intros e H; left; exact H]|].
  destruct (negb _); [split; [reflexivity|intros e H; left; exact H]|].
  apply (competitor_fold_inv
           (fun g' => nodes g' = nodes g
                      /\ forall e, e ∈ edges g' ->
                           e ∈ edges g \/ (etype e = "COMPETES_WITH" /\ esrc e <> edst e))).
  2:{ split; [reflexivity|intros e H; left; exact H]. }
  intros g1 code c g' [Hn He] (r & Hr & Hc) Hne Hrun. cbn [rows] in Hr.
  destruct (fillna_lookup_other "compete_stock_code_li" _ r "stock_code" ltac:(discriminate) Hr)
    as (r0 & Hr0 & E).
  rewrite E in Hc. destruct (Hstr r0 code Hr0 Hc) as [a ->].
  rewrite py_eq_str in Hne. apply bool_decide_eq_false in Hne. cbn [py_str] in Hrun.
  destruct (run_competitor_query g1 a c) as (g2 & Hrun2 & Hn2 & _ & He2 & _).
  rewrite Hrun in Hrun2. injection Hrun2 as <-.
  split; [congruence|]. intros e H.
  destruct (He2 e H) as [H1|(x & y & Hx & Hy & ->)]; [apply He; exact H1|].
  right. split; [reflexivity|]. cbn. intros <-.
  apply (company_ids_disjoint g1 a c x); try assumption. rewrite Hn. exact Hnd.
Qed.

(** C9. The destination list of [get_competitor_info] never holds an entry
    whose stock code equals the stock code asked for, whatever the frame; and
    so, with stock codes that are strings and node identifiers that are
    distinct, the competitor step adds no edge from a node to itself: every
    edge after it was there before or joins two different nodes. *)
Theorem competitor_info_excludes_source :
  (forall stock_code graph_df dst,
     dst ∈ (get_competitor_info stock_code graph_df).2 ->
     exists c, dst !! "stock_code" = Some (PStr c) /\ stock_code <> PStr c
               /\ py_eq stock_code (PStr c) = false)
  /\ (forall g total_df competitor_df,
        NoDup (nid <$> nodes g) ->
        (forall r v, In r (rows total_df) -> r !! "stock_code" = Some v -> exists s, v = PStr s) ->
        forall e, e ∈ edges (add_competitor_relationships g total_df competitor_df) ->
                  e ∈ edges g \/ (etype e = "COMPETES_WITH" /\ esrc e <> edst e)).
Proof.
  split.
  - intros code df dst Hin. apply list_elem_of_In in Hin.
    destruct (get_competitor_info_dsts code df dst Hin) as (c & Hc & Hne & _).
    exists c. split; [exact Hc|]. split; [|exact Hne].
    intros ->. rewrite py_eq_str, bool_decide_eq_true_2 in Hne by reflexivity. discriminate.
  - intros g df cdf Hnd Hstr. apply add_competitor_relationships_no_self_loop; assumption.
Qed.

Lemma competitor_info_excludes_source_witness :
  (exists c, example_company "000002" "Beta" [] !! "stock_code" = Some (PStr c)
             /\ PStr "000001" <> PStr c /\ py_eq (PStr "000001") (PStr c) = false)
  /\ (forall e,
        e ∈ edges (add_competitor_relationships example_graph example_universe
                     (Some example_universe)) ->
        e ∈ edges example_graph \/ (etype e = "COMPETES_WITH" /\ esrc e <> edst e)).
Proof.
  destruct competitor_info_excludes_source as [H1 H2]. split.
  - apply (H1 (PStr "000001") example_universe). vm_compute. left.
  - apply H2.
    + apply (bool_decide_unpack _). vm_compute. exact I.
    + intros r v [<-|[<-|[]]] Hv; vm_compute in Hv; injection Hv as <-; eexists; reflexivity.
Defined.

(** ** The recovery (C1) *)

(** C1, on the code. The one-time step and the write step of three dates are
    run on the empty store for the small universe; the run is then aborted
    with 20240104 in flight and the two dates before it in the log. The
    clean-up query looks for [RECORDED_ON] edges that leave the Date node,
    while the write step draws them from the StockPrice node to the Date
    node, so nothing is bound for deletion, the final [DELETE d] fails on
    the relationships that the Date node still has, and the recovery leaves
    the graph as it was: the three Date nodes, the StockPrice nodes, the
    Indicator node and the FinancialStatements node are all still there. *)
Theorem recovery_leaves_written_dates :
  cleanup_and_exit example_written (RunState (Some "20240104") ["20240102"; "20240103"])
  = example_written
  /\ run_query example_written (cleanup_query "20240104")
     = Raise (ClientError "Cannot delete node, because it still has relationships")
  /\ match_nodes "Date" [("date", Quoted "20240102")] example_written = [4%nat]
  /\ match_nodes "Date" [("date", Quoted "20240103")] example_written = [11%nat]
  /\ match_nodes "Date" [("date", Quoted "20240104")] example_written = [14%nat]
  /\ match_nodes "StockPrice" [] example_written = [7; 10; 12; 13; 15; 16]%nat
  /\ match_nodes "Indicator" [] example_written = [8%nat]
  /\ match_nodes "FinancialStatements" [] example_written = [9%nat]
  /\ Edge 7 "RECORDED_ON" 4 ∈ edges example_written
  /\ out_nodes example_written 4 "RECORDED_ON" "StockPrice" = [].
Proof.
  repeat split; try (vm_compute; reflexivity).
  apply (bool_decide_unpack _). vm_compute. exact I.
Qed.

(** ** One edge for a pair of competitors (C3) *)

Lemma relationship_key_inj a b c d :
  hyphen_free a = true -> hyphen_free b = true ->
  relationship_key a b = relationship_key c d -> a = c /\ b = d.
Proof.
  unfold relationship_key. revert c. induction a as [|x a IH]; intros c Ha Hb E.
  - destruct c as [|y c]; cbn in E.
    + injection E as ->. auto.
    + injection E as <- E. exfalso. subst b. clear -Hb.
      induction c as [|z c IH]; cbn in Hb; [discriminate|].
      apply andb_prop in Hb. destruct Hb as [_ Hb]. auto.
  - cbn in Ha. apply andb_prop in Ha. destruct Ha as [Hx Ha].
    destruct c as [|y c]; cbn in E.
    + injection E as -> _. discriminate.
    + injection E as <- E. destruct (IH c Ha Hb E) as [-> ->]. auto.
Qed.

Lemma nodes_with_in g x label n :
  In n (nodes_with g x label) <-> n ∈ nodes g /\ nid n = x /\ nlabel n = label.
Proof.
  unfold nodes_with. rewrite filter_In, list_elem_of_In, andb_true_iff, Nat.eqb_eq, String.eqb_eq.
  tauto.
Qed.

Lemma existing_key_edge g A B a b :
  graph_wf g -> hyphen_free A = true -> hyphen_free B = true ->
  company_ids g A = [a] -> company_ids g B = [b] ->
  relationship_key A B ∈ check_existing_competitor_relationships g ->
  Edge a "COMPETES_WITH" b ∈ edges g.
Proof.
  intros [_ Hwf] HA HB Ha Hb Hin. unfold check_existing_competitor_relationships in Hin.
  apply elem_of_list_to_set, list_elem_of_In, in_flat_map in Hin.
  destruct Hin as (e & He & Hk).
  destruct (String.eqb_spec (etype e) "COMPETES_WITH") as [Et|]; [|destruct Hk].
  apply in_flat_map in Hk. destruct Hk as (c1 & H1 & Hk).
  apply list_elem_of_In, list_elem_of_fmap in Hk. destruct Hk as (c2 & Hk & H2).
  apply list_elem_of_In in H2.
  apply nodes_with_in in H1. destruct H1 as (Hn1 & E1 & L1).
  apply nodes_with_in in H2. destruct H2 as (Hn2 & E2 & L2).
  destruct (relationship_key_inj A B _ _ HA HB Hk) as [EA EB].
  destruct (Hwf c1 Hn1 L1) as (code1 & P1). destruct (Hwf c2 Hn2 L2) as (code2 & P2).
  unfold prop_text in EA, EB. rewrite P1 in EA. rewrite P2 in EB. cbn in EA, EB. subst code1 code2.
  pose proof (node_company_ids g c1 A Hn1 L1 P1) as I1.
  pose proof (node_company_ids g c2 B Hn2 L2 P2) as I2.
  rewrite Ha in I1. rewrite Hb in I2.
  apply list_elem_of_singleton in I1. apply list_elem_of_singleton in I2.
  destruct e as [s t d]. cbn in *. subst. apply list_elem_of_In. exact He.
Qed.

Lemma fillna_row_stock_code r : fillna_row "compete_stock_code_li" r !! "stock_code" = r !! "stock_code".
Proof.
  unfold fillna_row. destruct (r !! "compete_stock_code_li") as [[]|]; try reflexivity;
    apply lookup_insert_ne; discriminate.
Qed.

Lemma fillna_select rs v :
  select_eq (fillna_empty "compete_stock_code_li" rs) "stock_code" v
  = fillna_empty "compete_stock_code_li" (select_eq rs "stock_code" v).
Proof.
  unfold select_eq, fillna_empty. induction rs as [|r rs IH]; [reflexivity|].
  cbn [fmap list_fmap List.filter]. rewrite fillna_row_stock_code.
  change (list_fmap dict dict (fillna_row "compete_stock_code_li") rs)
    with (fillna_row "compete_stock_code_li" <$> rs).
  rewrite IH. destruct (match r !! "stock_code" with Some x => py_eq x v | None => false end);
    reflexivity.
Qed.

Lemma fillna_row_listed r v c :
  r !! "compete_stock_code_li" = Some v -> In c (listed_codes v) ->
  fillna_row "compete_stock_code_li" r = r /\ truthy v = true.
Proof.
  intros Hv Hc. unfold fillna_row. rewrite Hv.
  destruct v as [| |z|s|l]; try (destruct Hc; fail); split; try reflexivity.
  - cbn. destruct (String.eqb_spec s ""); [subst s; destruct Hc|reflexivity].
  - cbn. destruct l; [destruct Hc|reflexivity].
Qed.

Lemma competitor_query_shape src dst q :
  _create_cypher_query_competitor src dst = Ok q -> exists a b, q = competitor_query a b.
Proof.
  unfold _create_cypher_query_competitor, getitem.
  destruct (src !! "stock_code") as [x|]; [|discriminate].
  destruct (dst !! "stock_code") as [y|]; [|discriminate].
  cbn. intros [= <-]. eauto.
Qed.

Lemma run_competitor_query_mono g a b g' e :
  run_query g (competitor_query a b) = Ok g' -> e ∈ edges g -> e ∈ edges g'.
Proof.
  intros Hrun Hin. destruct (run_competitor_query g a b) as (g2 & Hrun2 & _ & Hc & _).
  rewrite Hrun in Hrun2. injection Hrun2 as <-.
  apply count_edge_pos. apply count_edge_pos in Hin. specialize (Hc e). lia.
Qed.

Lemma add_competitor_edges_mono existing code src dsts g e :
  e ∈ edges g -> e ∈ edges (add_competitor_edges existing code src dsts g).
Proof.
  revert g. induction dsts as [|dst dsts IH]; intros g Hin; [exact Hin|].
  cbn [add_competitor_edges]. destruct (getitem dst "stock_code"); [|exact Hin].
  destruct (bool_decide _); [apply IH; exact Hin|].
  destruct (_create_cypher_query_competitor src dst) as [q|ex] eqn:Q; cbn [rbind]; [|exact Hin].
  destruct (competitor_query_shape src dst q Q) as (x & y & ->).
  unfold create_schema. destruct (run_query g (competitor_query x y)) as [g'|] eqn:R; [|exact Hin].
  apply IH. eapply run_competitor_query_mono; eassumption.
Qed.

Lemma add_competitor_edges_nodes existing code src dsts g :
  nodes (add_competitor_edges existing code src dsts g) = nodes g.
Proof.
  revert g. induction dsts as [|dst dsts IH]; intros g; [reflexivity|].
  cbn [add_competitor_edges]. destruct (getitem dst "stock_code"); [|reflexivity].
  destruct (bool_decide _); [apply IH|].
  destruct (_create_cypher_query_competitor src dst) as [q|ex] eqn:Q; cbn [rbind]; [|reflexivity].
  destruct (competitor_query_shape src dst q Q) as (x & y & ->).
  unfold create_schema. destruct (run_competitor_query g x y) as (g' & -> & Hn & _).
  rewrite IH. exact Hn.
Qed.

Lemma get_competitor_info_listed code df src tl v :
  select_eq (rows df) "stock_code" code = src :: tl ->
  src !! "compete_stock_code_li" = Some v -> truthy v = true ->
  get_competitor_info code df = (src, competitor_rows code (rows df) (listed_codes v)).
Proof.
  intros Hs Hv Ht. unfold get_competitor_info. rewrite Hs, Hv, Ht. cbn [negb].
  destruct v; try reflexivity.
Qed.

Lemma graph_wf_nodes g g' : nodes g' = nodes g -> graph_wf g -> graph_wf g'.
Proof. unfold graph_wf. intros ->. auto. Qed.

Section CompetitorEdge.
Variables (g0 : graph) (total_df competitor_df : DataFrame) (A B : string) (a b : nat).
Variables (rA rB : dict) (tlA tlB : list dict) (v : pyval).
Hypothesis HAB : A <> B.
Hypothesis HhA : hyphen_free A = true.
Hypothesis HhB : hyphen_free B = true.
Hypothesis Hwf : graph_wf g0.
Hypothesis Ha : company_ids g0 A = [a].
Hypothesis Hb : company_ids g0 B = [b].
Hypothesis Hcdf : frame_empty competitor_df = false.
Hypothesis Hcol : "compete_stock_code_li" ∈ columns total_df.
Hypothesis HselA : select_eq (rows total_df) "stock_code" (PStr A) = rA :: tlA.
Hypothesis Hv : rA !! "compete_stock_code_li" = Some v.
Hypothesis HB : In B (listed_codes v).
Hypothesis HselB : select_eq (rows total_df) "stock_code" (PStr B) = rB :: tlB.

Let filled : DataFrame :=
  Frame (columns total_df) (fillna_empty "compete_stock_code_li" (rows total_df)).

Lemma competitor_edge_reached existing dsts :
  relationship_key A B ∉ existing ->
  rA !! "stock_code" = Some (PStr A) ->
  (forall dst, In dst dsts -> exists c, dst !! "stock_code" = Some (PStr c)) ->
  (exists dst, In dst dsts /\ dst !! "stock_code" = Some (PStr B)) ->
  forall g, nodes g = nodes g0 ->
    Edge a "COMPETES_WITH" b ∈ edges (add_competitor_edges existing (PStr A) rA dsts g).
Proof.
  intros Hkey HrA. induction dsts as [|dst dsts IH]; intros Hcodes (d & Hd & Hdc) g Hn.
  { destruct Hd. }
  cbn [add_competitor_edges].
  destruct (Hcodes dst (or_introl eq_refl)) as (c & Hc). unfold getitem at 1. rewrite Hc.
  cbn [py_str].
  assert (Htail : c <> B ->
            forall g, nodes g = nodes g0 ->
              Edge a "COMPETES_WITH" b ∈ edges (add_competitor_edges existing (PStr A) rA dsts g)).
  { intros Hne. apply IH.
    - intros d' Hd'. apply Hcodes. right. exact Hd'.
    - exists d. split; [|exact Hdc]. destruct Hd as [<-|Hd]; [|exact Hd]. congruence. }
  destruct (bool_decide_reflect (relationship_key A c ∈ existing)) as [Hin|Hnin].
  { apply Htail; [|exact Hn]. intros ->. contradiction. }
  rewrite (create_competitor_query rA dst (PStr A) (PStr c) HrA Hc). cbn [rbind py_str].
  unfold create_schema.
  destruct (run_competitor_query g A c) as (g' & -> & Hn' & _ & _ & Hi).
  destruct (decide (c = B)) as [->|Hne].
  - apply add_competitor_edges_mono. apply Hi.
    + rewrite (company_ids_same_nodes g0 g A Hn), Ha. left.
    + rewrite (company_ids_same_nodes g0 g B Hn), Hb. left.
  - apply Htail; [exact Hne|congruence].
Qed.

Lemma competitor_run_once g :
  nodes g = nodes g0 ->
  (count_edge (Edge a "COMPETES_WITH" b) g <= 1)%nat ->
  nodes (add_competitor_relationships g total_df (Some competitor_df)) = nodes g0
  /\ count_edge (Edge a "COMPETES_WITH" b)
       (add_competitor_relationships g total_df (Some competitor_df)) = 1%nat.
Proof.
  intros Hn Hcount. unfold add_competitor_relationships. rewrite Hcdf.
  rewrite bool_decide_eq_true_2 by exact Hcol. cbn [negb].
  fold filled. set (existing := check_existing_competitor_relationships g).
  set (e := Edge a "COMPETES_WITH" b) in *.
  (* what every query keeps *)
  pose (P := fun (lo : nat) (g1 : graph) =>
               nodes g1 = nodes g0 /\ (lo <= count_edge e g1 <= 1)%nat).
  assert (Hkeep : forall lo,
            forall g1 code c g', P lo g1 ->
              (exists r, In r (rows filled) /\ r !! "stock_code" = Some code) ->
              py_eq code (PStr c) = false ->
              run_query g1 (competitor_query (py_str code) c) = Ok g' -> P lo g').
  { intros lo g1 code c g' [Hn1 Hc1] _ _ Hrun.
    destruct (run_competitor_query g1 (py_str code) c) as (g2 & Hrun2 & Hn2 & Hc2 & _).
    rewrite Hrun in Hrun2. injection Hrun2 as <-. specialize (Hc2 e).
    split; [congruence|lia]. }
  destruct (select_eq_head _ _ _ _ _ HselA) as [HinA HcodeA].
  destruct (fillna_row_listed rA v B Hv HB) as [HfillA Htruthy].
  destruct (Nat.eq_dec (count_edge e g) 1%nat) as [E1|E0].
  { destruct (competitor_fold_inv (P 1%nat) existing filled (Hkeep 1%nat) (rows filled) g)
      as [Hn' Hc']; [split; [exact Hn|lia]|].
    split; [exact Hn'|lia]. }
  assert (Hzero : count_edge e g = O) by lia.
  assert (Hkey : relationship_key A B ∉ existing).
  { intros Hin. apply count_edge_zero in Hzero. apply Hzero.
    apply (existing_key_edge g A B a b); try assumption.
    - apply (graph_wf_nodes g0); assumption.
    - rewrite (company_ids_same_nodes g0 g A Hn). exact Ha.
    - rewrite (company_ids_same_nodes g0 g B Hn). exact Hb. }
  destruct (in_split rA (rows total_df) HinA) as (pre & post & Hsplit).
  assert (Hrows : rows filled
                  = (fillna_empty "compete_stock_code_li" pre
                     ++ rA :: fillna_empty "compete_stock_code_li" post)%list).
  { unfold filled. cbn [rows]. rewrite Hsplit. unfold fillna_empty. rewrite fmap_app.
    cbn [fmap list_fmap]. rewrite HfillA. reflexivity. }
  rewrite Hrows, foldl_app. cbn [foldl].
  set (g1 := foldl (competitor_step existing filled) g _).
  assert (H1 : P O g1).
  { apply (competitor_fold_inv (P O) existing filled (Hkeep O)). split; [exact Hn|lia]. }
  set (g2 := competitor_step existing filled g1 rA).
  assert (H2 : P 1%nat g2).
  { assert (H2' : P O g2)
      by (apply (competitor_step_inv (P O) existing filled (Hkeep O)); exact H1).
    destruct H1 as [Hn1 Hc1]. destruct H2' as [Hn2 Hc2].
    split; [exact Hn2|]. split; [|apply Hc2].
    apply count_edge_pos. subst g2. unfold competitor_step.
    unfold dict_get. rewrite Hv, Htruthy. cbn [negb]. unfold getitem. rewrite HcodeA.
    assert (HselA' : select_eq (rows filled) "stock_code" (PStr A)
                     = rA :: fillna_empty "compete_stock_code_li" tlA).
    { unfold filled. cbn [rows]. rewrite fillna_select, HselA. unfold fillna_empty.
      cbn [fmap list_fmap]. rewrite HfillA. reflexivity. }
    rewrite (get_competitor_info_listed (PStr A) filled rA _ v HselA' Hv Htruthy).
    apply competitor_edge_reached; try assumption.
    - intros dst Hdst. apply competitor_rows_in in Hdst.
      destruct Hdst as (c & tl & _ & _ & Hs). apply select_eq_head in Hs. exists c. apply Hs.
    - exists (fillna_row "compete_stock_code_li" rB). split.
      + apply competitor_rows_in. exists B, (fillna_empty "compete_stock_code_li" tlB).
        split; [exact HB|]. split.
        * rewrite py_eq_str. apply bool_decide_eq_false. exact HAB.
        * unfold filled. cbn [rows]. rewrite fillna_select, HselB. reflexivity.
      + rewrite fillna_row_stock_code. apply (select_eq_head _ _ _ _ _ HselB). }
  destruct (competitor_fold_inv (P 1%nat) existing filled (Hkeep 1%nat)
              (fillna_empty "compete_stock_code_li" post) g2 H2) as [Hn3 Hc3].
  split; [exact Hn3|lia].
Qed.

Lemma competitor_runs n :
  (count_edge (Edge a "COMPETES_WITH" b) g0 <= 1)%nat ->
  let g := Nat.iter n (fun g => add_competitor_relationships g total_df (Some competitor_df)) g0 in
  nodes g = nodes g0
  /\ (count_edge (Edge a "COMPETES_WITH" b) g <= 1)%nat
  /\ ((1 <= n)%nat -> count_edge (Edge a "COMPETES_WITH" b) g = 1%nat).
Proof.
  intros H0. induction n as [|n IH]; cbn zeta.
  - cbn. split; [reflexivity|]. split; [exact H0|lia].
  - rewrite Nat.iter_succ. cbn zeta in IH. destruct IH as (Hn & Hc & _).
    destruct (competitor_run_once _ Hn Hc) as [Hn' Hc']. split; [exact Hn'|].
    split; [rewrite Hc'; lia|]. intros _. exact Hc'.
Qed.
End CompetitorEdge.




(** ** Running a well-scoped query *)

Lemma extends_refl g : extends g g.
Proof. split; auto. Qed.

Lemma extends_trans g1 g2 g3 : extends g1 g2 -> extends g2 g3 -> extends g1 g3.
Proof. intros [H1 H2] [H3 H4]. split; auto. Qed.

Lemma merge_rel_extends g x ty y : extends g (merge_rel g x ty y).
Proof.
  split.
  - rewrite merge_rel_nodes. auto.
  - intros e He. apply count_edge_pos. apply count_edge_pos in He.
    pose proof (merge_rel_count g x ty y e). lia.
Qed.

Lemma match_nodes_in label ps g x :
  x ∈ match_nodes label ps g <->
  exists n, n ∈ nodes g /\ nid n = x /\ matches label ps n = true.
Proof.
  unfold match_nodes. rewrite list_elem_of_fmap. split.
  - intros (n & -> & Hn). apply list_elem_of_In, filter_In in Hn. destruct Hn as [Hn Hm].
    exists n. rewrite list_elem_of_In. auto.
  - intros (n & Hn & <- & Hm). exists n. split; [reflexivity|].
    apply list_elem_of_In, filter_In. rewrite <- list_elem_of_In. auto.
Qed.

Lemma candidates_mono g g' c : extends g g' -> candidates g c -> candidates g' c.
Proof.
  intros [Hn _]. destruct c; cbn; auto. intros Hne Hnil.
  destruct (match_nodes label ps g) as [|x xs] eqn:E; [contradiction|].
  assert (Hx : x ∈ match_nodes label ps g) by (rewrite E; left).
  apply match_nodes_in in Hx. destruct Hx as (n & Hin & Hid & Hm).
  assert (Hx' : x ∈ match_nodes label ps g')
    by (apply match_nodes_in; exists n; auto).
  rewrite Hnil in Hx'. inversion Hx'.
Qed.

Lemma holds_frame g g' r r' c :
  extends g g' -> (forall w, w ∈ uses c -> r' !! w = r !! w) -> holds g r c -> holds g' r' c.
Proof.
  intros [Hn He] Hr. destruct c; cbn; auto.
  - intros (n & Hin & Hv & Hm). exists n. split; [auto|]. split; [|exact Hm].
    rewrite Hr; [exact Hv|]. cbn. left.
  - intros (n & Hin & Hv & Hm). exists n. split; [auto|]. split; [|exact Hm].
    rewrite Hr; [exact Hv|]. cbn. left.
  - intros (x & y & Hx & Hy & Hin). exists x, y.
    rewrite !Hr; [auto| cbn; right; left | cbn; left].
Qed.

Lemma matches_new_node label ps n :
  NoDup ps.*1 -> matches label ps (Node n label (list_to_map ps)) = true.
Proof.
  intros Hnd. unfold matches, has_props. cbn [nlabel nprops].
  rewrite String.eqb_refl. cbn [andb]. apply forallb_forall. intros [k v] Hin.
  apply bool_decide_eq_true. cbn. apply elem_of_list_to_map_1; [exact Hnd|].
  apply list_elem_of_In. exact Hin.
Qed.

(** One clause on one row. *)
Lemma exec_row_ok bound c g r :
  ok_clause bound c = true ->
  (forall w, w ∈ bound -> is_Some (r !! w)) ->
  candidates g c ->
  exists g' rs,
    exec_row c g r = Ok (g', rs) /\ extends g g' /\ rs <> []
    /\ forall r', r' ∈ rs ->
         holds g' r' c
         /\ (forall w, w ∈ bound -> r' !! w = r !! w)
         /\ (forall w, w ∈ binder c -> is_Some (r' !! w)).
Proof.
  intros Hok Hb Hc. destruct c as [v label ps|v label ps|src ty dst|vs| | |];
    cbn [ok_clause] in Hok; try discriminate.
  - (* MERGE of a node *)
    apply andb_prop in Hok. destruct Hok as [Hv Hnd].
    apply negb_true_iff, bool_decide_eq_false in Hv. apply bool_decide_eq_true in Hnd.
    assert (Hother : forall (x : nat) w, w ∈ bound -> <[v := x]> r !! w = r !! w).
    { intros x w Hw. apply lookup_insert_ne. intros ->. contradiction. }
    cbn [exec_row]. destruct (match_nodes label ps g) as [|m ms] eqn:E.
    + eexists _, _. split; [reflexivity|]. split; [|split; [discriminate|]].
      * split; cbn; [|auto]. intros n Hn. apply elem_of_app. left. exact Hn.
      * intros r' Hr'. apply list_elem_of_singleton in Hr'. subst r'. split; [|split].
        -- cbn. eexists. split; [apply elem_of_app; right; left|].
           split; [apply lookup_insert_eq|]. apply matches_new_node. exact Hnd.
        -- intros w Hw. apply Hother. exact Hw.
        -- intros w Hw. cbn in Hw. apply list_elem_of_singleton in Hw. subst w.
           rewrite lookup_insert_eq. eauto.
    + eexists _, _. split; [reflexivity|]. split; [apply extends_refl|].
      split; [discriminate|]. intros r' Hr'.
      apply list_elem_of_fmap in Hr'. destruct Hr' as (x & -> & Hx).
      rewrite <- E in Hx. apply match_nodes_in in Hx. destruct Hx as (n & Hin & <- & Hm).
      split; [|split].
      * cbn. exists n. split; [exact Hin|]. split; [apply lookup_insert_eq|exact Hm].
      * intros w Hw. apply Hother. exact Hw.
      * intros w Hw. cbn in Hw. apply list_elem_of_singleton in Hw. subst w.
        rewrite lookup_insert_eq. eauto.
  - (* MATCH *)
    apply negb_true_iff, bool_decide_eq_false in Hok. cbn in Hc. cbn [exec_row].
    eexists _, _. split; [reflexivity|]. split; [apply extends_refl|]. split.
    + destruct (match_nodes label ps g); [contradiction|discriminate].
    + intros r' Hr'. apply list_elem_of_fmap in Hr'. destruct Hr' as (x & -> & Hx).
      apply match_nodes_in in Hx. destruct Hx as (n & Hin & <- & Hm). split; [|split].
      * cbn. exists n. split; [exact Hin|]. split; [apply lookup_insert_eq|exact Hm].
      * intros w Hw. apply lookup_insert_ne. intros ->. contradiction.
      * intros w Hw. cbn in Hw. apply list_elem_of_singleton in Hw. subst w.
        rewrite lookup_insert_eq. eauto.
  - (* MERGE of a relationship *)
    apply andb_prop in Hok. destruct Hok as [Hs Hd].
    apply bool_decide_eq_true in Hs. apply bool_decide_eq_true in Hd.
    destruct (Hb src Hs) as [x Hx]. destruct (Hb dst Hd) as [y Hy].
    cbn [exec_row]. rewrite Hx, Hy.
    eexists _, _. split; [reflexivity|]. split; [apply merge_rel_extends|].
    split; [discriminate|]. intros r' Hr'. apply list_elem_of_singleton in Hr'. subst r'.
    split; [|split].
    * cbn. exists x, y. split; [exact Hx|]. split; [exact Hy|]. apply merge_rel_in.
    * reflexivity.
    * intros w Hw. inversion Hw.
  - (* WITH *)
    cbn [exec_row]. eexists _, _. split; [reflexivity|]. split; [apply extends_refl|].
    split; [discriminate|]. intros r' Hr'. apply list_elem_of_singleton in Hr'. subst r'.
    split; [exact I|]. split.
    + intros w Hw. rewrite forallb_forall in Hok.
      assert (Hin : w ∈ vs).
      { pose proof (Hok w (proj1 (list_elem_of_In _ _) Hw)) as Hb'.
        apply bool_decide_eq_true in Hb'. exact Hb'. }
      destruct (r !! w) as [x|] eqn:Hx.
      * apply map_lookup_filter_Some. split; [exact Hx|exact Hin].
      * apply map_lookup_filter_None. left. exact Hx.
    + intros w Hw. inversion Hw.
Qed.

Lemma ok_clause_uses bound c w :
  ok_clause bound c = true -> w ∈ uses c -> w ∈ (binder c ++ bound)%list.
Proof.
  destruct c; cbn [ok_clause uses binder]; intros Hok Hw; try discriminate.
  - apply elem_of_app. left. exact Hw.
  - apply elem_of_app. left. exact Hw.
  - apply andb_prop in Hok. destruct Hok as [Hs Hd].
    apply bool_decide_eq_true in Hs. apply bool_decide_eq_true in Hd.
    cbn [app]. apply list_elem_of_In in Hw. destruct Hw as [<-|[<-|[]]]; assumption.
  - inversion Hw.
Qed.

Lemma reached_frame bound done g g' rs :
  extends g g' -> reached bound done g rs -> reached bound done g' rs.
Proof.
  intros Hext Hr r Hin. destruct (Hr r Hin) as [Hb Hd]. split; [exact Hb|].
  eapply Forall_impl; [exact Hd|]. intros c Hc. cbn beta in Hc.
  apply (holds_frame g g' r r c Hext); auto.
Qed.

(** One clause on all rows. *)
Lemma for_rows_ok bound done c rs :
  ok_clause bound c = true ->
  (forall c' w, c' ∈ done -> w ∈ uses c' -> w ∈ bound) ->
  forall g,
    candidates g c ->
    reached bound done g rs ->
    exists g' rs',
      for_rows (exec_row c) g rs = Ok (g', rs') /\ extends g g'
      /\ (rs <> [] -> rs' <> [])
      /\ reached (binder c ++ bound) (c :: done) g' rs'.
Proof.
  intros Hok Huses. induction rs as [|r rs IH]; intros g Hc Hr.
  - exists g, []. split; [reflexivity|]. split; [apply extends_refl|].
    split; [auto|]. intros r Hin. inversion Hin.
  - destruct (Hr r) as [Hb Hd]; [left|].
    destruct (exec_row_ok bound c g r Hok Hb Hc) as (g1 & out1 & E1 & X1 & N1 & H1).
    destruct (IH g1) as (g2 & out2 & E2 & X2 & _ & H2).
    { apply (candidates_mono g); assumption. }
    { apply (reached_frame _ _ g); [exact X1|]. intros r' Hin. apply Hr. right. exact Hin. }
    exists g2, (out1 ++ out2)%list. cbn [for_rows]. rewrite E1, E2.
    split; [reflexivity|]. split; [apply (extends_trans _ g1); assumption|].
    split.
    { intros _ Happ. apply app_eq_nil in Happ. destruct Happ as [Happ _]. contradiction. }
    intros r' Hin. apply elem_of_app in Hin. destruct Hin as [Hin|Hin]; [|apply H2; exact Hin].
    destruct (H1 r' Hin) as (Hh & Hsame & Hnew). split.
    + intros w Hw. apply elem_of_app in Hw. destruct Hw as [Hw|Hw]; [apply Hnew; exact Hw|].
      rewrite Hsame; [apply Hb|]; exact Hw.
    + constructor.
      * apply (holds_frame g1 g2 r' r' c X2); auto.
      * apply Forall_forall. intros c' Hin'.
        destruct (Forall_forall (holds g r) done) as [Hfa _]. specialize (Hfa Hd c' Hin').
        apply (holds_frame g g2 r r' c'); [apply (extends_trans _ g1); assumption| |exact Hfa].
        intros w Hw. apply Hsame. apply (Huses c'); assumption.
Qed.

(** A whole query. *)
Lemma exec_clauses_ok q :
  forall bound done g rs,
    ok_query bound q = true ->
    (forall c' w, c' ∈ done -> w ∈ uses c' -> w ∈ bound) ->
    Forall (candidates g) q ->
    reached bound done g rs ->
    exists g' rs',
      exec_clauses q g rs = Ok (g', rs') /\ extends g g'
      /\ (rs <> [] -> rs' <> [])
      /\ forall r', r' ∈ rs' -> Forall (holds g' r') (rev q ++ done).
Proof.
  induction q as [|c q IH]; intros bound done g rs Hok Huses Hc Hr.
  - exists g, rs. split; [reflexivity|]. split; [apply extends_refl|]. split; [auto|].
    intros r' Hin. apply Hr. exact Hin.
  - cbn [ok_query] in Hok. apply andb_prop in Hok. destruct Hok as [Hok1 Hok2].
    inversion Hc as [|? ? Hc1 Hc2]; subst.
    destruct (for_rows_ok bound done c rs Hok1 Huses g Hc1 Hr) as (g1 & rs1 & E1 & X1 & N1 & R1).
    destruct (IH (binder c ++ bound)%list (c :: done) g1 rs1 Hok2) as (g2 & rs2 & E2 & X2 & N2 & R2).
    { intros c' w Hc' Hw. apply elem_of_cons in Hc'. destruct Hc' as [->|Hc'].
      - apply ok_clause_uses; assumption.
      - apply elem_of_app. right. apply (Huses c'); assumption. }
    { eapply Forall_impl; [exact Hc2|]. intros c'. apply candidates_mono. exact X1. }
    { exact R1. }
    exists g2, rs2. cbn [exec_clauses]. rewrite E1. split; [exact E2|].
    split; [apply (extends_trans _ g1); assumption|]. split; [auto|].
    intros r' Hin. cbn [rev]. rewrite <- app_assoc. apply R2. exact Hin.
Qed.

(** A well-scoped query whose [MATCH] patterns find nodes runs to the end:
    nothing is lost from the graph, and some row makes every clause hold. *)
Lemma run_query_ok g q :
  ok_query [] q = true ->
  Forall (candidates g) q ->
  exists g',
    run_query g q = Ok g' /\ extends g g' /\ exists r, Forall (holds g' r) q.
Proof.
  intros Hok Hc.
  destruct (exec_clauses_ok q [] [] g [∅] Hok) as (g' & rs' & E & X & N & R).
  { intros c' w Hin. inversion Hin. }
  { exact Hc. }
  { intros r _. split; [|constructor]. intros w Hw. inversion Hw. }
  exists g'. unfold run_query. rewrite E. split; [reflexivity|]. split; [exact X|].
  destruct rs' as [|r rs']; [exfalso; apply N; [discriminate|reflexivity]|].
  exists r. specialize (R r). rewrite app_nil_r in R.
  apply Forall_forall. intros c Hin.
  destruct (Forall_forall (holds g' r) (rev q)) as [Hfa _].
  apply Hfa; [apply R; left|]. apply list_elem_of_In. apply (proj1 (in_rev q c)).
  apply list_elem_of_In. exact Hin.
Qed.

(** ** The record when the filings have nothing (C4) *)

Lemma first_statement_none finstate code qs :
  (forall bsns_year reprt_code quarter_nm,
     (bsns_year, reprt_code, quarter_nm) ∈ qs ->
     no_data (finstate code (pretty bsns_year) reprt_code)) ->
  first_statement finstate code qs = None.
Proof.
  induction qs as [|[[b rc] qn] qs IH]; intros H; [reflexivity|].
  cbn [first_statement]. pose proof (H b rc qn (list_elem_of_here _ _)) as Hn.
  assert (IH' : first_statement finstate code qs = None).
  { apply IH. intros b' rc' qn' Hin. apply (H b' rc' qn'). right. exact Hin. }
  destruct (finstate code (pretty b) rc) as [[[|r l]|]|]; cbn in Hn; try contradiction; exact IH'.
Qed.

Lemma get_quarter_list_compact y m d :
  0 <= y <= 9999 -> 0 <= m <= 99 ->
  exists front, _get_quarter_list (compact y m d) = Ok (front ++ [(y - 1, "11011", "4")])%list.
Proof.
  intros Hy Hm. unfold _get_quarter_list, compact.
  pose proof (py_int_fmt4 y Hy) as Py. pose proof (py_int_fmt2 m Hm) as Pm.
  unfold fmt4, fmt2 in *. rewrite !append_cons, !append_nil.
  cbn [substring]. rewrite Py, Pm.
  repeat case_bool_decide.
  - exists []. reflexivity.
  - exists [(y, "11013", "1")]. reflexivity.
  - exists [(y, "11012", "2"); (y, "11013", "1")]. reflexivity.
  - exists [(y, "11014", "3"); (y, "11012", "2"); (y, "11013", "1")]. reflexivity.
Qed.

Lemma get_financial_statements_sentinel finstate code y m d :
  0 <= y <= 9999 -> 0 <= m <= 99 ->
  no_statements finstate code (compact y m d) ->
  get_financial_statements finstate code (compact y m d)
  = Ok (fs_record code (y - 1) "4" ((fun _ => 0) <$> fs_fields)).
Proof.
  intros Hy Hm Hno. destruct (get_quarter_list_compact y m d Hy Hm) as [front Hq].
  unfold get_financial_statements. rewrite Hq. cbn [rbind].
  rewrite first_statement_none.
  - rewrite last_snoc. reflexivity.
  - intros b rc qn Hin. apply (Hno _ b rc qn Hq Hin).
Qed.

Lemma matches_spec label ps n :
  matches label ps n = true ->
  nlabel n = label /\ forall k v, (k, v) ∈ ps -> nprops n !! k = Some v.
Proof.
  unfold matches, has_props. intros H. apply andb_prop in H. destruct H as [Hl Hp].
  split; [apply String.eqb_eq; exact Hl|]. intros k v Hin.
  rewrite forallb_forall in Hp. specialize (Hp (k, v) (proj1 (list_elem_of_In _ _) Hin)).
  apply bool_decide_eq_true in Hp. exact Hp.
Qed.

(** The daily query of a record with a stock code, for a graph that has the
    company: it is well scoped and its [MATCH] finds a node. *)
Lemma daily_query_ok date company price fs_dict q code g :
  _create_cypher_query_daily_data date company price fs_dict = Ok q ->
  company !! "stock_code" = Some code ->
  match_nodes "Company" [("stock_code", quoted code)] g <> [] ->
  ok_query [] q = true /\ Forall (candidates g) q.
Proof.
  unfold _create_cypher_query_daily_data. intros Hq Hcode Hm.
  destruct (_get_date_components date) as [[[[y m] d] qu]|].
  2:{ injection Hq as <-. split; [reflexivity|constructor]. }
  unfold getitem in Hq. rewrite Hcode in Hq.
  destruct (price !! "stck_hgpr"); [|discriminate].
  destruct (price !! "stck_lwpr"); [|discriminate].
  destruct (price !! "stck_oprc"); [|discriminate].
  destruct (price !! "stck_clpr"); [|discriminate].
  cbn [rbind] in Hq. injection Hq as <-.
  destruct fs_dict as [fs|].
  - split; [reflexivity|]. repeat constructor. exact Hm.
  - split; [reflexivity|]. repeat constructor. exact Hm.
Qed.

(** C4. A company that is in the graph, has a price record for the date
    and has no statement for any candidate quarter of the date: the record
    of the collector is all zero and names the fourth quarter of the year
    before, the write of the company succeeds, and the graph then has a
    [FinancialStatements] node with the seven amounts 0 that is linked by
    [FOR_QUARTER] and [FOR_YEAR] to the [Quarter] and [Year] nodes of the
    calendar quarter and year of the date (not to those that the record
    names). *)
Theorem sentinel_statement_linked
    (finstate : pyval -> string -> string -> result (option (list dict)))
    (price_df fs_df : DataFrame) (g : graph) (company price fs : dict)
    (prices statements : list dict) (code : string) (y m d : Z) (s e : nat) :
  0 <= y <= 9999 -> 0 <= m <= 99 -> 0 <= d <= 99 ->
  company !! "stock_code" = Some (PStr code) ->
  match_nodes "Company" [("stock_code", Quoted code)] g <> [] ->
  select_eq (rows price_df) "stock_code" (PStr code) = price :: prices ->
  (forall k, k ∈ ["stck_hgpr"; "stck_lwpr"; "stck_oprc"; "stck_clpr"] -> is_Some (price !! k)) ->
  no_statements finstate (PStr code) (compact y m d) ->
  get_financial_statements finstate (PStr code) (compact y m d) = Ok fs ->
  select_eq (rows fs_df) "stock_code" (PStr code) = fs :: statements ->
  fs !! "year" = Some (PInt (y - 1)) /\ fs !! "quarter" = Some (PStr "4")
  /\ exists g' fsn qn yn,
       daily_step neo4j price_df (Some fs_df) (compact y m d) (g, (s, e)) company
       = Ok (g', (S s, e))
       /\ extends g g'
       /\ fsn ∈ nodes g' /\ nlabel fsn = "FinancialStatements"
       /\ (forall k, k ∈ fs_fields -> nprops fsn !! k = Some (Bare "0"))
       /\ qn ∈ nodes g' /\ nlabel qn = "Quarter"
       /\ nprops qn !! "year" = Some (Bare (pretty y))
       /\ nprops qn !! "quarter" = Some (Bare (pretty ((m - 1) / 3 + 1)))
       /\ yn ∈ nodes g' /\ nlabel yn = "Year"
       /\ nprops yn !! "year" = Some (Bare (pretty y))
       /\ Edge (nid fsn) "FOR_QUARTER" (nid qn) ∈ edges g'
       /\ Edge (nid fsn) "FOR_YEAR" (nid yn) ∈ edges g'.
Proof.
  intros Hy Hm Hd Hcode Hnode Hprice Hkeys Hno Hfs Hsel.
  rewrite (get_financial_statements_sentinel finstate (PStr code) y m d Hy Hm Hno) in Hfs.
  injection Hfs as Hfs. symmetry in Hfs.
  split; [rewrite Hfs; reflexivity|]. split; [rewrite Hfs; reflexivity|].
  destruct (_create_cypher_query_daily_data (compact y m d) company price (Some fs))
    as [q|err] eqn:Hq.
  2:{ exfalso. unfold _create_cypher_query_daily_data, compact in Hq.
      rewrite (get_date_components_compact y m d Hy Hm Hd) in Hq.
      unfold getitem in Hq. rewrite Hcode in Hq.
      destruct (Hkeys "stck_hgpr") as [v1 E1]; [apply list_elem_of_In; cbn; auto 10|].
      destruct (Hkeys "stck_lwpr") as [v2 E2]; [apply list_elem_of_In; cbn; auto 10|].
      destruct (Hkeys "stck_oprc") as [v3 E3]; [apply list_elem_of_In; cbn; auto 10|].
      destruct (Hkeys "stck_clpr") as [v4 E4]; [apply list_elem_of_In; cbn; auto 10|].
      rewrite E1, E2, E3, E4 in Hq. discriminate. }
  destruct (daily_query_ok _ _ _ _ q (PStr code) g Hq Hcode Hnode) as [Hok Hcand].
  destruct (run_query_ok g q Hok Hcand) as (g' & Hrun & Hext & r & Hall).
  assert (Hstep : daily_step neo4j price_df
                    (Some fs_df) (compact y m d) (g, (s, e)) company = Ok (g', (S s, e))).
  { rewrite daily_step_columns;
      [|apply (has_column_found _ _ _ _ _ Hprice)
       |intros df [= <-]; apply (has_column_found _ _ _ _ _ Hsel)].
    unfold getitem at 1. rewrite Hcode. cbn [rbind]. rewrite Hprice.
    cbn [fmap option_fmap option_map mbind option_bind]. rewrite Hsel. cbn [first_row].
    rewrite Hq. cbn [rbind neo4j store_create_schema]. unfold create_schema.
    rewrite Hrun. reflexivity. }
  unfold _create_cypher_query_daily_data, compact in Hq.
  rewrite (get_date_components_compact y m d Hy Hm Hd) in Hq.
  unfold getitem in Hq. rewrite Hcode in Hq.
  destruct (price !! "stck_hgpr"); [|discriminate].
  destruct (price !! "stck_lwpr"); [|discriminate].
  destruct (price !! "stck_oprc"); [|discriminate].
  destruct (price !! "stck_clpr"); [|discriminate].
  cbn [rbind] in Hq. injection Hq as <-.
  rewrite Forall_forall in Hall.
  pose proof (Hall (Merge "Quarter" "Quarter"
                      [("year", bare (PInt y)); ("quarter", bare (PInt ((m - 1) / 3 + 1)))]))
    as HQ.
  pose proof (Hall (Merge "Year" "Year" [("year", bare (PInt y))])) as HY.
  pose proof (Hall (Merge "FinancialStatements" "FinancialStatements"
                      ((fun k => (k, bare (dict_get fs k (PInt 0)))) <$> fs_fields))) as HF.
  pose proof (Hall (MergeRel "FinancialStatements" "FOR_QUARTER" "Quarter")) as HFQ.
  pose proof (Hall (MergeRel "FinancialStatements" "FOR_YEAR" "Year")) as HFY.
  destruct HQ as (qn & Hqn & Hrq & Hmq); [apply list_elem_of_In; cbn; auto 30|].
  destruct HY as (yn & Hyn & Hry & Hmy); [apply list_elem_of_In; cbn; auto 30|].
  destruct HF as (fsn & Hfsn & Hrf & Hmf); [apply list_elem_of_In; cbn; auto 30|].
  destruct HFQ as (x1 & y1 & Hx1 & Hy1 & He1); [apply list_elem_of_In; cbn; auto 30|].
  destruct HFY as (x2 & y2 & Hx2 & Hy2 & He2); [apply list_elem_of_In; cbn; auto 30|].
  rewrite Hrf in Hx1, Hx2. rewrite Hrq in Hy1. rewrite Hry in Hy2.
  injection Hx1 as <-. injection Hx2 as <-. injection Hy1 as <-. injection Hy2 as <-.
  apply matches_spec in Hmq, Hmy, Hmf.
  destruct Hmq as [Lq Pq]. destruct Hmy as [Ly Py]. destruct Hmf as [Lf Pf].
  exists g', fsn, qn, yn.
  split; [exact Hstep|]. split; [exact Hext|]. split; [exact Hfsn|]. split; [exact Lf|].
  split.
  { intros k Hk. apply Pf. subst fs. apply list_elem_of_In in Hk. cbn in Hk.
    apply list_elem_of_In.
    destruct Hk as [<-|[<-|[<-|[<-|[<-|[<-|[<-|[]]]]]]]]; cbn; auto 30. }
  split; [exact Hqn|]. split; [exact Lq|].
  split; [apply Pq; left|]. split; [apply Pq; right; left|].
  split; [exact Hyn|]. split; [exact Ly|]. split; [apply Py; left|].
  split; [exact He1|exact He2].
Qed.

Lemma sentinel_statement_linked_witness :
  exists g' fsn qn yn,
    daily_step neo4j (example_prices "20240102" 100) (example_statements "20240102")
      "20240102" (example_graph, (O, O))
      (example_company "000001" "Alpha" ["000001"; "000002"])
    = Ok (g', (1%nat, O))
    /\ nlabel fsn = "FinancialStatements"
    /\ nprops fsn !! "revenue" = Some (Bare "0")
    /\ nprops qn !! "year" = Some (Bare "2024")
    /\ nprops qn !! "quarter" = Some (Bare "1")
    /\ nprops yn !! "year" = Some (Bare "2024")
    /\ Edge (nid fsn) "FOR_QUARTER" (nid qn) ∈ edges g'
    /\ Edge (nid fsn) "FOR_YEAR" (nid yn) ∈ edges g'.
Proof.
  destruct (sentinel_statement_linked (fun _ _ _ => Ok None)
              (example_prices "20240102" 100)
              (Frame ("stock_code" :: "year" :: "quarter" :: fs_fields)
                 [fs_record (PStr "000001") 2023 "4" [0; 0; 0; 0; 0; 0; 0]])
              example_graph (example_company "000001" "Alpha" ["000001"; "000002"])
              (example_price "000001" "20240102" 100)
              (fs_record (PStr "000001") 2023 "4" [0; 0; 0; 0; 0; 0; 0])
              [] [] "000001" 2024 1 2 O O)
    as (_ & _ & g' & fsn & qn & yn & Hstep & _ & _ & Lf & Pf & _ & _ & Pqy & Pqq & _ & _ & Pyy
        & E1 & E2).
  - lia.
  - lia.
  - lia.
  - reflexivity.
  - vm_compute. discriminate.
  - reflexivity.
  - intros k Hk. apply list_elem_of_In in Hk. cbn in Hk.
    destruct Hk as [<-|[<-|[<-|[<-|[]]]]]; eexists; reflexivity.
  - intros quarters b rc qn _ _. exact I.
  - reflexivity.
  - reflexivity.
  - exists g', fsn, qn, yn. split; [exact Hstep|]. split; [exact Lf|].
    split; [apply Pf; left|]. split; [exact Pqy|]. split; [exact Pqq|].
    split; [exact Pyy|]. split; [exact E1|exact E2].
Defined.

(** C4, on the code: the quarter that the record names. For the first
    company of the small universe and the date 20240102 the filings have
    nothing; the record names quarter 4 of 2023, but the node written for it
    is linked to the [Quarter] node of quarter 1 of 2024 and to the [Year]
    node of 2024, and the graph has no [Quarter] or [Year] node of 2023. *)
Lemma sentinel_linked_to_calendar_quarter :
  let g := example_write example_graph "20240102" 100 in
  (exists fs,
     get_financial_statements (fun _ _ _ => Ok None) (PStr "000001") "20240102" = Ok fs
     /\ fs !! "year" = Some (PInt 2023) /\ fs !! "quarter" = Some (PStr "4"))
  /\ match_nodes "FinancialStatements" [] g = [9%nat]
  /\ out_nodes g 9 "FOR_QUARTER" "Quarter" = [5%nat]
  /\ out_nodes g 9 "FOR_YEAR" "Year" = [6%nat]
  /\ match_nodes "Quarter" [("year", Bare "2024"); ("quarter", Bare "1")] g = [5%nat]
  /\ match_nodes "Year" [("year", Bare "2024")] g = [6%nat]
  /\ match_nodes "Quarter" [("year", Bare "2023"); ("quarter", Bare "4")] g = []
  /\ match_nodes "Year" [("year", Bare "2023")] g = [].
Proof.
  intros g. split.
  - exists (fs_record (PStr "000001") 2023 "4" [0; 0; 0; 0; 0; 0; 0]).
    repeat split; vm_compute; reflexivity.
  - subst g. repeat split; vm_compute; reflexivity.
Qed.

(** ** Writing twice *)

Lemma grown_refl labels g : grown labels g g.
Proof. split; [exists []; rewrite app_nil_r; split; [reflexivity|constructor]|auto]. Qed.

Lemma grown_trans l1 l2 g1 g2 g3 :
  grown l1 g1 g2 -> grown l2 g2 g3 -> grown (l1 ++ l2)%list g1 g3.
Proof.
  intros [(n1 & E1 & F1) H1] [(n2 & E2 & F2) H2]. split; [|auto].
  exists (n1 ++ n2)%list. split; [rewrite E2, E1, app_assoc; reflexivity|].
  apply Forall_app. split.
  - eapply Forall_impl; [exact F1|]. intros n Hn. apply elem_of_app. left. exact Hn.
  - eapply Forall_impl; [exact F2|]. intros n Hn. apply elem_of_app. right. exact Hn.
Qed.

Lemma grown_extends labels g g' : grown labels g g' -> extends g g'.
Proof.
  intros [(news & E & _) H]. split; [|exact H]. intros n Hn. rewrite E.
  apply elem_of_app. left. exact Hn.
Qed.

Lemma exec_row_grown c g r g' rs :
  writes c = true -> exec_row c g r = Ok (g', rs) -> grown (merged_labels [c]) g g'.
Proof.
  destruct c; cbn [writes]; intros Hw H; try discriminate; cbn [exec_row] in H.
  - destruct (match_nodes label ps g).
    + injection H as <- <-. split; [|auto]. eexists. split; [reflexivity|].
      constructor; [|constructor]. cbn. left.
    + injection H as <- <-. apply grown_refl.
  - injection H as <- <-. apply grown_refl.
  - destruct (r !! src); [|discriminate]. destruct (r !! dst); [|discriminate].
    injection H as <- <-. split.
    + exists []. rewrite merge_rel_nodes, app_nil_r. split; [reflexivity|constructor].
    + apply merge_rel_extends.
  - injection H as <- <-. apply grown_refl.
Qed.

Lemma for_rows_grown c rs :
  writes c = true ->
  forall g g' rs', for_rows (exec_row c) g rs = Ok (g', rs') -> grown (merged_labels [c]) g g'.
Proof.
  intros Hw. induction rs as [|r rs IH]; intros g g' rs' H; cbn [for_rows] in H.
  - injection H as <- <-. apply grown_refl.
  - destruct (exec_row c g r) as [[g1 out1]|] eqn:E1; [|discriminate].
    destruct (for_rows (exec_row c) g1 rs) as [[g2 out2]|] eqn:E2; [|discriminate].
    injection H as <- <-.
    pose proof (grown_trans _ _ _ _ _ (exec_row_grown _ _ _ _ _ Hw E1) (IH _ _ _ E2)) as Hg.
    destruct Hg as [(news & E & F) He]. split; [|exact He]. exists news. split; [exact E|].
    eapply Forall_impl; [exact F|]. intros n Hn. cbn beta in Hn.
    apply elem_of_app in Hn. destruct Hn; assumption.
Qed.

Lemma separate_labels_cons c q :
  separate_labels (c :: q) = true ->
  writes c = true
  /\ match c with
     | Merge _ label _ | Match _ label _ => label ∉ merged_labels q
     | _ => True
     end
  /\ separate_labels q = true.
Proof.
  cbn [separate_labels]. intros H. apply andb_prop in H. destruct H as [H H3].
  apply andb_prop in H. destruct H as [H1 H2]. split; [exact H1|]. split; [|exact H3].
  destruct c; try exact I; apply negb_true_iff, bool_decide_eq_false in H2; exact H2.
Qed.

Lemma exec_clauses_grown q :
  separate_labels q = true ->
  forall g rs g' rs', exec_clauses q g rs = Ok (g', rs') -> grown (merged_labels q) g g'.
Proof.
  induction q as [|c q IH]; intros Hs g rs g' rs' H; cbn [exec_clauses] in H.
  - injection H as <- <-. apply grown_refl.
  - apply separate_labels_cons in Hs. destruct Hs as (Hw & _ & Hs).
    destruct (for_rows (exec_row c) g rs) as [[g1 rs1]|] eqn:E1; [|discriminate].
    change (merged_labels (c :: q))
      with (match c with Merge _ label _ => [label] | _ => [] end ++ merged_labels q)%list.
    replace (match c with Merge _ label _ => [label] | _ => [] end)
      with (merged_labels [c]) by (cbn; apply app_nil_r).
    apply (grown_trans (merged_labels [c]) (merged_labels q) g g1 g').
    + apply (for_rows_grown c rs Hw g g1 rs1 E1).
    + apply (IH Hs g1 rs1 g' rs' H).
Qed.

Lemma match_nodes_grown labels g g' label ps :
  grown labels g g' -> label ∉ labels -> match_nodes label ps g' = match_nodes label ps g.
Proof.
  intros [(news & E & F) _] Hl. unfold match_nodes. rewrite E, List.filter_app.
  assert (Hnil : List.filter (matches label ps) news = []).
  { clear E. induction F as [|n news Hn _ IH]; [reflexivity|]. cbn [List.filter].
    unfold matches at 1. destruct (String.eqb_spec (nlabel n) label) as [Heq|Hne].
    - exfalso. apply Hl. rewrite <- Heq. exact Hn.
    - cbn [andb]. exact IH. }
  rewrite Hnil, app_nil_r. reflexivity.
Qed.

(** [MERGE] of a node over rows that all find it. *)
Lemma for_rows_merge_found v label ps g rs :
  match_nodes label ps g <> [] ->
  for_rows (exec_row (Merge v label ps)) g rs
  = Ok (g, flat_map (fun r => (fun n => <[v := n]> r) <$> match_nodes label ps g) rs).
Proof.
  intros Hne. apply for_rows_pure. intros r. cbn [exec_row].
  destruct (match_nodes label ps g); [contradiction|reflexivity].
Qed.

Lemma match_nodes_created label ps g :
  NoDup ps.*1 ->
  match_nodes label ps g = [] ->
  match_nodes label ps
    (Graph (nodes g ++ [Node (fresh g) label (list_to_map ps)])%list (edges g))
  = [fresh g].
Proof.
  intros Hnd Hnil. unfold match_nodes in *. cbn [nodes]. rewrite List.filter_app.
  apply fmap_nil_inv in Hnil. rewrite Hnil. cbn [List.filter app].
  rewrite (matches_new_node label ps (fresh g) Hnd). reflexivity.
Qed.

(** What [MERGE] of a node leaves: the rows are the old rows, each bound to
    every node that fits the pattern in the graph afterwards. *)
Lemma for_rows_merge_node v label ps g rs g' rs' :
  NoDup ps.*1 -> rs <> [] ->
  for_rows (exec_row (Merge v label ps)) g rs = Ok (g', rs') ->
  match_nodes label ps g' <> []
  /\ rs' = flat_map (fun r => (fun n => <[v := n]> r) <$> match_nodes label ps g') rs.
Proof.
  intros Hnd Hrs H. destruct (match_nodes label ps g) as [|m ms] eqn:E.
  - destruct rs as [|r rs]; [contradiction|]. cbn [for_rows exec_row] in H. rewrite E in H.
    pose proof (match_nodes_created label ps g Hnd E) as Hnew.
    rewrite for_rows_merge_found in H by (rewrite Hnew; discriminate).
    injection H as <- <-. rewrite Hnew. split; [discriminate|reflexivity].
  - rewrite for_rows_merge_found in H by (rewrite E; discriminate).
    injection H as <- <-. rewrite E. split; [discriminate|reflexivity].
Qed.

Lemma for_rows_nil f g : for_rows f g [] = Ok (g, []).
Proof. reflexivity. Qed.

(** [MERGE] of a relationship over rows whose ends are joined already. *)
Lemma for_rows_merge_rel_found src ty dst g rs :
  (forall r, r ∈ rs -> exists x y, r !! src = Some x /\ r !! dst = Some y
                                   /\ Edge x ty y ∈ edges g) ->
  for_rows (exec_row (MergeRel src ty dst)) g rs = Ok (g, rs).
Proof.
  induction rs as [|r rs IH]; intros H; [reflexivity|].
  destruct (H r) as (x & y & Hx & Hy & He); [left|].
  cbn [for_rows exec_row]. rewrite Hx, Hy. unfold merge_rel.
  rewrite (bool_decide_eq_true_2 _ He). rewrite IH; [reflexivity|].
  intros r' Hr'. apply H. right. exact Hr'.
Qed.

(** What [MERGE] of a relationship leaves: the same rows, the ends of each
    joined. *)
Lemma for_rows_merge_rel_inv src ty dst rs :
  forall g g' rs',
    for_rows (exec_row (MergeRel src ty dst)) g rs = Ok (g', rs') ->
    rs' = rs
    /\ forall r, r ∈ rs -> exists x y, r !! src = Some x /\ r !! dst = Some y
                                       /\ Edge x ty y ∈ edges g'.
Proof.
  induction rs as [|r rs IH]; intros g g' rs' H; cbn [for_rows] in H.
  - injection H as <- <-. split; [reflexivity|]. intros r Hr. inversion Hr.
  - destruct (exec_row (MergeRel src ty dst) g r) as [[g1 out1]|] eqn:E1; [|discriminate].
    destruct (for_rows (exec_row (MergeRel src ty dst)) g1 rs) as [[g2 out2]|] eqn:E2;
      [|discriminate].
    injection H as <- <-. cbn [exec_row] in E1.
    destruct (r !! src) as [x|] eqn:Hx; [|discriminate].
    destruct (r !! dst) as [y|] eqn:Hy; [|discriminate].
    injection E1 as <- <-. destruct (IH _ _ _ E2) as [-> Hall]. split; [reflexivity|].
    intros r' Hr'. apply elem_of_cons in Hr'. destruct Hr' as [->|Hr']; [|apply Hall; exact Hr'].
    exists x, y. split; [exact Hx|]. split; [exact Hy|].
    assert (Hg : grown (merged_labels [MergeRel src ty dst]) (merge_rel g x ty y) g2)
      by (apply (for_rows_grown (MergeRel src ty dst) rs eq_refl _ _ _ E2)).
    apply Hg. apply merge_rel_in.
Qed.

(** A write query run again on the graph that it left gives the same rows
    and changes nothing. *)
Lemma exec_clauses_again q :
  separate_labels q = true ->
  forall g rs g' rs',
    exec_clauses q g rs = Ok (g', rs') -> exec_clauses q g' rs = Ok (g', rs').
Proof.
  induction q as [|c q IH]; intros Hs g rs g' rs' H; cbn [exec_clauses] in H.
  - injection H as <- <-. reflexivity.
  - apply separate_labels_cons in Hs. destruct Hs as (Hw & Hl & Hs).
    destruct (for_rows (exec_row c) g rs) as [[g1 rs1]|] eqn:E1; [|discriminate].
    pose proof (exec_clauses_grown q Hs _ _ _ _ H) as Hg.
    pose proof (IH Hs _ _ _ _ H) as Hagain.
    cbn [exec_clauses].
    assert (Hfirst : for_rows (exec_row c) g' rs = Ok (g', rs1)); [|rewrite Hfirst; exact Hagain].
    destruct c as [v label ps|v label ps|src ty dst|vs| | |]; cbn [writes] in Hw;
      try discriminate.
    + apply bool_decide_eq_true in Hw. destruct rs as [|r rs].
      { cbn [for_rows] in E1. injection E1 as <- <-. reflexivity. }
      destruct (for_rows_merge_node v label ps g (r :: rs) g1 rs1 Hw) as [Hne ->];
        [discriminate|exact E1|].
      rewrite <- (match_nodes_grown _ _ _ label ps Hg Hl) in Hne |- *.
      apply for_rows_merge_found. exact Hne.
    + rewrite (for_rows_pure _ (fun r => (fun n => <[v := n]> r) <$> match_nodes label ps g))
        in E1 by reflexivity.
      injection E1 as <- <-.
      rewrite (for_rows_pure _ (fun r => (fun n => <[v := n]> r) <$> match_nodes label ps g'))
        by reflexivity.
      rewrite (match_nodes_grown _ _ _ label ps Hg Hl). reflexivity.
    + destruct (for_rows_merge_rel_inv _ _ _ _ _ _ _ E1) as [-> Hall].
      apply for_rows_merge_rel_found. intros r Hr.
      destruct (Hall r Hr) as (x & y & Hx & Hy & He). exists x, y.
      split; [exact Hx|]. split; [exact Hy|]. apply Hg. exact He.
    + rewrite (for_rows_pure _ (fun r => [filter (fun kv => kv.1 ∈ vs) r])) in E1 by reflexivity.
      injection E1 as <- <-.
      apply (for_rows_pure _ (fun r => [filter (fun kv => kv.1 ∈ vs) r])). reflexivity.
Qed.

Lemma run_query_again g q g' :
  separate_labels q = true -> run_query g q = Ok g' -> run_query g' q = Ok g'.
Proof.
  unfold run_query. intros Hs H.
  destruct (exec_clauses q g [∅]) as [[g1 rs1]|] eqn:E; [|discriminate].
  injection H as <-. rewrite (exec_clauses_again q Hs _ _ _ _ E). reflexivity.
Qed.

Ltac read_keys H :=
  unfold getitem in H;
  repeat match type of H with
         | context [?d !! ?k] =>
             match type of d with
             | gmap string pyval => destruct (d !! k); [|discriminate H]
             end
         end;
  cbn [rbind] in H.

Lemma built_separate q : built q -> separate_labels q = true.
Proof.
  intros [(c & H)|[(src & dst & H)|[(date & c & p & H)|(date & c & p & fs & H)]]].
  - unfold _create_cypher_query_company in H. read_keys H. injection H as <-. reflexivity.
  - unfold _create_cypher_query_competitor in H. read_keys H. injection H as <-. reflexivity.
  - unfold _create_cypher_query_stock in H.
    destruct (_get_date_components date) as [[[[y m] d] qu]|];
      [|injection H as <-; reflexivity].
    read_keys H. injection H as <-. reflexivity.
  - unfold _create_cypher_query_daily_data in H.
    destruct (_get_date_components date) as [[[[y m] d] qu]|];
      [|injection H as <-; reflexivity].
    read_keys H. injection H as <-. destruct fs; reflexivity.
Qed.

(** Idempotent writes. A query that a builder returns and that the store has
    run changes nothing when it is run again on the graph that it left. *)
Theorem write_again (g g' : graph) (q : query) :
  built q -> create_schema g q = Ok g' -> create_schema g' q = Ok g'.
Proof.
  intros Hb H. unfold create_schema in *.
  apply (run_query_again g q g' (built_separate q Hb) H).
Qed.

Lemma write_again_witness :
  let q := competitor_query "000001" "000002" in
  create_schema example_graph q = Ok example_graph.
Proof.
  intros q. apply (write_again example_companies example_graph q).
  - right. left. exists (example_company "000001" "Alpha" []), (example_company "000002" "Beta" []).
    reflexivity.
  - vm_compute. reflexivity.
Defined.

(** When the store has run a query that a builder returns, the nodes of
    before are the first nodes of the graph and every edge is still there. *)
Lemma write_keeps (g g' : graph) (q : query) :
  built q -> create_schema g q = Ok g' -> grown (merged_labels q) g g'.
Proof.
  intros Hb H. unfold create_schema, run_query in H.
  destruct (exec_clauses q g [∅]) as [[g1 rs1]|] eqn:E; [|discriminate].
  injection H as <-. apply (exec_clauses_grown q (built_separate q Hb) _ _ _ _ E).
Qed.

(** ** A company that the graph does not have *)

Lemma exec_clauses_app q1 q2 g rs :
  exec_clauses (q1 ++ q2) g rs
  = match exec_clauses q1 g rs with
    | Ok (g1, rs1) => exec_clauses q2 g1 rs1
    | Raise e => Raise e
    end.
Proof.
  revert g rs. induction q1 as [|c q1 IH]; intros g rs; [reflexivity|].
  cbn [app exec_clauses]. destruct (for_rows (exec_row c) g rs) as [[g1 rs1]|]; [apply IH|].
  reflexivity.
Qed.

(** With no row left the rest of a query does nothing. *)
Lemma exec_clauses_no_row q g : exec_clauses q g [] = Ok (g, []).
Proof. induction q as [|c q IH]; [reflexivity|]. cbn [exec_clauses for_rows]. exact IH. Qed.

Lemma flat_map_nil {A B} (rs : list A) : flat_map (fun _ : A => @nil B) rs = [].
Proof. induction rs as [|r rs IH]; [reflexivity|exact IH]. Qed.

Lemma exec_row_node_edges c g r g' rs :
  match c with Merge _ _ _ | Match _ _ _ | With _ => True | _ => False end ->
  exec_row c g r = Ok (g', rs) -> edges g' = edges g.
Proof.
  destruct c; intros Hc H; try contradiction; cbn [exec_row] in H.
  - destruct (match_nodes label ps g); injection H as <- <-; reflexivity.
  - injection H as <- <-. reflexivity.
  - injection H as <- <-. reflexivity.
Qed.

Lemma for_rows_node_edges c rs :
  match c with Merge _ _ _ | Match _ _ _ | With _ => True | _ => False end ->
  forall g g' rs', for_rows (exec_row c) g rs = Ok (g', rs') -> edges g' = edges g.
Proof.
  intros Hc. induction rs as [|r rs IH]; intros g g' rs' H; cbn [for_rows] in H.
  - injection H as <- <-. reflexivity.
  - destruct (exec_row c g r) as [[g1 out1]|] eqn:E1; [|discriminate].
    destruct (for_rows (exec_row c) g1 rs) as [[g2 out2]|] eqn:E2; [|discriminate].
    injection H as <- <-. rewrite (IH _ _ _ E2). apply (exec_row_node_edges c g r g1 out1 Hc E1).
Qed.

Lemma exec_clauses_node_edges q :
  Forall (fun c => match c with Merge _ _ _ | Match _ _ _ | With _ => True | _ => False end) q ->
  forall g rs g' rs', exec_clauses q g rs = Ok (g', rs') -> edges g' = edges g.
Proof.
  induction 1 as [|c q Hc _ IH]; intros g rs g' rs' H; cbn [exec_clauses] in H.
  - injection H as <- <-. reflexivity.
  - destruct (for_rows (exec_row c) g rs) as [[g1 rs1]|] eqn:E1; [|discriminate].
    rewrite (IH _ _ _ _ H). apply (for_rows_node_edges c rs Hc _ _ _ E1).
Qed.

(** The daily query up to its [MATCH] of the company, and the rest. *)
Lemma daily_query_split date company price fs_dict q code :
  _create_cypher_query_daily_data date company price fs_dict = Ok q ->
  company !! "stock_code" = Some code ->
  q = [] \/
  exists front rest,
    q = (front ++ Match "Company" "Company" [("stock_code", quoted code)] :: rest)%list
    /\ Forall (fun c => match c with Merge _ _ _ | Match _ _ _ | With _ => True | _ => False end)
         front
    /\ merged_labels front = ["Date"; "Quarter"; "Year"; "StockPrice"; "Indicator"]
    /\ separate_labels front = true.
Proof.
  unfold _create_cypher_query_daily_data. intros H Hcode.
  destruct (_get_date_components date) as [[[[y m] d] qu]|];
    [|injection H as <-; left; reflexivity].
  right. unfold getitem in H. rewrite Hcode in H.
  destruct (price !! "stck_hgpr"); [|discriminate].
  destruct (price !! "stck_lwpr"); [|discriminate].
  destruct (price !! "stck_oprc"); [|discriminate].
  destruct (price !! "stck_clpr"); [|discriminate].
  cbn [rbind] in H. injection H as <-.
  eexists [_; _; _; _; _; _], _. split; [reflexivity|].
  split; [repeat constructor|]. split; reflexivity.
Qed.

(** A company without a [Company] node. When the graph has no [Company]
    node of the stock code, a daily write that the store accepts links
    nothing: the edges are those of before, the only new nodes are the
    [Date], [Quarter], [Year], [StockPrice] and [Indicator] nodes merged
    before the company is looked up, and the company is counted as a success
    all the same. *)
Theorem daily_step_without_company
    (price_df : DataFrame) (fs_df : option DataFrame) (date : string)
    (g g' : graph) (company : dict) (code : pyval) (s e s' e' : nat) :
  company !! "stock_code" = Some code ->
  match_nodes "Company" [("stock_code", quoted code)] g = [] ->
  daily_step neo4j price_df fs_df date (g, (s, e)) company = Ok (g', (s', e')) ->
  edges g' = edges g
  /\ (exists news,
        nodes g' = (nodes g ++ news)%list
        /\ Forall (fun n => nlabel n ∈ ["Date"; "Quarter"; "Year"; "StockPrice"; "Indicator"])
             news)
  /\ match_nodes "FinancialStatements" [] g' = match_nodes "FinancialStatements" [] g
  /\ ((s', e') = (S s, e) \/ (g' = g /\ (s', e') = (s, S e))).
Proof.
  intros Hcode Hnone H. apply daily_step_inv in H. unfold getitem at 1 in H.
  rewrite Hcode in H. cbn [rbind] in H.
  assert (Hsame : edges g = edges g
                  /\ (exists news, nodes g = (nodes g ++ news)%list
                        /\ Forall (fun n => nlabel n ∈ ["Date"; "Quarter"; "Year";
                                                         "StockPrice"; "Indicator"]) news)
                  /\ match_nodes "FinancialStatements" [] g
                     = match_nodes "FinancialStatements" [] g).
  { split; [reflexivity|]. split; [|reflexivity]. exists []. rewrite app_nil_r.
    split; [reflexivity|constructor]. }
  destruct (select_eq (rows price_df) "stock_code" code) as [|price prices].
  { injection H as <- <- <-. destruct Hsame as (? & ? & ?). repeat split; auto. }
  destruct (_create_cypher_query_daily_data date company price
              (((fun df => select_eq (rows df) "stock_code" code) <$> fs_df) ≫= first_row))
    as [q|err] eqn:Hq; cbn [rbind] in H.
  2:{ destruct (getitem company "stock_abbrv"); [|discriminate]. cbn [rbind] in H.
      injection H as <- <- <-. destruct Hsame as (? & ? & ?). repeat split; auto. }
  cbn [neo4j store_create_schema] in H. unfold create_schema, run_query in H.
  destruct (exec_clauses q g [∅]) as [[g1 rs1]|] eqn:E.
  2:{ destruct (getitem company "stock_abbrv"); [|discriminate]. cbn [rbind] in H.
      injection H as <- <- <-. destruct Hsame as (? & ? & ?). repeat split; auto. }
  injection H as <- <- <-.
  destruct (daily_query_split _ _ _ _ q code Hq Hcode)
    as [->|(front & rest & -> & Hfront & Hlabels & Hsep)].
  { cbn [exec_clauses] in E. injection E as <- <-.
    destruct Hsame as (? & ? & ?). repeat split; auto. }
  rewrite exec_clauses_app in E.
  destruct (exec_clauses front g [∅]) as [[g2 rs2]|] eqn:E2; [|discriminate].
  pose proof (exec_clauses_grown front Hsep _ _ _ _ E2) as Hg. rewrite Hlabels in Hg.
  cbn [exec_clauses] in E.
  rewrite (for_rows_pure _ (fun r => (fun n => <["Company" := n]> r)
                                       <$> match_nodes "Company"
                                             [("stock_code", quoted code)] g2))
    in E by reflexivity.
  rewrite (match_nodes_grown _ _ _ _ _ Hg) in E.
  2:{ intros Hin. apply list_elem_of_In in Hin. cbn in Hin.
      destruct Hin as [Hin|[Hin|[Hin|[Hin|[Hin|[]]]]]]; discriminate. }
  rewrite Hnone in E. cbn [fmap list_fmap] in E. rewrite flat_map_nil in E.
  rewrite exec_clauses_no_row in E. injection E as <- <-.
  split; [apply (exec_clauses_node_edges front Hfront _ _ _ _ E2)|].
  split; [apply Hg|]. split; [|left; reflexivity].
  apply (match_nodes_grown _ _ _ _ _ Hg).
  intros Hin. apply list_elem_of_In in Hin. cbn in Hin.
  destruct Hin as [Hin|[Hin|[Hin|[Hin|[Hin|[]]]]]]; discriminate.
Qed.

Lemma daily_step_without_company_witness :
  let g := Graph [] [] in
  exists g',
    daily_step neo4j (example_prices "20240102" 100) None "20240102" (g, (O, O))
      (example_company "000001" "Alpha" []) = Ok (g', (1%nat, O))
    /\ edges g' = edges g.
Proof.
  intros g.
  pose (g' := match daily_step neo4j (example_prices "20240102" 100) None "20240102"
                      (g, (O, O)) (example_company "000001" "Alpha" []) with
              | Ok (g', _) => g'
              | Raise _ => g
              end).
  assert (E : daily_step neo4j (example_prices "20240102" 100) None "20240102" (g, (O, O))
                (example_company "000001" "Alpha" []) = Ok (g', (1%nat, O)))
    by (vm_compute; reflexivity).
  exists g'. split; [exact E|].
  apply (daily_step_without_company (example_prices "20240102" 100) None "20240102"
           g g' (example_company "000001" "Alpha" []) (PStr "000001") O O 1%nat O).
  - reflexivity.
  - reflexivity.
  - exact E.
Defined.

(** ** What the write of a company leaves *)

(** The company record in the graph. When the store has run the query of a
    company record, the graph has a [Company] node with the stock code of
    the record, its name with quotes escaped and its list of competitor
    codes joined by a comma and a space, a [Sector] node of the sector of
    the record, and a [BELONGS_TO] edge from the first to the second. *)
Theorem company_written (company_dict : dict) (q : query) (g g' : graph)
    (stock_code stock_nm stock_sector_nm : pyval) :
  _create_cypher_query_company company_dict = Ok q ->
  create_schema g q = Ok g' ->
  company_dict !! "stock_code" = Some stock_code ->
  company_dict !! "stock_nm" = Some stock_nm ->
  company_dict !! "stock_sector_nm" = Some stock_sector_nm ->
  exists c s,
    c ∈ nodes g' /\ nlabel c = "Company"
    /\ nprops c !! "stock_code" = Some (Quoted (py_str stock_code))
    /\ nprops c !! "stock_nm" = Some (Quoted (escape_string stock_nm))
    /\ nprops c !! "compete_stock_code_li"
       = Some (Quoted (escape_string
                         (join_if_list (dict_get company_dict "compete_stock_code_li" (PStr "")))))
    /\ s ∈ nodes g' /\ nlabel s = "Sector"
    /\ nprops s !! "stock_sector_nm" = Some (Quoted (escape_string stock_sector_nm))
    /\ Edge (nid c) "BELONGS_TO" (nid s) ∈ edges g'.
Proof.
  intros Hq Hrun Hcode Hnm Hsector.
  unfold _create_cypher_query_company in Hq. unfold getitem in Hq.
  rewrite Hcode, Hnm, Hsector in Hq.
  destruct (company_dict !! "stock_abbrv"); [|discriminate].
  destruct (company_dict !! "stock_nm_eng"); [|discriminate].
  destruct (company_dict !! "listing_dt"); [|discriminate].
  destruct (company_dict !! "outstanding_shares"); [|discriminate].
  destruct (company_dict !! "kospi200_item_yn"); [|discriminate].
  cbn [rbind] in Hq. injection Hq as <-.
  unfold create_schema in Hrun.
  match type of Hrun with run_query g ?q = _ =>
    destruct (run_query_ok g q) as (g1 & Hrun1 & _ & r & Hall);
      [reflexivity|repeat constructor|]
  end.
  rewrite Hrun in Hrun1. injection Hrun1 as <-.
  inversion Hall as [|? ? HC Hall1]; subst. inversion Hall1 as [|? ? HS Hall2]; subst.
  inversion Hall2 as [|? ? HR _]; subst.
  destruct HC as (c & Hc & Hrc & Hmc). destruct HS as (s & Hs & Hrs & Hms).
  destruct HR as (x & y & Hx & Hy & He).
  rewrite Hrc in Hx. rewrite Hrs in Hy. injection Hx as <-. injection Hy as <-.
  apply matches_spec in Hmc, Hms. destruct Hmc as [Lc Pc]. destruct Hms as [Ls Ps].
  exists c, s. split; [exact Hc|]. split; [exact Lc|].
  split; [apply Pc; apply list_elem_of_In; cbn; auto 20|].
  split; [apply Pc; apply list_elem_of_In; cbn; auto 20|].
  split; [apply Pc; apply list_elem_of_In; cbn; auto 20|].
  split; [exact Hs|]. split; [exact Ls|]. split; [apply Ps; left|]. exact He.
Qed.

Lemma company_written_witness :
  exists c s,
    c ∈ nodes example_companies /\ nlabel c = "Company"
    /\ nprops c !! "stock_code" = Some (Quoted "000001")
    /\ nprops c !! "compete_stock_code_li" = Some (Quoted "000001, 000002")
    /\ s ∈ nodes example_companies /\ nlabel s = "Sector"
    /\ Edge (nid c) "BELONGS_TO" (nid s) ∈ edges example_companies.
Proof.
  pose (record := example_company "000001" "Alpha" ["000001"; "000002"]).
  pose (q := match _create_cypher_query_company record with Ok q => q | Raise _ => [] end).
  destruct (company_written record q example_companies example_companies
              (PStr "000001") (PStr "Alpha") (PStr "IT"))
    as (c & s & Hc & Lc & Pcode & _ & Pli & Hs & Ls & _ & He).
  - reflexivity.
  - vm_compute. reflexivity.
  - reflexivity.
  - reflexivity.
  - reflexivity.
  - exists c, s. split; [exact Hc|]. split; [exact Lc|]. split; [exact Pcode|].
    split; [exact Pli|]. split; [exact Hs|]. split; [exact Ls|exact He].
Defined.

(** ** The loops of the write steps only add *)

Lemma keeps_refl g : keeps g g.
Proof. split; [exists []; rewrite app_nil_r; reflexivity|auto]. Qed.

Lemma keeps_trans g1 g2 g3 : keeps g1 g2 -> keeps g2 g3 -> keeps g1 g3.
Proof.
  intros [(n1 & E1) H1] [(n2 & E2) H2]. split; [|auto].
  exists (n1 ++ n2)%list. rewrite E2, E1, app_assoc. reflexivity.
Qed.

Lemma grown_keeps labels g g' : grown labels g g' -> keeps g g'.
Proof. intros [(news & E & _) H]. split; [exists news; exact E|exact H]. Qed.

Lemma add_companies_keeps companies :
  forall g g', add_companies_to_graph g companies = Ok g' -> keeps g g'.
Proof.
  induction companies as [|company companies IH]; intros g g' H; cbn [add_companies_to_graph] in H.
  - injection H as <-. apply keeps_refl.
  - destruct (_create_cypher_query_company company) as [q|err] eqn:Hq; cbn [rbind] in H.
    + destruct (create_schema g q) as [g1|err] eqn:Hrun.
      * apply (keeps_trans g g1 g'); [|apply IH; exact H].
        apply (grown_keeps (merged_labels q)). apply write_keeps; [|exact Hrun].
        left. exists company. exact Hq.
      * destruct (getitem company "stock_abbrv"); [|discriminate]. apply IH. exact H.
    + destruct (getitem company "stock_abbrv"); [|discriminate]. apply IH. exact H.
Qed.

Lemma daily_step_keeps price_df fs_df date g s e company g' s' e' :
  daily_step neo4j price_df fs_df date (g, (s, e)) company = Ok (g', (s', e')) -> keeps g g'.
Proof.
  intros H. apply daily_step_inv in H.
  destruct (getitem company "stock_code") as [code|]; [|discriminate]. cbn [rbind] in H.
  destruct (select_eq (rows price_df) "stock_code" code) as [|price prices].
  { injection H as <- <- <-. apply keeps_refl. }
  destruct (_create_cypher_query_daily_data date company price _) as [q|err] eqn:Hq;
    cbn [rbind] in H.
  - cbn [neo4j store_create_schema] in H. destruct (create_schema g q) as [g1|err] eqn:Hrun.
    + injection H as <- <- <-. apply (grown_keeps (merged_labels q)).
      apply write_keeps; [|exact Hrun]. right. right. right. eauto.
    + destruct (getitem company "stock_abbrv"); [|discriminate]. injection H as <- <- <-.
      apply keeps_refl.
  - destruct (getitem company "stock_abbrv"); [|discriminate]. injection H as <- <- <-.
    apply keeps_refl.
Qed.

Lemma daily_loop_keeps price_df fs_df date companies :
  forall g s e, keeps g (daily_loop neo4j price_df fs_df date (g, (s, e)) companies).1.
Proof.
  induction companies as [|company companies IH]; intros g s e; cbn [daily_loop].
  - apply keeps_refl.
  - destruct (daily_step neo4j price_df fs_df date (g, (s, e)) company)
      as [[g1 [s1 e1]]|err] eqn:Hstep.
    + apply (keeps_trans g g1); [|apply IH]. apply (daily_step_keeps _ _ _ _ _ _ _ _ _ _ Hstep).
    + apply keeps_refl.
Qed.

Lemma competitor_step_keeps existing df company g :
  nodes (competitor_step existing df g company) = nodes g
  /\ forall e, e ∈ edges g -> e ∈ edges (competitor_step existing df g company).
Proof.
  unfold competitor_step. destruct (negb (truthy _)); [auto|].
  destruct (getitem company "stock_code") as [code|]; [|auto].
  destruct (get_competitor_info code df) as [src dsts].
  split; [apply add_competitor_edges_nodes|]. intros e. apply add_competitor_edges_mono.
Qed.

(** The write steps only add. The loop over the companies, the competitor
    step and the write step of a date leave every node of the graph in its
    place and every edge in the graph; the competitor step adds no node. *)
Theorem write_steps_only_add :
  (forall g companies g', add_companies_to_graph g companies = Ok g' -> keeps g g')
  /\ (forall g total_df competitor_df,
        nodes (add_competitor_relationships g total_df competitor_df) = nodes g
        /\ forall e, e ∈ edges g ->
                     e ∈ edges (add_competitor_relationships g total_df competitor_df))
  /\ (forall g company_df price_df fs_df date,
        keeps g (add_daily_data_to_graph neo4j g company_df price_df fs_df date).1).
Proof.
  split; [|split].
  - intros g companies g'. apply add_companies_keeps.
  - intros g total_df competitor_df. unfold add_competitor_relationships.
    destruct competitor_df as [cdf|]; [|auto]. destruct (frame_empty cdf); [auto|].
    destruct (negb _); [auto|].
    cbv zeta. generalize (check_existing_competitor_relationships g). intros existing.
    set (df := Frame (columns total_df)
                 (fillna_empty "compete_stock_code_li" (rows total_df))).
    generalize (rows df). intros companies. clearbody df. revert g.
    induction companies as [|company companies IH]; intros g; [auto|]. cbn [foldl].
    destruct (IH (competitor_step existing df g company)) as [Hn He].
    destruct (competitor_step_keeps existing df company g) as [Hn1 He1].
    split; [rewrite Hn; exact Hn1|]. intros e Hin. apply He, He1, Hin.
  - intros g company_df price_df fs_df date. apply daily_loop_keeps.
Qed.

(** ** The clean-up query *)

Lemma list_filter_sublist {A} (p : A -> bool) l : List.filter p l `sublist_of` l.
Proof.
  induction l as [|a l IH]; [constructor|]. cbn [List.filter].
  destruct (p a); [apply sublist_skip|apply sublist_cons]; exact IH.
Qed.

Lemma pruned_refl g : pruned g g.
Proof. split; [reflexivity|auto]. Qed.

Lemma pruned_trans g1 g2 g3 : pruned g1 g2 -> pruned g2 g3 -> pruned g1 g3.
Proof. intros [H1 H2] [H3 H4]. split; [etransitivity; eassumption|auto]. Qed.

Lemma pruned_node g g' n : pruned g g' -> n ∈ nodes g' -> n ∈ nodes g.
Proof. intros [H _] Hn. eapply elem_of_sublist; eassumption. Qed.

Lemma pruned_NoDup g g' : pruned g g' -> NoDup (nid <$> nodes g) -> NoDup (nid <$> nodes g').
Proof.
  intros [H _] Hnd. apply (sublist_NoDup _ _ Hnd). apply fmap_sublist. exact H.
Qed.

Lemma detach_delete_pruned g x : pruned g (detach_delete g x).
Proof.
  split; cbn [detach_delete nodes edges]; [apply list_filter_sublist|].
  intros e He. apply list_elem_of_In, filter_In in He. apply list_elem_of_In, He.
Qed.

Lemma detach_delete_node g x n :
  n ∈ nodes (detach_delete g x) <-> n ∈ nodes g /\ nid n <> x.
Proof.
  cbn [detach_delete nodes]. rewrite !list_elem_of_In, filter_In, negb_true_iff, Nat.eqb_neq.
  reflexivity.
Qed.

Lemma fold_detach_delete xs :
  forall g,
    pruned g (foldl detach_delete g xs)
    /\ forall n, n ∈ nodes g -> n ∉ nodes (foldl detach_delete g xs) -> nid n ∈ xs.
Proof.
  induction xs as [|x xs IH]; intros g; cbn [foldl].
  - split; [apply pruned_refl|]. intros n Hn Hnot. contradiction.
  - destruct (IH (detach_delete g x)) as [Hp Hgone]. split.
    + apply (pruned_trans _ (detach_delete g x)); [apply detach_delete_pruned|exact Hp].
    + intros n Hn Hnot. destruct (decide (nid n = x)) as [->|Hne]; [left|].
      right. apply Hgone; [|exact Hnot]. apply detach_delete_node. auto.
Qed.

(** [DETACH DELETE] over the rows: what goes is bound in a row. *)
Lemma for_rows_detach_delete vs rs :
  forall g, exists g',
    for_rows (exec_row (DetachDelete vs)) g rs = Ok (g', rs)
    /\ pruned g g'
    /\ forall n, n ∈ nodes g -> n ∉ nodes g' ->
         exists r v, r ∈ rs /\ v ∈ vs /\ r !! v = Some (nid n).
Proof.
  induction rs as [|r rs IH]; intros g.
  - exists g. split; [reflexivity|]. split; [apply pruned_refl|]. intros n Hn Hnot. contradiction.
  - cbn [for_rows exec_row].
    destruct (fold_detach_delete (omap (fun v => r !! v) vs) g) as [Hp Hgone].
    destruct (IH (foldl detach_delete g (omap (fun v => r !! v) vs))) as (g' & -> & Hp' & Hgone').
    exists g'. split; [reflexivity|]. split; [apply (pruned_trans _ _ _ Hp Hp')|].
    intros n Hn Hnot.
    destruct (decide (n ∈ nodes (foldl detach_delete g (omap (fun v => r !! v) vs))))
      as [Hstill|Hwent].
    + destruct (Hgone' n Hstill Hnot) as (r' & v & Hr' & Hv & Hb).
      exists r', v. split; [right; exact Hr'|auto].
    + apply (Hgone n Hn) in Hwent. apply list_elem_of_omap in Hwent.
      destruct Hwent as (v & Hv & Hb). exists r, v. split; [left|auto].
Qed.

(** [DELETE] over the rows, when it goes through. *)
Lemma for_rows_delete v rs :
  forall g g' rs',
    for_rows (exec_row (Delete v)) g rs = Ok (g', rs') ->
    rs' = rs /\ pruned g g'
    /\ (forall n, n ∈ nodes g -> n ∉ nodes g' -> exists r, r ∈ rs /\ r !! v = Some (nid n))
    /\ (forall r x, r ∈ rs -> r !! v = Some x -> forall n, n ∈ nodes g' -> nid n <> x).
Proof.
  induction rs as [|r rs IH]; intros g g' rs' H; cbn [for_rows] in H.
  - injection H as <- <-. split; [reflexivity|]. split; [apply pruned_refl|].
    split; [intros n Hn Hnot; contradiction|]. intros r x Hr. inversion Hr.
  - destruct (exec_row (Delete v) g r) as [[g1 out1]|] eqn:E1; [|discriminate].
    destruct (for_rows (exec_row (Delete v)) g1 rs) as [[g2 out2]|] eqn:E2; [|discriminate].
    injection H as <- <-. destruct (IH _ _ _ E2) as (-> & Hp2 & Hgone2 & Hout2).
    cbn [exec_row] in E1. destruct (r !! v) as [x|] eqn:Hx.
    + destruct (existsb (touches x) (edges g)); [discriminate|]. injection E1 as <- <-.
      split; [reflexivity|].
      split; [apply (pruned_trans _ (detach_delete g x)); [apply detach_delete_pruned|exact Hp2]|].
      split.
      * intros n Hn Hnot. destruct (decide (nid n = x)) as [Heq|Hne].
        -- exists r. split; [left|]. rewrite Hx, Heq. reflexivity.
        -- destruct (Hgone2 n) as (r' & Hr' & Hb); [apply detach_delete_node; auto|exact Hnot|].
           exists r'. split; [right; exact Hr'|exact Hb].
      * intros r' x' Hr' Hb n Hn. apply elem_of_cons in Hr'. destruct Hr' as [->|Hr'].
        -- rewrite Hx in Hb. injection Hb as <-.
           apply (pruned_node _ _ _ Hp2) in Hn. apply detach_delete_node in Hn. apply Hn.
        -- apply (Hout2 r' x' Hr' Hb n Hn).
    + injection E1 as <- <-. split; [reflexivity|]. split; [exact Hp2|]. split.
      * intros n Hn Hnot. destruct (Hgone2 n Hn Hnot) as (r' & Hr' & Hb).
        exists r'. split; [right; exact Hr'|exact Hb].
      * intros r' x' Hr' Hb n Hn. apply elem_of_cons in Hr'. destruct Hr' as [->|Hr'].
        -- rewrite Hx in Hb. discriminate.
        -- apply (Hout2 r' x' Hr' Hb n Hn).
Qed.

Lemma out_nodes_label g x ty label y :
  y ∈ out_nodes g x ty label -> has_label g y label = true.
Proof.
  unfold out_nodes. intros H. apply list_elem_of_fmap in H. destruct H as (e & -> & He).
  apply list_elem_of_In, filter_In in He. destruct He as [_ He].
  apply andb_prop in He. apply He.
Qed.

(** [OPTIONAL MATCH] over the rows: the graph stays, every row goes on at
    least once, and what [v] is bound to has the label. *)
Lemma for_rows_optional src ty v label g rs :
  exists rs',
    for_rows (exec_row (OptionalMatchOut src ty v label)) g rs = Ok (g, rs')
    /\ (forall r', r' ∈ rs' ->
          (forall y, r' !! v = Some y -> has_label g y label = true)
          /\ exists r, r ∈ rs /\ forall w, w <> v -> r' !! w = r !! w)
    /\ (forall r, r ∈ rs -> exists r', r' ∈ rs' /\ forall w, w <> v -> r' !! w = r !! w).
Proof.
  pose (h := fun r : row =>
               match r !! src with
               | Some x =>
                   match out_nodes g x ty label with
                   | [] => [delete v r]
                   | y0 :: ys => list_fmap nat row (fun y : nat => <[v := y]> r) (y0 :: ys)
                   end
               | None => [delete v r]
               end).
  assert (Hh : forall r r', r' ∈ h r ->
                 (forall y, r' !! v = Some y -> has_label g y label = true)
                 /\ forall w, w <> v -> r' !! w = r !! w).
  { intros r r' Hr'. unfold h in Hr'.
    assert (Hdel : r' = delete v r ->
                   (forall y, r' !! v = Some y -> has_label g y label = true)
                   /\ forall w, w <> v -> r' !! w = r !! w).
    { intros ->. split.
      - intros y Hy. rewrite lookup_delete_eq in Hy. discriminate.
      - intros w Hw. apply lookup_delete_ne. auto. }
    destruct (r !! src) as [x|]; [|apply Hdel; apply list_elem_of_singleton in Hr'; exact Hr'].
    destruct (out_nodes g x ty label) as [|y0 ys] eqn:E;
      [apply Hdel; apply list_elem_of_singleton in Hr'; exact Hr'|].
    apply list_elem_of_fmap in Hr'. destruct Hr' as (y & -> & Hy). split.
    - intros y' Hy'. rewrite lookup_insert_eq in Hy'. injection Hy' as <-.
      apply (out_nodes_label g x ty label). rewrite E. exact Hy.
    - intros w Hw. apply lookup_insert_ne. auto. }
  assert (Hne : forall r, h r <> []).
  { intros r. unfold h. destruct (r !! src); [|discriminate].
    destruct (out_nodes g _ ty label); discriminate. }
  exists (flat_map h rs). split; [|split].
  - apply for_rows_pure. intros r. cbn [exec_row]. unfold h.
    destruct (r !! src); [|reflexivity]. destruct (out_nodes g _ ty label); reflexivity.
  - intros r' Hr'. apply list_elem_of_In, in_flat_map in Hr'. destruct Hr' as (r & Hr & Hin).
    apply list_elem_of_In in Hr, Hin. destruct (Hh r r' Hin) as [H1 H2].
    split; [exact H1|]. exists r. auto.
  - intros r Hr. destruct (h r) as [|r' tl] eqn:E; [destruct (Hne r E)|].
    exists r'. assert (Hin : r' ∈ h r) by (rewrite E; left). split.
    + apply list_elem_of_In, in_flat_map. exists r. rewrite <- !list_elem_of_In. auto.
    + apply (Hh r r' Hin).
Qed.

Lemma has_label_node g x label :
  has_label g x label = true <-> exists n, n ∈ nodes g /\ nid n = x /\ nlabel n = label.
Proof.
  unfold has_label. rewrite existsb_exists. split.
  - intros (n & Hn & H). apply andb_prop in H. destruct H as [H1 H2].
    exists n. rewrite list_elem_of_In. split; [exact Hn|].
    split; [apply Nat.eqb_eq, H1|apply String.eqb_eq, H2].
  - intros (n & Hn & <- & <-). exists n. rewrite <- list_elem_of_In.
    split; [exact Hn|]. rewrite Nat.eqb_refl, String.eqb_refl. reflexivity.
Qed.

(** The variables of the clean-up query and the labels of what they are
    bound to. *)
Lemma cleanup_rows g date :
  exists rs,
    exec_clauses
      [ Match "d" "Date" [("date", Quoted date)];
        OptionalMatchOut "d" "RECORDED_ON" "sp" "StockPrice";
        OptionalMatchOut "sp" "HAS_STOCK_PRICE" "i" "Indicator";
        OptionalMatchOut "i" "HAS_INDICATOR" "fs" "FinancialStatements" ] g [∅]
    = Ok (g, rs)
    /\ (forall r, r ∈ rs ->
          (forall x, r !! "d" = Some x -> x ∈ match_nodes "Date" [("date", Quoted date)] g)
          /\ (forall x, r !! "sp" = Some x -> has_label g x "StockPrice" = true)
          /\ (forall x, r !! "i" = Some x -> has_label g x "Indicator" = true)
          /\ (forall x, r !! "fs" = Some x -> has_label g x "FinancialStatements" = true))
    /\ (forall x, x ∈ match_nodes "Date" [("date", Quoted date)] g ->
          exists r, r ∈ rs /\ r !! "d" = Some x).
Proof.
  cbn [exec_clauses].
  rewrite (for_rows_pure _ (fun r => (fun n => <["d" := n]> r)
                                       <$> match_nodes "Date" [("date", Quoted date)] g))
    by reflexivity.
  cbn [flat_map]. rewrite app_nil_r.
  set (M := match_nodes "Date" [("date", Quoted date)] g).
  set (rs0 := (fun n => <["d" := n]> (∅ : row)) <$> M).
  assert (T0 : forall r, r ∈ rs0 ->
                 (forall x, r !! "d" = Some x -> x ∈ M)
                 /\ r !! "sp" = None /\ r !! "i" = None /\ r !! "fs" = None).
  { intros r Hr. apply list_elem_of_fmap in Hr. destruct Hr as (n & -> & Hn). split.
    - intros x Hx. rewrite lookup_insert_eq in Hx. injection Hx as <-. exact Hn.
    - repeat split; (rewrite lookup_insert_ne by discriminate; apply lookup_empty). }
  assert (C0 : forall x, x ∈ M -> exists r, r ∈ rs0 /\ r !! "d" = Some x).
  { intros x Hx. exists (<["d" := x]> ∅). split; [|apply lookup_insert_eq].
    apply list_elem_of_fmap. exists x. auto. }
  destruct (for_rows_optional "d" "RECORDED_ON" "sp" "StockPrice" g rs0)
    as (rs1 & -> & B1 & F1).
  destruct (for_rows_optional "sp" "HAS_STOCK_PRICE" "i" "Indicator" g rs1)
    as (rs2 & -> & B2 & F2).
  destruct (for_rows_optional "i" "HAS_INDICATOR" "fs" "FinancialStatements" g rs2)
    as (rs3 & -> & B3 & F3).
  exists rs3. split; [reflexivity|]. split.
  - intros r3 H3. destruct (B3 r3 H3) as (L3 & r2 & H2 & S3).
    destruct (B2 r2 H2) as (L2 & r1 & H1 & S2).
    destruct (B1 r1 H1) as (L1 & r0 & H0 & S1).
    destruct (T0 r0 H0) as (Td & _).
    split; [|split; [|split]].
    + intros x. rewrite S3, S2, S1 by discriminate. apply Td.
    + intros x. rewrite S3, S2 by discriminate. apply L1.
    + intros x. rewrite S3 by discriminate. apply L2.
    + exact L3.
  - intros x Hx. destruct (C0 x Hx) as (r0 & H0 & Hd).
    destruct (F1 r0 H0) as (r1 & H1 & S1). destruct (F2 r1 H1) as (r2 & H2 & S2).
    destruct (F3 r2 H2) as (r3 & H3 & S3). exists r3. split; [exact H3|].
    rewrite S3, S2, S1 by discriminate. exact Hd.
Qed.

(** What a clean-up query that goes through has done. *)
Lemma cleanup_query_done g date g' :
  run_query g (cleanup_query date) = Ok g' ->
  pruned g g'
  /\ match_nodes "Date" [("date", Quoted date)] g' = []
  /\ (NoDup (nid <$> nodes g) ->
      forall n, n ∈ nodes g -> nlabel n ∉ date_labels -> n ∈ nodes g').
Proof.
  unfold run_query, cleanup_query. intros H.
  change [ Match "d" "Date" [("date", Quoted date)];
           OptionalMatchOut "d" "RECORDED_ON" "sp" "StockPrice";
           OptionalMatchOut "sp" "HAS_STOCK_PRICE" "i" "Indicator";
           OptionalMatchOut "i" "HAS_INDICATOR" "fs" "FinancialStatements";
           DetachDelete ["sp"; "i"; "fs"]; Delete "d" ]
    with ([ Match "d" "Date" [("date", Quoted date)];
            OptionalMatchOut "d" "RECORDED_ON" "sp" "StockPrice";
            OptionalMatchOut "sp" "HAS_STOCK_PRICE" "i" "Indicator";
            OptionalMatchOut "i" "HAS_INDICATOR" "fs" "FinancialStatements" ]
          ++ [DetachDelete ["sp"; "i"; "fs"]; Delete "d"])%list in H.
  rewrite exec_clauses_app in H.
  destruct (cleanup_rows g date) as (rs & Erows & Hty & Hcov).
  rewrite Erows in H. cbn [exec_clauses] in H.
  destruct (for_rows_detach_delete ["sp"; "i"; "fs"] rs g) as (gD & E & HpD & HgoneD).
  rewrite E in H.
  destruct (for_rows (exec_row (Delete "d")) gD rs) as [[g1 rs1]|] eqn:E1; [|discriminate].
  injection H as <-.
  destruct (for_rows_delete _ _ _ _ _ E1) as (_ & Hp1 & Hgone1 & Hout1).
  assert (Hp : pruned g g1) by (apply (pruned_trans _ gD); assumption).
  split; [exact Hp|]. split.
  - destruct (match_nodes "Date" [("date", Quoted date)] g1) as [|x xs] eqn:Ex; [reflexivity|].
    exfalso. assert (Hx : x ∈ match_nodes "Date" [("date", Quoted date)] g1)
      by (rewrite Ex; left).
    apply match_nodes_in in Hx. destruct Hx as (n & Hn & Hid & Hm).
    assert (Hx : x ∈ match_nodes "Date" [("date", Quoted date)] g).
    { apply match_nodes_in. exists n. split; [apply (pruned_node _ _ _ Hp Hn)|auto]. }
    destruct (Hcov x Hx) as (r & Hr & Hd). apply (Hout1 r x Hr Hd n Hn Hid).
  - intros Hnd n Hn Hlabel. destruct (decide (n ∈ nodes g1)) as [Hin|Hout]; [exact Hin|].
    exfalso. apply Hlabel.
    assert (Hsame : forall label, has_label g (nid n) label = true -> nlabel n = label).
    { intros label Hl. apply has_label_node in Hl. destruct Hl as (n' & Hn' & Hid & <-).
      rewrite (nodup_nid_inj g n' n Hnd Hn' Hn Hid). reflexivity. }
    destruct (decide (n ∈ nodes gD)) as [HinD|HoutD].
    + destruct (Hgone1 n HinD Hout) as (r & Hr & Hd).
      destruct (Hty r Hr) as (Td & _). specialize (Td _ Hd).
      apply match_nodes_in in Td. destruct Td as (n' & Hn' & Hid & Hm).
      apply matches_spec in Hm. destruct Hm as [Hl _].
      rewrite <- (nodup_nid_inj g n' n Hnd Hn' Hn Hid), Hl. left.
    + destruct (HgoneD n Hn HoutD) as (r & v & Hr & Hv & Hb).
      destruct (Hty r Hr) as (_ & Tsp & Ti & Tfs).
      apply list_elem_of_In in Hv. cbn in Hv. destruct Hv as [<-|[<-|[<-|[]]]].
      * rewrite (Hsame _ (Tsp _ Hb)). right. left.
      * rewrite (Hsame _ (Ti _ Hb)). right. right. left.
      * rewrite (Hsame _ (Tfs _ Hb)). right. right. right. left.
Qed.

(** The clean-up of one date, all or nothing. Either the graph is left as
    it was, or nothing was added and no [Date] node of the date is left; and
    when the graph has no [Date] node of the date it is left as it was. *)
Theorem cleanup_single_date_all_or_nothing (g : graph) (date : string) :
  (cleanup_single_date_data g date = g
   \/ (pruned g (cleanup_single_date_data g date)
       /\ match_nodes "Date" [("date", Quoted date)] (cleanup_single_date_data g date) = []))
  /\ (match_nodes "Date" [("date", Quoted date)] g = [] ->
      run_query g (cleanup_query date) = Ok g /\ cleanup_single_date_data g date = g).
Proof.
  split.
  - unfold cleanup_single_date_data.
    destruct (run_query g (cleanup_query date)) as [g'|err] eqn:E; [|left; reflexivity].
    right. destruct (cleanup_query_done g date g' E) as (Hp & Hm & _). auto.
  - intros Hnone.
    assert (E : run_query g (cleanup_query date) = Ok g).
    { unfold run_query, cleanup_query. cbn [exec_clauses].
      rewrite (for_rows_pure _ (fun r => (fun n => <["d" := n]> r)
                                           <$> match_nodes "Date" [("date", Quoted date)] g))
        by reflexivity.
      rewrite Hnone. reflexivity. }
    split; [exact E|]. unfold cleanup_single_date_data. rewrite E. reflexivity.
Qed.

Lemma cleanup_single_date_spares g date :
  NoDup (nid <$> nodes g) ->
  pruned g (cleanup_single_date_data g date)
  /\ forall n, n ∈ nodes g -> nlabel n ∉ date_labels -> n ∈ nodes (cleanup_single_date_data g date).
Proof.
  intros Hnd. unfold cleanup_single_date_data.
  destruct (run_query g (cleanup_query date)) as [g'|err] eqn:E.
  - destruct (cleanup_query_done g date g' E) as (Hp & _ & Hs). auto.
  - split; [apply pruned_refl|auto].
Qed.

Lemma cleanup_processed_spares dates :
  forall g,
    NoDup (nid <$> nodes g) ->
    pruned g (cleanup_processed_data g dates)
    /\ forall n, n ∈ nodes g -> nlabel n ∉ date_labels -> n ∈ nodes (cleanup_processed_data g dates).
Proof.
  induction dates as [|date dates IH]; intros g Hnd; cbn [cleanup_processed_data].
  - split; [apply pruned_refl|auto].
  - destruct (run_query g (cleanup_query date)) as [g'|err] eqn:E.
    + destruct (cleanup_query_done g date g' E) as (Hp & _ & Hs).
      destruct (IH g' (pruned_NoDup g g' Hp Hnd)) as [Hp' Hs']. split.
      * apply (pruned_trans _ g'); assumption.
      * intros n Hn Hl. apply Hs'; [apply Hs; assumption|exact Hl].
    + split; [apply pruned_refl|auto].
Qed.

(** What the recovery spares. On a graph whose nodes have distinct
    identifiers, the recovery adds nothing and removes no node other than
    [Date], [StockPrice], [Indicator] and [FinancialStatements] nodes: every
    company, sector, quarter and year is still there afterwards. *)
Theorem recovery_spares_other_labels (g : graph) (st : run_state) :
  NoDup (nid <$> nodes g) ->
  pruned g (cleanup_and_exit g st)
  /\ forall n, n ∈ nodes g -> nlabel n ∉ date_labels -> n ∈ nodes (cleanup_and_exit g st).
Proof.
  intros Hnd. unfold cleanup_and_exit.
  assert (H1 : pruned g (match processed_dates st with
                         | [] => g
                         | d :: ds => cleanup_processed_data g (d :: ds)
                         end)
               /\ forall n, n ∈ nodes g -> nlabel n ∉ date_labels ->
                     n ∈ nodes (match processed_dates st with
                                | [] => g
                                | d :: ds => cleanup_processed_data g (d :: ds)
                                end)).
  { destruct (processed_dates st) as [|d ds].
    - split; [apply pruned_refl|auto].
    - apply cleanup_processed_spares. exact Hnd. }
  revert H1.
  generalize (match processed_dates st with
              | [] => g
              | d :: ds => cleanup_processed_data g (d :: ds)
              end).
  intros g1 [Hp1 Hs1].
  destruct (current_date st) as [date|]; [|auto].
  destruct (nonempty date); [|auto].
  destruct (cleanup_single_date_spares g1 date (pruned_NoDup g g1 Hp1 Hnd)) as [Hp2 Hs2].
  split; [exact (pruned_trans g g1 _ Hp1 Hp2)|].
  intros n Hn Hl. apply Hs2; [apply Hs1; assumption|exact Hl].
Qed.

Lemma recovery_spares_other_labels_witness :
  let st := RunState (Some "20240104") ["20240102"; "20240103"] in
  exists n,
    head (nodes example_written) = Some n /\ nlabel n = "Company"
    /\ n ∈ nodes (cleanup_and_exit example_written st).
Proof.
  intros st. eexists. split; [vm_compute; reflexivity|]. split; [reflexivity|].
  apply (recovery_spares_other_labels example_written st).
  - apply (bool_decide_unpack _). vm_compute. exact I.
  - apply (bool_decide_unpack _). vm_compute. exact I.
  - apply (bool_decide_unpack _). vm_compute. exact I.
Defined.

(** ** Rows without their keys in the write step *)

Lemma daily_loop_app {G} (graph : store G) price_df fs_df date pre post :
  forall st,
    daily_loop graph price_df fs_df date st (pre ++ post)
    = match daily_loop graph price_df fs_df date st pre with
      | (g', Ok counts) => daily_loop graph price_df fs_df date (g', counts) post
      | (g', Raise e) => (g', Raise e)
      end.
Proof.
  induction pre as [|c pre IH]; intros st; cbn [app daily_loop].
  - destruct st. reflexivity.
  - destruct (daily_step graph price_df fs_df date st c) as [st'|err]; [apply IH|reflexivity].
Qed.

(** A frame without a column ends the write step at the first company.
    When the company frame has no column [stock_code], or the price frame has
    none, or the first company has a price record and the statement frame has
    none, [add_daily_data_to_graph] raises [KeyError] for [stock_code]; when
    the company frame has no column [stock_abbrv] and the write of the first
    company fails, the handler raises [KeyError] for [stock_abbrv]. In each
    case the store is as before and no other company is read. *)
Theorem add_daily_data_missing_column {G} (graph : store G) (g : G)
    (company_df price_df : DataFrame) (fs_df : option DataFrame) (date : string)
    (company : dict) (post : list dict) :
  rows company_df = company :: post ->
  (has_column company_df "stock_code" = false ->
   add_daily_data_to_graph graph g company_df price_df fs_df date
   = (g, Raise (KeyError "stock_code")))
  /\ (is_Some (company !! "stock_code") ->
      has_column price_df "stock_code" = false ->
      add_daily_data_to_graph graph g company_df price_df fs_df date
      = (g, Raise (KeyError "stock_code")))
  /\ (forall stock_code price prices df,
        company !! "stock_code" = Some stock_code ->
        select_eq (rows price_df) "stock_code" stock_code = price :: prices ->
        fs_df = Some df -> has_column df "stock_code" = false ->
        add_daily_data_to_graph graph g company_df price_df fs_df date
        = (g, Raise (KeyError "stock_code")))
  /\ (forall stock_code price prices,
        company !! "stock_code" = Some stock_code ->
        select_eq (rows price_df) "stock_code" stock_code = price :: prices ->
        (forall df, fs_df = Some df -> has_column df "stock_code" = true) ->
        company_write graph price_df fs_df date g company = None ->
        has_column company_df "stock_abbrv" = false ->
        add_daily_data_to_graph graph g company_df price_df fs_df date
        = (g, Raise (KeyError "stock_abbrv"))).
Proof.
  intros Hrows. unfold add_daily_data_to_graph. rewrite Hrows. cbn [daily_loop].
  assert (Hfirst : In company (rows company_df)) by (rewrite Hrows; left; reflexivity).
  split; [|split; [|split]].
  - intros Hcol. unfold daily_step, getitem.
    rewrite (has_column_false company_df "stock_code" company Hcol Hfirst). reflexivity.
  - intros [code Hcode] Hcol. unfold daily_step. unfold getitem at 1. rewrite Hcode.
    cbn [rbind]. unfold frame_select at 1. rewrite Hcol. reflexivity.
  - intros code price prices df Hcode Hprice -> Hcol. unfold daily_step.
    unfold getitem at 1. rewrite Hcode. cbn [rbind].
    rewrite (frame_select_found price_df "stock_code" code price prices Hprice). cbn [rbind].
    unfold frame_select. rewrite Hcol. reflexivity.
  - intros code price prices Hcode Hprice Hfs Hwrite Hcol.
    rewrite (daily_step_columns graph price_df fs_df date g O O company
               (has_column_found _ _ _ _ _ Hprice) Hfs).
    unfold company_write in Hwrite. rewrite Hcode, Hprice in Hwrite.
    unfold getitem at 1. rewrite Hcode. cbn [rbind]. rewrite Hprice.
    pose proof (has_column_false company_df "stock_abbrv" company Hcol Hfirst) as Habbrv.
    destruct (_create_cypher_query_daily_data date company price _) as [q|err]; cbn [rbind].
    + destruct (store_create_schema graph g q); [discriminate|].
      unfold getitem. rewrite Habbrv. reflexivity.
    + unfold getitem. rewrite Habbrv. reflexivity.
Qed.

Lemma add_daily_data_missing_column_witness :
  add_daily_data_to_graph neo4j (Graph [] [])
    (Frame ["stock_abbrv"]
       [ ({[ "stock_abbrv" := PStr "A" ]} : dict); ({[ "stock_abbrv" := PStr "B" ]} : dict) ])
    (example_prices "20240102" 100) None "20240102"
  = (Graph [] [], Raise (KeyError "stock_code")).
Proof.
  destruct (add_daily_data_missing_column neo4j (Graph [] [])
              (Frame ["stock_abbrv"]
                 [ ({[ "stock_abbrv" := PStr "A" ]} : dict);
                   ({[ "stock_abbrv" := PStr "B" ]} : dict) ])
              (example_prices "20240102" 100) None "20240102"
              ({[ "stock_abbrv" := PStr "A" ]} : dict)
              [ ({[ "stock_abbrv" := PStr "B" ]} : dict) ])
    as (H & _).
  - reflexivity.
  - apply H. vm_compute. reflexivity.
Defined.

(** ** The log after a date *)

(** The marker and the log after [process_single_date]. When the call
    returns the counters with no success and at least one failure, the date
    stays the current date and the log is as before; in every other case,
    and also when the call raises, the marker is cleared and the date is
    appended to the log. The dates logged before are always kept. *)
Theorem process_single_date_log {G} (graph : store G)
    (collect_prices collect_statements : string -> result (option DataFrame))
    (company_df : DataFrame) (date : string) (g : G) (st : run_state) :
  match process_single_date graph collect_prices collect_statements company_df date g st with
  | (_, Ok (O, S _), st') => st' = RunState (Some date) (processed_dates st)
  | (_, _, st') => st' = RunState None (processed_dates st ++ [date])
  end.
Proof.
  unfold process_single_date.
  destruct (collect_prices date) as [[prices|]|]; try reflexivity;
    destruct (collect_statements date) as [fs_df|]; try reflexivity.
  destruct (frame_empty prices); [reflexivity|].
  destruct (add_daily_data_to_graph graph g company_df prices fs_df date)
    as [g' [[[|s] [|e]]|err]]; reflexivity.
Qed.

(** ** The dates of [get_date_list] in the builders *)

Lemma date_loop_ok fin :
  valid_date fin = true ->
  forall fuel cur acc dates,
    valid_date cur = true ->
    date_loop fuel cur fin acc = Some (Ok dates) ->
    exists ds,
      dates = (acc ++ (strftime_compact <$> ds))%list
      /\ Forall (fun d => valid_date d = true
                          /\ toordinal cur <= toordinal d <= toordinal fin) ds.
Proof.
  intros Hfin fuel. induction fuel as [|fuel IH]; intros cur acc dates Hcur H;
    cbn [date_loop] in H; destruct (date_le cur fin) eqn:Hle.
  - discriminate.
  - injection H as <-. exists []. rewrite app_nil_r. split; [reflexivity|constructor].
  - destruct (decide (cur = max_date)) as [->|Hne]; [discriminate H|].
    destruct (add_one_day_ok cur Hcur Hne) as (next & Hnext & Hv & Hord).
    rewrite Hnext in H. destruct (IH next _ dates Hv H) as (ds & -> & Hall).
    apply (date_le_toordinal cur fin Hcur Hfin) in Hle.
    exists (cur :: ds). cbn [fmap list_fmap]. rewrite <- app_assoc. split; [reflexivity|].
    constructor; [split; [exact Hcur|lia]|].
    eapply Forall_impl; [exact Hall|]. intros d [Hd Ho]. split; [exact Hd|lia].
  - injection H as <-. exists []. rewrite app_nil_r. split; [reflexivity|constructor].
Qed.

(** The dates of [get_date_list] are dates for the builders. Every string
    of a list that [get_date_list] returns for two calendar dates of the
    years 1000 to 9999 is a calendar date between the two,
    [_get_date_components] reads its year, month and day with a quarter from
    1 to 4, and the daily builder never answers it with the empty query. *)
Theorem get_date_list_dates_parse (start finish : date) (fuel : nat) (dates : list string)
    (s : string) :
  valid_date start = true -> valid_date finish = true ->
  1000 <= year start -> 1000 <= year finish ->
  get_date_list fuel (strftime_compact start) (strftime_compact finish) = Some (Ok dates) ->
  s ∈ dates ->
  exists dt,
    s = strftime_compact dt /\ valid_date dt = true
    /\ date_le start dt = true /\ date_le dt finish = true
    /\ _get_date_components s = Some (year dt, month dt, day dt, (month dt - 1) / 3 + 1)
    /\ 1 <= (month dt - 1) / 3 + 1 <= 4
    /\ forall company price fs q,
         _create_cypher_query_daily_data s company price fs = Ok q -> q <> [].
Proof.
  intros Hs Hf Hys Hyf H Hin. unfold get_date_list in H.
  rewrite (strptime_strftime_compact start Hs Hys),
    (strptime_strftime_compact finish Hf Hyf) in H.
  destruct (date_loop_ok finish Hf fuel start [] dates Hs H) as (ds & -> & Hall).
  cbn [app] in Hin. apply list_elem_of_fmap in Hin. destruct Hin as (dt & -> & Hdt).
  rewrite Forall_forall in Hall. destruct (Hall dt Hdt) as [Hv Ho].
  destruct (valid_date_bounds dt Hv) as (Hy & Hm & Hd & Hd').
  assert (Hle : date_le start dt = true)
    by (apply (date_le_toordinal start dt Hs Hv); lia).
  pose proof (date_le_year _ _ Hle) as Hy4.
  assert (Hc : _get_date_components (strftime_compact dt)
               = Some (year dt, month dt, day dt, (month dt - 1) / 3 + 1)).
  { rewrite (strftime_compact_padded dt) by lia.
    apply get_date_components_compact; lia. }
  exists dt. split; [reflexivity|]. split; [exact Hv|].
  split; [exact Hle|].
  split; [apply (date_le_toordinal dt finish Hv Hf); lia|].
  split; [exact Hc|]. split; [Z.div_mod_to_equations; lia|].
  intros company price fs q Hq. unfold _create_cypher_query_daily_data in Hq.
  rewrite Hc in Hq. unfold getitem in Hq.
  destruct (price !! "stck_hgpr"); [|discriminate].
  destruct (price !! "stck_lwpr"); [|discriminate].
  destruct (price !! "stck_oprc"); [|discriminate].
  destruct (price !! "stck_clpr"); [|discriminate].
  destruct (company !! "stock_code"); [|discriminate].
  cbn [rbind] in Hq. injection Hq as <-. discriminate.
Qed.

Lemma get_date_list_dates_parse_witness :
  exists dt,
    "20240301" = strftime_compact dt /\ valid_date dt = true
    /\ date_le (Date 2024 2 28) dt = true
    /\ _get_date_components "20240301"
       = Some (year dt, month dt, day dt, (month dt - 1) / 3 + 1).
Proof.
  destruct (get_date_list_dates_parse (Date 2024 2 28) (Date 2024 3 1) 5
              ["20240228"; "20240229"; "20240301"] "20240301")
    as (dt & H1 & H2 & H3 & _ & H5 & _).
  - reflexivity.
  - reflexivity.
  - cbn [year]. lia.
  - cbn [year]. lia.
  - vm_compute. reflexivity.
  - apply (bool_decide_unpack _). vm_compute. exact I.
  - exists dt. split; [exact H1|]. split; [exact H2|]. split; [exact H3|exact H5].
Defined.
